(** * BFLOW data-access layer: a shallow embedding of [database.py]

    The [Database] class wraps a SQLite store.  Every method opens a
    connection, runs a few SQL statements and commits; an exception leaves
    the [with conn:] block through a rollback.  The embedding therefore
    passes the store explicitly: a method is a function from the store to
    either an error (store untouched) or a new store and a return value.

    Modelling conventions, all read off the schema in
    [_initialize_database] and the engine's behaviour:
    - a table is the list of its rows in insertion order together with its
      AUTOINCREMENT counter (its [sqlite_sequence] entry);
    - a nullable column is an [option]; a NOT NULL column holds a plain
      value and a NULL offered to it raises an integrity error;
    - values are taken at the declared type of their column (a rating is
      an integer, a name is text).  An integer the caller supplies as data
      (a birth year, a shirt number, a rating, the player id of a request)
      is a Python [int], an unbounded [Z]: when [sqlite3] binds it to a
      statement it must fit a signed 64-bit INTEGER, or the call raises
      [OverflowError] before the statement runs.  Row keys are unbounded
      [Z]: the AUTOINCREMENT counters never run out, and a key handed to a
      lookup is one that can denote a row;
    - the keys of [update_user]'s keyword arguments are identifiers: each
      resolves to a column of the person tables or to none.  A key that
      is SQL text, which the method would paste into its statement, is
      outside the model;
    - the connection never switches [PRAGMA foreign_keys] on, so the
      FOREIGN KEY clauses are not enforced;
    - [cursor.fetchone()] is the first matching row of the table. *)

From Stdlib Require Import ZArith List String Bool Lia.
Import ListNotations.
Open Scope string_scope.
Open Scope Z_scope.
Open Scope list_scope.

(** ** Exceptions and results *)

(** The messages of the [ValueError]s the class raises. *)
Inductive value_error : Type :=
| Invalid_role               (* "Invalid role provided" *)
| Exercise_name_required     (* "Exercise name is required" *)
| Result_or_rating_required
    (* "At least one of 'result' or 'rating' must be provided and valid" *)
| Exercise_not_found (exercise_name : string)
    (* f"Exercise '{exercise_name}' not found" *)
| Team_name_exists           (* "Team name already exists" *)
| Coach_has_team             (* "Coach already has a team" *)
| Team_not_found             (* "Team not found" *)
| Coach_not_found            (* "Coach not found" *)
| Child_not_found            (* "Child not found" *)
| Parent_not_found.          (* "Parent not found" *)

(** Constraint failures reported by the engine as [sqlite3.IntegrityError]. *)
Inductive constraint : Type :=
| NOT_NULL (column : string)
| UNIQUE (table_name : string)
| CHECK (expr : string)
| Datatype_mismatch.

Inductive error : Type :=
| ValueError (v : value_error)
| IntegrityError (c : constraint)
| OperationalError (msg : string)   (* "no such column: ..." *)
| OverflowError
    (* "Python int too large to convert to SQLite INTEGER" *)
| TypeError.                        (* subscripting [None] *)

Inductive result (A : Type) : Type :=
| Ok (a : A)
| Err (e : error).
Arguments Ok {A} a.
Arguments Err {A} e.

Definition bind {A B} (m : result A) (k : A -> result B) : result B :=
  match m with
  | Ok a => k a
  | Err e => Err e
  end.

Notation "x <- m ;; k" := (bind m (fun x => k))
  (at level 61, m at next level, right associativity).
Notation "' pat <- m ;; k" := (bind m (fun x => match x with pat => k end))
  (at level 61, pat pattern, m at next level, right associativity).

(** The error kinds of the specification, by message. *)
Inductive error_kind : Type :=
| InvalidInput | NotFound | Conflict | UniquenessViolation | StoreError.

Definition kind (e : error) : error_kind :=
  match e with
  | ValueError Invalid_role => InvalidInput
  | ValueError Exercise_name_required => InvalidInput
  | ValueError Result_or_rating_required => InvalidInput
  | ValueError (Exercise_not_found _) => NotFound
  | ValueError Team_not_found => NotFound
  | ValueError Coach_not_found => NotFound
  | ValueError Child_not_found => NotFound
  | ValueError Parent_not_found => NotFound
  | ValueError Team_name_exists => Conflict
  | ValueError Coach_has_team => Conflict
  | IntegrityError (UNIQUE _) => UniquenessViolation
  | IntegrityError _ => StoreError
  | OperationalError _ => StoreError
  | OverflowError => StoreError
  | TypeError => StoreError
  end.

(** ** Tables with an AUTOINCREMENT key *)

Class Row (R : Type) : Type := { rowid : R -> Z }.

Record table (R : Type) : Type := Table {
  rows : list R;
  seq : Z          (* largest rowid handed out so far *)
}.

Arguments Table {R} rows seq.
Arguments rows {R} t.
Arguments seq {R} t.

Definition empty_table {R} : table R := {| rows := []; seq := 0 |}.

Section Autoincrement.
Context {R : Type} `{Row R}.

(** Two rows that cannot live in the table together: same primary key or
    same value of a UNIQUE column group. *)
Variable clash : R -> R -> bool.

Definition max_rowid (l : list R) : Z :=
  fold_right (fun r m => Z.max (rowid r) m) 0 l.

(** AUTOINCREMENT: one more than both the counter and every key present. *)
Definition next_rowid (t : table R) : Z :=
  Z.max (seq t) (max_rowid (rows t)) + 1.

Definition violates (r : R) (l : list R) : bool := existsb (clash r) l.

(** [INSERT INTO ...]: a clash aborts the statement, counter included. *)
Definition insert (table_name : string) (mk : Z -> R) (t : table R)
  : result (table R * Z) :=
  let i := next_rowid t in
  if violates (mk i) (rows t) then Err (IntegrityError (UNIQUE table_name))
  else Ok ({| rows := rows t ++ [mk i]; seq := i |}, i).

(** [INSERT OR IGNORE INTO ...]: a clash skips the row; the key drawn for
    it is consumed all the same. *)
Definition insert_or_ignore (mk : Z -> R) (t : table R) : table R :=
  let i := next_rowid t in
  {| rows := if violates (mk i) (rows t) then rows t else rows t ++ [mk i];
     seq := i |}.

(** [UPDATE ... WHERE p]: the new rows and [cursor.rowcount]. *)
Definition update_where (p : R -> bool) (f : R -> R) (l : list R)
  : list R * Z :=
  (map (fun r => if p r then f r else r) l,
   Z.of_nat (List.length (filter p l))).
End Autoincrement.

(** A NULL offered to a NOT NULL column. *)
Definition not_null {A} (column : string) (v : option A) : result A :=
  match v with
  | Some a => Ok a
  | None => Err (IntegrityError (NOT_NULL column))
  end.

(** ** Binding parameters *)

(** A signed 64-bit integer. *)
Definition fits (v : Z) : bool :=
  (- 9223372036854775808 <=? v) && (v <=? 9223372036854775807).

(** [None] is bound as NULL. *)
Definition bindable (v : option Z) : bool :=
  match v with
  | Some v => fits v
  | None => true
  end.

(** [cursor.execute(sql, parameters)] binds every parameter after the
    statement is compiled and before it runs: an integer that does not fit
    raises [OverflowError], whatever the statement would have done. *)
Definition bind_parameters (integers : list (option Z)) : result unit :=
  if forallb bindable integers then Ok tt else Err OverflowError.

(** One [key=value] pair of [update_user]'s keyword arguments, by the
    column of the person tables its key resolves to, with a value of that
    column's declared type ([None] is NULL).  Column names are matched
    without regard to case; [assign_id] is a key such as [ID] or [rowid]
    (the spelling [id] is the method's own parameter and cannot be a
    key).  [assign_unknown] is an identifier that names no column. *)
Inductive assignment : Type :=
| assign_id (v : option Z)
| assign_username (v : option string)
| assign_password (v : option string)
| assign_email (v : option string)
| assign_name (v : option string)
| assign_picture (v : option string)
| assign_birthYear (v : option Z)
| assign_country (v : option string)
| assign_number (v : option Z)
| assign_parent (v : option string)
| assign_parentEmail (v : option string)
| assign_parentPhone (v : option string)
| assign_coach (v : option string)
| assign_coachEmail (v : option string)
| assign_coachPhone (v : option string)
| assign_team (v : option string)
| assign_shirtNumber (v : option Z)
| assign_team_id (v : option Z)
| assign_child_name (v : option string)
| assign_child_email (v : option string)
| assign_unknown.

(** The integer a pair offers as a parameter, if it offers one. *)
Definition offered (a : assignment) : option Z :=
  match a with
  | assign_id v => v
  | assign_birthYear v => v
  | assign_number v => v
  | assign_shirtNumber v => v
  | assign_team_id v => v
  | _ => None
  end.

(** ** The schema *)

Module Player.
Record row : Type := Row {
  id : Z;
  username : string;
  password : string;
  email : string;
  name : string;
  picture : option string;
  birthYear : Z;
  country : string;
  number : option Z;
  parent : option string;
  parentEmail : option string;
  parentPhone : option string;
  coach : option string;
  coachEmail : option string;
  coachPhone : option string;
  team : option string;
  shirtNumber : option Z;
  team_id : option Z
}.
(* username TEXT UNIQUE, email TEXT UNIQUE, id PRIMARY KEY *)
Definition clash (a b : row) : bool :=
  (id a =? id b) || (username a =? username b)%string
  || (email a =? email b)%string.
Definition set_id (v : Z) (r : row) : row :=
  let 'Row _ b c d e f g h i j k l m n o p q s := r in
  Row v b c d e f g h i j k l m n o p q s.
Definition set_username (v : string) (r : row) : row :=
  let 'Row a _ c d e f g h i j k l m n o p q s := r in
  Row a v c d e f g h i j k l m n o p q s.
Definition set_password (v : string) (r : row) : row :=
  let 'Row a b _ d e f g h i j k l m n o p q s := r in
  Row a b v d e f g h i j k l m n o p q s.
Definition set_email (v : string) (r : row) : row :=
  let 'Row a b c _ e f g h i j k l m n o p q s := r in
  Row a b c v e f g h i j k l m n o p q s.
Definition set_name (v : string) (r : row) : row :=
  let 'Row a b c d _ f g h i j k l m n o p q s := r in
  Row a b c d v f g h i j k l m n o p q s.
Definition set_picture (v : option string) (r : row) : row :=
  let 'Row a b c d e _ g h i j k l m n o p q s := r in
  Row a b c d e v g h i j k l m n o p q s.
Definition set_birthYear (v : Z) (r : row) : row :=
  let 'Row a b c d e f _ h i j k l m n o p q s := r in
  Row a b c d e f v h i j k l m n o p q s.
Definition set_country (v : string) (r : row) : row :=
  let 'Row a b c d e f g _ i j k l m n o p q s := r in
  Row a b c d e f g v i j k l m n o p q s.
Definition set_number (v : option Z) (r : row) : row :=
  let 'Row a b c d e f g h _ j k l m n o p q s := r in
  Row a b c d e f g h v j k l m n o p q s.
Definition set_parent (v : option string) (r : row) : row :=
  let 'Row a b c d e f g h i _ k l m n o p q s := r in
  Row a b c d e f g h i v k l m n o p q s.
Definition set_parentEmail (v : option string) (r : row) : row :=
  let 'Row a b c d e f g h i j _ l m n o p q s := r in
  Row a b c d e f g h i j v l m n o p q s.
Definition set_parentPhone (v : option string) (r : row) : row :=
  let 'Row a b c d e f g h i j k _ m n o p q s := r in
  Row a b c d e f g h i j k v m n o p q s.
Definition set_coach (v : option string) (r : row) : row :=
  let 'Row a b c d e f g h i j k l _ n o p q s := r in
  Row a b c d e f g h i j k l v n o p q s.
Definition set_coachEmail (v : option string) (r : row) : row :=
  let 'Row a b c d e f g h i j k l m _ o p q s := r in
  Row a b c d e f g h i j k l m v o p q s.
Definition set_coachPhone (v : option string) (r : row) : row :=
  let 'Row a b c d e f g h i j k l m n _ p q s := r in
  Row a b c d e f g h i j k l m n v p q s.
Definition set_team (v : option string) (r : row) : row :=
  let 'Row a b c d e f g h i j k l m n o _ q s := r in
  Row a b c d e f g h i j k l m n o v q s.
Definition set_shirtNumber (v : option Z) (r : row) : row :=
  let 'Row a b c d e f g h i j k l m n o p _ s := r in
  Row a b c d e f g h i j k l m n o p v s.
Definition set_team_id (v : option Z) (r : row) : row :=
  let 'Row a b c d e f g h i j k l m n o p q _ := r in
  Row a b c d e f g h i j k l m n o p q v.
(** Compiling [UPDATE PLAYER SET key = ? WHERE id = ?]: the key must
    name a column of this table.  This happens before any row is looked
    at. *)
Definition prepare (a : assignment) : result unit :=
  match a with
  | assign_child_name _ => Err (OperationalError "no such column: child_name")
  | assign_child_email _ => Err (OperationalError "no such column: child_email")
  | assign_unknown => Err (OperationalError "no such column")
  | _ => Ok tt
  end.
(** Running the compiled statement on one row: NULL is refused by a NOT
    NULL column and by the INTEGER PRIMARY KEY.  (For a key that names no
    column the answer of [prepare] is repeated; the statement never gets
    this far.) *)
Definition assign (a : assignment) (r : row) : result row :=
  match a with
  | assign_id v =>
      match v with
      | Some v => Ok (set_id v r)
      | None => Err (IntegrityError Datatype_mismatch)
      end
  | assign_username v =>
      v <- not_null "PLAYER.username" v ;; Ok (set_username v r)
  | assign_password v =>
      v <- not_null "PLAYER.password" v ;; Ok (set_password v r)
  | assign_email v =>
      v <- not_null "PLAYER.email" v ;; Ok (set_email v r)
  | assign_name v =>
      v <- not_null "PLAYER.name" v ;; Ok (set_name v r)
  | assign_picture v => Ok (set_picture v r)
  | assign_birthYear v =>
      v <- not_null "PLAYER.birthYear" v ;; Ok (set_birthYear v r)
  | assign_country v =>
      v <- not_null "PLAYER.country" v ;; Ok (set_country v r)
  | assign_number v => Ok (set_number v r)
  | assign_parent v => Ok (set_parent v r)
  | assign_parentEmail v => Ok (set_parentEmail v r)
  | assign_parentPhone v => Ok (set_parentPhone v r)
  | assign_coach v => Ok (set_coach v r)
  | assign_coachEmail v => Ok (set_coachEmail v r)
  | assign_coachPhone v => Ok (set_coachPhone v r)
  | assign_team v => Ok (set_team v r)
  | assign_shirtNumber v => Ok (set_shirtNumber v r)
  | assign_team_id v => Ok (set_team_id v r)
  | assign_child_name _ => Err (OperationalError "no such column: child_name")
  | assign_child_email _ => Err (OperationalError "no such column: child_email")
  | assign_unknown => Err (OperationalError "no such column")
  end.
End Player.

Module Coach.
Record row : Type := Row {
  id : Z;
  username : string;
  password : string;
  email : string;
  name : string;
  picture : option string;
  birthYear : Z;
  country : string;
  team : option string;
  team_id : option Z
}.
Definition clash (a b : row) : bool :=
  (id a =? id b) || (username a =? username b)%string
  || (email a =? email b)%string.
Definition set_id (v : Z) (r : row) : row :=
  let 'Row _ b c d e f g h i j := r in
  Row v b c d e f g h i j.
Definition set_username (v : string) (r : row) : row :=
  let 'Row a _ c d e f g h i j := r in
  Row a v c d e f g h i j.
Definition set_password (v : string) (r : row) : row :=
  let 'Row a b _ d e f g h i j := r in
  Row a b v d e f g h i j.
Definition set_email (v : string) (r : row) : row :=
  let 'Row a b c _ e f g h i j := r in
  Row a b c v e f g h i j.
Definition set_name (v : string) (r : row) : row :=
  let 'Row a b c d _ f g h i j := r in
  Row a b c d v f g h i j.
Definition set_picture (v : option string) (r : row) : row :=
  let 'Row a b c d e _ g h i j := r in
  Row a b c d e v g h i j.
Definition set_birthYear (v : Z) (r : row) : row :=
  let 'Row a b c d e f _ h i j := r in
  Row a b c d e f v h i j.
Definition set_country (v : string) (r : row) : row :=
  let 'Row a b c d e f g _ i j := r in
  Row a b c d e f g v i j.
Definition set_team (v : option string) (r : row) : row :=
  let 'Row a b c d e f g h _ j := r in
  Row a b c d e f g h v j.
Definition set_team_id (v : option Z) (r : row) : row :=
  let 'Row a b c d e f g h i _ := r in
  Row a b c d e f g h i v.
(** Compiling [UPDATE COACH SET key = ? WHERE id = ?]: the key must
    name a column of this table.  This happens before any row is looked
    at. *)
Definition prepare (a : assignment) : result unit :=
  match a with
  | assign_number _ => Err (OperationalError "no such column: number")
  | assign_parent _ => Err (OperationalError "no such column: parent")
  | assign_parentEmail _ => Err (OperationalError "no such column: parentEmail")
  | assign_parentPhone _ => Err (OperationalError "no such column: parentPhone")
  | assign_coach _ => Err (OperationalError "no such column: coach")
  | assign_coachEmail _ => Err (OperationalError "no such column: coachEmail")
  | assign_coachPhone _ => Err (OperationalError "no such column: coachPhone")
  | assign_shirtNumber _ => Err (OperationalError "no such column: shirtNumber")
  | assign_child_name _ => Err (OperationalError "no such column: child_name")
  | assign_child_email _ => Err (OperationalError "no such column: child_email")
  | assign_unknown => Err (OperationalError "no such column")
  | _ => Ok tt
  end.
(** Running the compiled statement on one row: NULL is refused by a NOT
    NULL column and by the INTEGER PRIMARY KEY.  (For a key that names no
    column the answer of [prepare] is repeated; the statement never gets
    this far.) *)
Definition assign (a : assignment) (r : row) : result row :=
  match a with
  | assign_id v =>
      match v with
      | Some v => Ok (set_id v r)
      | None => Err (IntegrityError Datatype_mismatch)
      end
  | assign_username v =>
      v <- not_null "COACH.username" v ;; Ok (set_username v r)
  | assign_password v =>
      v <- not_null "COACH.password" v ;; Ok (set_password v r)
  | assign_email v =>
      v <- not_null "COACH.email" v ;; Ok (set_email v r)
  | assign_name v =>
      v <- not_null "COACH.name" v ;; Ok (set_name v r)
  | assign_picture v => Ok (set_picture v r)
  | assign_birthYear v =>
      v <- not_null "COACH.birthYear" v ;; Ok (set_birthYear v r)
  | assign_country v =>
      v <- not_null "COACH.country" v ;; Ok (set_country v r)
  | assign_number _ => Err (OperationalError "no such column: number")
  | assign_parent _ => Err (OperationalError "no such column: parent")
  | assign_parentEmail _ => Err (OperationalError "no such column: parentEmail")
  | assign_parentPhone _ => Err (OperationalError "no such column: parentPhone")
  | assign_coach _ => Err (OperationalError "no such column: coach")
  | assign_coachEmail _ => Err (OperationalError "no such column: coachEmail")
  | assign_coachPhone _ => Err (OperationalError "no such column: coachPhone")
  | assign_team v => Ok (set_team v r)
  | assign_shirtNumber _ => Err (OperationalError "no such column: shirtNumber")
  | assign_team_id v => Ok (set_team_id v r)
  | assign_child_name _ => Err (OperationalError "no such column: child_name")
  | assign_child_email _ => Err (OperationalError "no such column: child_email")
  | assign_unknown => Err (OperationalError "no such column")
  end.
End Coach.

Module Team.
Record row : Type := Row {
  id : Z;
  name : string;
  coach_id : Z
}.
Definition clash (a b : row) : bool :=
  (id a =? id b) || (name a =? name b)%string.
End Team.

Module Parent.
Record row : Type := Row {
  id : Z;
  username : string;
  password : string;
  email : string;
  name : string;
  picture : option string;
  birthYear : Z;
  country : string;
  child_name : option string;
  child_email : option string
}.
Definition clash (a b : row) : bool :=
  (id a =? id b) || (username a =? username b)%string
  || (email a =? email b)%string.
Definition set_id (v : Z) (r : row) : row :=
  let 'Row _ b c d e f g h i j := r in
  Row v b c d e f g h i j.
Definition set_username (v : string) (r : row) : row :=
  let 'Row a _ c d e f g h i j := r in
  Row a v c d e f g h i j.
Definition set_password (v : string) (r : row) : row :=
  let 'Row a b _ d e f g h i j := r in
  Row a b v d e f g h i j.
Definition set_email (v : string) (r : row) : row :=
  let 'Row a b c _ e f g h i j := r in
  Row a b c v e f g h i j.
Definition set_name (v : string) (r : row) : row :=
  let 'Row a b c d _ f g h i j := r in
  Row a b c d v f g h i j.
Definition set_picture (v : option string) (r : row) : row :=
  let 'Row a b c d e _ g h i j := r in
  Row a b c d e v g h i j.
Definition set_birthYear (v : Z) (r : row) : row :=
  let 'Row a b c d e f _ h i j := r in
  Row a b c d e f v h i j.
Definition set_country (v : string) (r : row) : row :=
  let 'Row a b c d e f g _ i j := r in
  Row a b c d e f g v i j.
Definition set_child_name (v : option string) (r : row) : row :=
  let 'Row a b c d e f g h _ j := r in
  Row a b c d e f g h v j.
Definition set_child_email (v : option string) (r : row) : row :=
  let 'Row a b c d e f g h i _ := r in
  Row a b c d e f g h i v.
(** Compiling [UPDATE PARENT SET key = ? WHERE id = ?]: the key must
    name a column of this table.  This happens before any row is looked
    at. *)
Definition prepare (a : assignment) : result unit :=
  match a with
  | assign_number _ => Err (OperationalError "no such column: number")
  | assign_parent _ => Err (OperationalError "no such column: parent")
  | assign_parentEmail _ => Err (OperationalError "no such column: parentEmail")
  | assign_parentPhone _ => Err (OperationalError "no such column: parentPhone")
  | assign_coach _ => Err (OperationalError "no such column: coach")
  | assign_coachEmail _ => Err (OperationalError "no such column: coachEmail")
  | assign_coachPhone _ => Err (OperationalError "no such column: coachPhone")
  | assign_team _ => Err (OperationalError "no such column: team")
  | assign_shirtNumber _ => Err (OperationalError "no such column: shirtNumber")
  | assign_team_id _ => Err (OperationalError "no such column: team_id")
  | assign_unknown => Err (OperationalError "no such column")
  | _ => Ok tt
  end.
(** Running the compiled statement on one row: NULL is refused by a NOT
    NULL column and by the INTEGER PRIMARY KEY.  (For a key that names no
    column the answer of [prepare] is repeated; the statement never gets
    this far.) *)
Definition assign (a : assignment) (r : row) : result row :=
  match a with
  | assign_id v =>
      match v with
      | Some v => Ok (set_id v r)
      | None => Err (IntegrityError Datatype_mismatch)
      end
  | assign_username v =>
      v <- not_null "PARENT.username" v ;; Ok (set_username v r)
  | assign_password v =>
      v <- not_null "PARENT.password" v ;; Ok (set_password v r)
  | assign_email v =>
      v <- not_null "PARENT.email" v ;; Ok (set_email v r)
  | assign_name v =>
      v <- not_null "PARENT.name" v ;; Ok (set_name v r)
  | assign_picture v => Ok (set_picture v r)
  | assign_birthYear v =>
      v <- not_null "PARENT.birthYear" v ;; Ok (set_birthYear v r)
  | assign_country v =>
      v <- not_null "PARENT.country" v ;; Ok (set_country v r)
  | assign_number _ => Err (OperationalError "no such column: number")
  | assign_parent _ => Err (OperationalError "no such column: parent")
  | assign_parentEmail _ => Err (OperationalError "no such column: parentEmail")
  | assign_parentPhone _ => Err (OperationalError "no such column: parentPhone")
  | assign_coach _ => Err (OperationalError "no such column: coach")
  | assign_coachEmail _ => Err (OperationalError "no such column: coachEmail")
  | assign_coachPhone _ => Err (OperationalError "no such column: coachPhone")
  | assign_team _ => Err (OperationalError "no such column: team")
  | assign_shirtNumber _ => Err (OperationalError "no such column: shirtNumber")
  | assign_team_id _ => Err (OperationalError "no such column: team_id")
  | assign_child_name v => Ok (set_child_name v r)
  | assign_child_email v => Ok (set_child_email v r)
  | assign_unknown => Err (OperationalError "no such column")
  end.
End Parent.

Module Category.
Record row : Type := Row {
  id : Z;
  name : string
}.
(* name TEXT UNIQUE *)
Definition clash (a b : row) : bool :=
  (name a =? name b)%string || (id a =? id b).
End Category.

Module ParentPlayer.
Record row : Type := Row {
  id : Z;
  parent_id : Z;
  player_id : Z
}.
(* the primary key is the table's only uniqueness constraint *)
Definition clash (a b : row) : bool := id a =? id b.
End ParentPlayer.

Module Exercise.
Record row : Type := Row {
  id : Z;
  category_id : Z;
  name : string
}.
(* UNIQUE(category_id, name) *)
Definition clash (a b : row) : bool :=
  ((category_id a =? category_id b) && (name a =? name b)%string)
  || (id a =? id b).
End Exercise.

Module PlayerExercise.
Record row : Type := Row {
  id : Z;
  player_id : Z;
  exercise_id : Z;
  result : option string;
  rating : option Z
}.
Definition clash (a b : row) : bool := id a =? id b.
(* CHECK (rating BETWEEN 1 AND 5); a NULL rating passes *)
Definition check (r : row) : bool :=
  match rating r with
  | None => true
  | Some v => (1 <=? v) && (v <=? 5)
  end.
End PlayerExercise.

#[export] Instance Player_Row : Row Player.row := {| rowid := Player.id |}.
#[export] Instance Coach_Row : Row Coach.row := {| rowid := Coach.id |}.
#[export] Instance Team_Row : Row Team.row := {| rowid := Team.id |}.
#[export] Instance Parent_Row : Row Parent.row := {| rowid := Parent.id |}.
#[export] Instance Category_Row : Row Category.row :=
  {| rowid := Category.id |}.
#[export] Instance ParentPlayer_Row : Row ParentPlayer.row :=
  {| rowid := ParentPlayer.id |}.
#[export] Instance Exercise_Row : Row Exercise.row :=
  {| rowid := Exercise.id |}.
#[export] Instance PlayerExercise_Row : Row PlayerExercise.row :=
  {| rowid := PlayerExercise.id |}.

(** The store: the eight tables of the schema. *)
Record DB : Type := Store {
  PLAYER : table Player.row;
  COACH : table Coach.row;
  TEAM : table Team.row;
  PARENT : table Parent.row;
  CATEGORY : table Category.row;
  PARENT_PLAYER : table ParentPlayer.row;
  EXERCISE : table Exercise.row;
  PLAYER_EXERCISE : table PlayerExercise.row
}.

Definition empty : DB :=
  Store empty_table empty_table empty_table empty_table
        empty_table empty_table empty_table empty_table.

Definition with_PLAYER (s : DB) (t : table Player.row) : DB :=
  Store t (COACH s) (TEAM s) (PARENT s) (CATEGORY s) (PARENT_PLAYER s)
        (EXERCISE s) (PLAYER_EXERCISE s).
Definition with_COACH (s : DB) (t : table Coach.row) : DB :=
  Store (PLAYER s) t (TEAM s) (PARENT s) (CATEGORY s) (PARENT_PLAYER s)
        (EXERCISE s) (PLAYER_EXERCISE s).
Definition with_TEAM (s : DB) (t : table Team.row) : DB :=
  Store (PLAYER s) (COACH s) t (PARENT s) (CATEGORY s) (PARENT_PLAYER s)
        (EXERCISE s) (PLAYER_EXERCISE s).
Definition with_PARENT (s : DB) (t : table Parent.row) : DB :=
  Store (PLAYER s) (COACH s) (TEAM s) t (CATEGORY s) (PARENT_PLAYER s)
        (EXERCISE s) (PLAYER_EXERCISE s).
Definition with_CATEGORY (s : DB) (t : table Category.row) : DB :=
  Store (PLAYER s) (COACH s) (TEAM s) (PARENT s) t (PARENT_PLAYER s)
        (EXERCISE s) (PLAYER_EXERCISE s).
Definition with_PARENT_PLAYER (s : DB) (t : table ParentPlayer.row) : DB :=
  Store (PLAYER s) (COACH s) (TEAM s) (PARENT s) (CATEGORY s) t
        (EXERCISE s) (PLAYER_EXERCISE s).
Definition with_EXERCISE (s : DB) (t : table Exercise.row) : DB :=
  Store (PLAYER s) (COACH s) (TEAM s) (PARENT s) (CATEGORY s) (PARENT_PLAYER s)
        t (PLAYER_EXERCISE s).
Definition with_PLAYER_EXERCISE (s : DB) (t : table PlayerExercise.row) : DB :=
  Store (PLAYER s) (COACH s) (TEAM s) (PARENT s) (CATEGORY s) (PARENT_PLAYER s)
        (EXERCISE s) t.

(** ** Schema bootstrap *)

Definition categories : list string :=
  ["PAC"; "SHO"; "PAS"; "DRI"; "DEF"; "PHY"].

Definition exercises : list (string * list string) :=
  [("PAC", ["Sprint Speed"; "Acceleration"]);
   ("SHO", ["Shot Speed (radar)"; "Long Shots"; "Free Kick Accuracy"]);
   ("PAS", ["Short Passing"; "Long Passing"; "Crossing"]);
   ("DRI", ["Zidane Fake Pass"; "Stepovers"; "Elastico"]);
   ("DEF", ["Tackling"; "Marking"; "Interceptions"]);
   ("PHY", ["Strength"; "Stamina"; "Jumping"])].

(** [executemany] of the category insert, one statement per name. *)
Definition insert_categories (t : table Category.row) : table Category.row :=
  fold_left
    (fun t category =>
       insert_or_ignore Category.clash (fun i => Category.Row i category) t)
    categories t.

Definition insert_exercises (category_id : Z) (exercise_list : list string)
    (t : table Exercise.row) : table Exercise.row :=
  fold_left
    (fun t exercise =>
       insert_or_ignore Exercise.clash
         (fun i => Exercise.Row i category_id exercise) t)
    exercise_list t.

(** The loop over [exercises.items()]: [fetchone()[0]] raises a TypeError
    when the category row is missing. *)
Fixpoint seed_exercises (items : list (string * list string)) (s : DB)
  : result DB :=
  match items with
  | [] => Ok s
  | (category, exercise_list) :: items' =>
      match find (fun c => (Category.name c =? category)%string)
                 (rows (CATEGORY s)) with
      | None => Err TypeError
      | Some c =>
          seed_exercises items'
            (with_EXERCISE s
               (insert_exercises (Category.id c) exercise_list (EXERCISE s)))
      end
  end.

(** The CREATE TABLE IF NOT EXISTS statements leave existing tables alone
    and a missing table is the empty one. *)
Definition _initialize_database (s : DB) : result DB :=
  seed_exercises exercises (with_CATEGORY s (insert_categories (CATEGORY s))).

(** [Database(...)] constructed [n] times in a row on the same file. *)
Fixpoint initialize_times (n : nat) (s : DB) : result DB :=
  match n with
  | O => Ok s
  | S n' => s' <- _initialize_database s ;; initialize_times n' s'
  end.

(** ** User registration *)

(** [executemany] of the PLAYER_EXERCISE insert: one row per fetched
    exercise id, [result] and [rating] at their NULL default. *)
Definition insert_player_exercises (user_id : Z) (exercises : list Exercise.row)
    (t : table PlayerExercise.row) : result (table PlayerExercise.row) :=
  fold_left
    (fun acc exercise_id =>
       t <- acc ;;
       '(t', _) <- insert PlayerExercise.clash "PLAYER_EXERCISE"
                     (fun i => PlayerExercise.Row i user_id
                                 (Exercise.id exercise_id) None None) t ;;
       Ok t')
    exercises (Ok t).

Definition add_user (s : DB) (username password email name : option string)
    (birthYear : option Z) (country : option string) (role : string)
    (number team_id : option Z) : result (DB * Z) :=
  let number := match number with Some n => n | None => 0 end in
  if (role =? "player")%string then
    _ <- bind_parameters [birthYear; Some number; team_id] ;;
    username <- not_null "PLAYER.username" username ;;
    password <- not_null "PLAYER.password" password ;;
    email <- not_null "PLAYER.email" email ;;
    name <- not_null "PLAYER.name" name ;;
    birthYear <- not_null "PLAYER.birthYear" birthYear ;;
    country <- not_null "PLAYER.country" country ;;
    '(players, user_id) <-
      insert Player.clash "PLAYER"
        (fun i => Player.Row i username password email name None birthYear
                    country (Some number) None None None None None None None
                    None team_id)
        (PLAYER s) ;;
    let exercises := rows (EXERCISE s) in
    player_exercises <-
      insert_player_exercises user_id exercises (PLAYER_EXERCISE s) ;;
    Ok (with_PLAYER_EXERCISE (with_PLAYER s players) player_exercises, user_id)
  else if (role =? "coach")%string then
    _ <- bind_parameters [birthYear; team_id] ;;
    username <- not_null "COACH.username" username ;;
    password <- not_null "COACH.password" password ;;
    email <- not_null "COACH.email" email ;;
    name <- not_null "COACH.name" name ;;
    birthYear <- not_null "COACH.birthYear" birthYear ;;
    country <- not_null "COACH.country" country ;;
    '(coaches, user_id) <-
      insert Coach.clash "COACH"
        (fun i => Coach.Row i username password email name None birthYear
                    country None team_id)
        (COACH s) ;;
    Ok (with_COACH s coaches, user_id)
  else if (role =? "parent")%string then
    _ <- bind_parameters [birthYear] ;;
    username <- not_null "PARENT.username" username ;;
    password <- not_null "PARENT.password" password ;;
    email <- not_null "PARENT.email" email ;;
    name <- not_null "PARENT.name" name ;;
    birthYear <- not_null "PARENT.birthYear" birthYear ;;
    country <- not_null "PARENT.country" country ;;
    '(parents, user_id) <-
      insert Parent.clash "PARENT"
        (fun i => Parent.Row i username password email name None birthYear
                    country None None)
        (PARENT s) ;;
    Ok (with_PARENT s parents, user_id)
  else Err (ValueError Invalid_role).

(** ** User lookup *)

(** A fetched person row, from whichever table it came. *)
Inductive user : Type :=
| player_row (r : Player.row)
| coach_row (r : Coach.row)
| parent_row (r : Parent.row).

Definition get_user (s : DB) (id : Z) (role : string) : result (option user) :=
  if (role =? "player")%string then
    Ok (option_map player_row
          (find (fun r => Player.id r =? id) (rows (PLAYER s))))
  else if (role =? "coach")%string then
    Ok (option_map coach_row
          (find (fun r => Coach.id r =? id) (rows (COACH s))))
  else if (role =? "parent")%string then
    Ok (option_map parent_row
          (find (fun r => Parent.id r =? id) (rows (PARENT s))))
  else Err (ValueError Invalid_role).

(** Returns the pair [(user, role)], or [(None, None)]. *)
Definition get_user_by_email (s : DB) (email : string)
  : option user * option string :=
  (* Check PLAYER table *)
  match find (fun r => (Player.email r =? email)%string) (rows (PLAYER s)) with
  | Some user => (Some (player_row user), Some "player")
  | None =>
  (* Check COACH table *)
  match find (fun r => (Coach.email r =? email)%string) (rows (COACH s)) with
  | Some user => (Some (coach_row user), Some "coach")
  | None =>
  (* Check PARENT table *)
  match find (fun r => (Parent.email r =? email)%string) (rows (PARENT s)) with
  | Some user => (Some (parent_row user), Some "parent")
  | None => (None, None)
  end end end.

(** ** User update and delete *)

Fixpoint mapM {A B} (f : A -> result B) (l : list A) : result (list B) :=
  match l with
  | [] => Ok []
  | a :: l' => b <- f a ;; bs <- mapM f l' ;; Ok (b :: bs)
  end.

(** Running [UPDATE t SET ... WHERE id = ?]: every row with that key is
    rewritten by [f] and must not clash with a row the statement leaves
    alone.  (The person tables are searched by id, username or email only,
    each unique, so the place of a row in the list is not observable.) *)
Definition rewrite_by_id {R} `{Row R} (clash : R -> R -> bool)
    (table_name : string) (id : Z) (f : R -> result R) (l : list R)
  : result (list R) :=
  let others := filter (fun r => negb (rowid r =? id)) l in
  mapM (fun r =>
          if rowid r =? id then
            r' <- f r ;;
            if violates clash r' others
            then Err (IntegrityError (UNIQUE table_name))
            else Ok r'
          else Ok r) l.

(** [cursor.execute("UPDATE t SET key = ? WHERE id = ?", (value, id))]:
    the statement is compiled, which fails on a key that names no column
    whether or not a row has the id; the value is bound; then the
    statement runs. *)
Definition update_by_id {R} `{Row R} (clash : R -> R -> bool)
    (table_name : string) (id : Z) (prepared : result unit)
    (value : option Z) (f : R -> result R) (l : list R)
  : result (list R) :=
  _ <- prepared ;;
  _ <- bind_parameters [value] ;;
  rewrite_by_id clash table_name id f l.

(** The loop over [kwargs.items()], one UPDATE statement per pair. *)
Definition update_each {R} `{Row R} (clash : R -> R -> bool)
    (table_name : string) (prepare : assignment -> result unit)
    (assign : assignment -> R -> result R) (id : Z)
    (kwargs : list assignment) (t : table R) : result (table R) :=
  fold_left
    (fun acc a =>
       t <- acc ;;
       l <- update_by_id clash table_name id (prepare a) (offered a)
              (assign a) (rows t) ;;
       Ok {| rows := l; seq := seq t |})
    kwargs (Ok t).

Definition update_user (s : DB) (id : Z) (role : string)
    (kwargs : list assignment) : result DB :=
  if (role =? "player")%string then
    t <- update_each Player.clash "PLAYER" Player.prepare Player.assign id
           kwargs (PLAYER s) ;;
    Ok (with_PLAYER s t)
  else if (role =? "coach")%string then
    t <- update_each Coach.clash "COACH" Coach.prepare Coach.assign id
           kwargs (COACH s) ;;
    Ok (with_COACH s t)
  else if (role =? "parent")%string then
    t <- update_each Parent.clash "PARENT" Parent.prepare Parent.assign id
           kwargs (PARENT s) ;;
    Ok (with_PARENT s t)
  else Err (ValueError Invalid_role).

(** [DELETE FROM PLAYER WHERE id = ?]; nothing cascades with foreign keys
    off. *)
Definition delete_user (s : DB) (id : Z) : DB :=
  with_PLAYER s
    {| rows := filter (fun r => negb (Player.id r =? id)) (rows (PLAYER s));
       seq := seq (PLAYER s) |}.

(** ** Exercise progress query *)

Module Progress.
(** One element of a category's list: the dict with keys "exercise",
    "result" and "rating". *)
Record entry : Type := Entry {
  exercise : string;
  result : option string;
  rating : option Z
}.
End Progress.

(** The rows of the SELECT: EXERCISE scanned in order, joined to its
    CATEGORY on [c.id = e.category_id], LEFT JOINed to the player's
    PLAYER_EXERCISE rows (a row of NULLs when there is none). *)
Definition select_progress (s : DB) (player_id : Z)
  : list (string * string * option string * option Z) :=
  flat_map
    (fun e =>
       flat_map
         (fun c =>
            match filter
                    (fun pe =>
                       (Exercise.id e =? PlayerExercise.exercise_id pe)
                       && (PlayerExercise.player_id pe =? player_id))
                    (rows (PLAYER_EXERCISE s)) with
            | [] => [(Category.name c, Exercise.name e, None, None)]
            | matches =>
                map (fun pe => (Category.name c, Exercise.name e,
                                PlayerExercise.result pe,
                                PlayerExercise.rating pe))
                    matches
            end)
         (filter (fun c => Category.id c =? Exercise.category_id e)
                 (rows (CATEGORY s))))
    (rows (EXERCISE s)).

(** [x if x else None] on a TEXT and on an INTEGER column. *)
Definition text_or_None (x : option string) : option string :=
  match x with
  | Some EmptyString => None
  | _ => x
  end.

Definition int_or_None (x : option Z) : option Z :=
  match x with
  | Some 0 => None
  | _ => x
  end.

(** [category_data[category].append(...)], the key created on first use; a
    dict keeps its keys in insertion order. *)
Fixpoint append_entry (category : string) (e : Progress.entry)
    (category_data : list (string * list Progress.entry))
  : list (string * list Progress.entry) :=
  match category_data with
  | [] => [(category, [e])]
  | (k, l) :: rest =>
      if (k =? category)%string then (k, l ++ [e]) :: rest
      else (k, l) :: append_entry category e rest
  end.

Definition group_by_category
    (exercises : list (string * string * option string * option Z))
  : list (string * list Progress.entry) :=
  fold_left
    (fun category_data exercise =>
       let '(category, exercise_name, r, g) := exercise in
       let result := text_or_None r in
       let rating := int_or_None g in
       append_entry category (Progress.Entry exercise_name result rating)
                    category_data)
    exercises [].

Definition get_categories_and_exercises_with_ratings (s : DB) (player_id : Z)
  : list (string * list Progress.entry) :=
  group_by_category (select_progress s player_id).

(** [category_data.get(category)] *)
Definition lookup (category : string)
    (category_data : list (string * list Progress.entry))
  : option (list Progress.entry) :=
  option_map snd
    (find (fun kv => (fst kv =? category)%string) category_data).

(** ** Team management *)

Definition create_team (s : DB) (team_name : string) (coach_id : Z)
  : result DB :=
  match find (fun t => (Team.name t =? team_name)%string) (rows (TEAM s)) with
  | Some _ => Err (ValueError Team_name_exists)
  | None =>
      (* Check if the coach is already associated with a team *)
      match find (fun t => Team.coach_id t =? coach_id) (rows (TEAM s)) with
      | Some _ => Err (ValueError Coach_has_team)
      | None =>
          '(teams, _) <- insert Team.clash "TEAM"
                           (fun i => Team.Row i team_name coach_id) (TEAM s) ;;
          Ok (with_TEAM s teams)
      end
  end.

Definition get_team_by_coach (s : DB) (coach_id : Z) : option string :=
  option_map Team.name
    (find (fun t => Team.coach_id t =? coach_id) (rows (TEAM s))).

Definition join_team (s : DB) (team_name : string) (player_id : Z)
  : result DB :=
  match find (fun t => (Team.name t =? team_name)%string) (rows (TEAM s)) with
  | None => Err (ValueError Team_not_found)
  | Some team =>
      let team_id := Team.id team in
      let coach_id := Team.coach_id team in
      match find (fun c => Coach.id c =? coach_id) (rows (COACH s)) with
      | None => Err (ValueError Coach_not_found)
      | Some coach =>
          let coach_name := Coach.name coach in
          let coach_email := Coach.email coach in
          let '(players, _) :=
            update_where
              (fun p => Player.id p =? player_id)
              (fun p => Player.set_coachEmail (Some coach_email)
                          (Player.set_coach (Some coach_name)
                             (Player.set_team_id (Some team_id) p)))
              (rows (PLAYER s)) in
          Ok (with_PLAYER s {| rows := players; seq := seq (PLAYER s) |})
      end
  end.

(** ** Exercise result update *)

Module Data.
(** The [data] dict of [update_exercise]; [data.get(key)] is [None] for a
    missing key. *)
Record t : Type := Build {
  exercise : option string;
  playerId : option Z;
  result : option string;
  rating : option Z
}.
End Data.

(** The dict the method returns. *)
Inductive reply : Type :=
| message (text : string)   (* {"message": text} *)
| error_ (text : string).   (* {"error": text} *)

(** An element of [fields_to_update] with its entry in [values]. *)
Inductive field : Type :=
| result_field (v : string)   (* "result = ?" *)
| rating_field (v : Z).       (* "rating = ?" *)

Definition set_field (f : field) (r : PlayerExercise.row)
  : PlayerExercise.row :=
  match f with
  | result_field v =>
      PlayerExercise.Row (PlayerExercise.id r) (PlayerExercise.player_id r)
        (PlayerExercise.exercise_id r) (Some v) (PlayerExercise.rating r)
  | rating_field v =>
      PlayerExercise.Row (PlayerExercise.id r) (PlayerExercise.player_id r)
        (PlayerExercise.exercise_id r) (PlayerExercise.result r) (Some v)
  end.

(** The integer among [values] a field contributes. *)
Definition bound_integer (f : field) : option Z :=
  match f with
  | rating_field v => Some v
  | result_field _ => None
  end.

Definition assigns_rating (f : field) : bool :=
  match f with
  | rating_field _ => true
  | result_field _ => false
  end.

(** The rows an UPDATE writes must pass the table's CHECK; the engine
    evaluates it only when the statement assigns the checked column. *)
Definition passes_check (fields : list field)
    (written : list PlayerExercise.row) : bool :=
  if existsb assigns_rating fields
  then forallb PlayerExercise.check written
  else true.

(** [not exercise_name] *)
Definition falsy (x : option string) : bool :=
  match x with
  | None => true
  | Some EmptyString => true
  | Some _ => false
  end.

(** [result is None or result == "N/A"] *)
Definition no_result (result : option string) : bool :=
  match result with
  | None => true
  | Some r => (r =? "N/A")%string
  end.

(** [rating is None or rating == 0] *)
Definition no_rating (rating : option Z) : bool :=
  match rating with
  | None => true
  | Some g => g =? 0
  end.

(** The list built by the two [if ...: fields_to_update.append(...)]. *)
Definition fields_to_update (result : option string) (rating : option Z)
  : list field :=
  match result with
  | Some r => if negb (r =? "N/A")%string then [result_field r] else []
  | None => []
  end ++
  match rating with
  | Some g => if negb (g =? 0) then [rating_field g] else []
  | None => []
  end.

(** [SET field = ?, ...] on one row. *)
Definition set_fields (fields : list field) (r : PlayerExercise.row)
  : PlayerExercise.row :=
  fold_left (fun r f => set_field f r) fields r.

(** [WHERE player_id = ? AND exercise_id = ?]; a NULL player id equals
    nothing. *)
Definition targets (playerId : option Z) (exercise_id : Z)
    (r : PlayerExercise.row) : bool :=
  match playerId with
  | None => false
  | Some p => (PlayerExercise.player_id r =? p)
              && (PlayerExercise.exercise_id r =? exercise_id)
  end.

Definition update_exercise (s : DB) (data : Data.t) : result (DB * reply) :=
  let exercise_name := Data.exercise data in
  let playerId := Data.playerId data in
  let result := Data.result data in
  let rating := Data.rating data in
  if falsy exercise_name then Err (ValueError Exercise_name_required)
  else if no_result result && no_rating rating
  then Err (ValueError Result_or_rating_required)
  else
    let exercise_name :=
      match exercise_name with Some n => n | None => EmptyString end in
    match find (fun e => (Exercise.name e =? exercise_name)%string)
               (rows (EXERCISE s)) with
    | None => Err (ValueError (Exercise_not_found exercise_name))
    | Some exercise_id_row =>
        let exercise_id := Exercise.id exercise_id_row in
        let fields := fields_to_update result rating in
        let hit := targets playerId exercise_id in
        (* [values] is bound; [exercise_id] was read from the store *)
        _ <- bind_parameters (map bound_integer fields ++ [playerId]) ;;
        if passes_check fields
             (map (set_fields fields)
                  (filter hit (rows (PLAYER_EXERCISE s))))
        then
          let '(l, rowcount) :=
            update_where hit (set_fields fields) (rows (PLAYER_EXERCISE s)) in
          Ok (with_PLAYER_EXERCISE s
                {| rows := l; seq := seq (PLAYER_EXERCISE s) |},
              if 0 <? rowcount
              then message "Exercise updated successfully."
              else error_ "No matching exercise found for this player.")
        else Err (IntegrityError (CHECK "rating BETWEEN 1 AND 5"))
    end.

(** ** Parent-child linking *)

Definition link_child (s : DB) (child_username : string) (parent_id : Z)
  : result DB :=
  match find (fun p => (Player.username p =? child_username)%string)
             (rows (PLAYER s)) with
  | None => Err (ValueError Child_not_found)
  | Some child =>
      let child_id := Player.id child in
      let child_name := Player.name child in
      let child_email := Player.email child in
      match find (fun p => Parent.id p =? parent_id) (rows (PARENT s)) with
      | None => Err (ValueError Parent_not_found)
      | Some parent =>
          let parent_name := Parent.name parent in
          let parent_email := Parent.email parent in
          let '(parents, _) :=
            update_where
              (fun p => Parent.id p =? parent_id)
              (fun p => Parent.set_child_email (Some child_email)
                          (Parent.set_child_name (Some child_name) p))
              (rows (PARENT s)) in
          let '(players, _) :=
            update_where
              (fun p => Player.id p =? child_id)
              (fun p => Player.set_parentEmail (Some parent_email)
                          (Player.set_parent (Some parent_name) p))
              (rows (PLAYER s)) in
          (* Link the parent and child in the PARENT_PLAYER table *)
          let links :=
            insert_or_ignore ParentPlayer.clash
              (fun i => ParentPlayer.Row i parent_id child_id)
              (PARENT_PLAYER s) in
          Ok (with_PARENT_PLAYER
                (with_PLAYER
                   (with_PARENT s {| rows := parents; seq := seq (PARENT s) |})
                   {| rows := players; seq := seq (PLAYER s) |})
                links)
      end
  end.

(** ** Histories *)

(** A call of a method that writes to the store.  [initialize] is the
    constructor, run by every process start. *)
Inductive call : Type :=
| initialize
| addUser (username password email name : option string)
          (birthYear : option Z) (country : option string) (role : string)
          (number team_id : option Z)
| updateUser (id : Z) (role : string) (kwargs : list assignment)
| deleteUser (id : Z)
| createTeam (team_name : string) (coach_id : Z)
| updateExercise (data : Data.t)
| joinTeam (team_name : string) (player_id : Z)
| linkChild (child_username : string) (parent_id : Z).

Definition run (s : DB) (c : call) : result DB :=
  match c with
  | initialize => _initialize_database s
  | addUser username password email name birthYear country role number
            team_id =>
      '(s', _) <- add_user s username password email name birthYear country
                    role number team_id ;;
      Ok s'
  | updateUser id role kwargs => update_user s id role kwargs
  | deleteUser id => Ok (delete_user s id)
  | createTeam team_name coach_id => create_team s team_name coach_id
  | updateExercise data => '(s', _) <- update_exercise s data ;; Ok s'
  | joinTeam team_name player_id => join_team s team_name player_id
  | linkChild child_username parent_id => link_child s child_username parent_id
  end.

(** The stores a history of calls can produce from the empty file.  A call
    that raises is rolled back, so only the calls that return change the
    store; the read-only methods never do. *)
Inductive reachable : DB -> Prop :=
| reachable_boot : forall s,
    _initialize_database empty = Ok s -> reachable s
| reachable_call : forall s c s',
    reachable s -> run s c = Ok s' -> reachable s'.

(** A history replayed from a given store, for examples. *)
Fixpoint replay (cs : list call) (s : DB) : result DB :=
  match cs with
  | [] => Ok s
  | c :: cs' => s' <- run s c ;; replay cs' s'
  end.

(** What the file holds after a call: the new store, or the old one when
    the call raised and the transaction was rolled back. *)
Definition store_after {A} (s : DB) (r : result A) (new : A -> DB) : DB :=
  match r with
  | Ok a => new a
  | Err _ => s
  end.

(** The same rows in each of the eight tables. *)
Definition same_rows (a b : DB) : Prop :=
  rows (PLAYER a) = rows (PLAYER b) /\
  rows (COACH a) = rows (COACH b) /\
  rows (TEAM a) = rows (TEAM b) /\
  rows (PARENT a) = rows (PARENT b) /\
  rows (CATEGORY a) = rows (CATEGORY b) /\
  rows (PARENT_PLAYER a) = rows (PARENT_PLAYER b) /\
  rows (EXERCISE a) = rows (EXERCISE b) /\
  rows (PLAYER_EXERCISE a) = rows (PLAYER_EXERCISE b).

(** * Derived notions and example stores *)

(** The store after the first start on a fresh file. *)
Definition booted : DB :=
  Eval vm_compute in
    match _initialize_database empty with
    | Ok s => s
    | Err _ => empty
    end.

(** Every seed category has a row, and every seed exercise has a row under
    the category row that [fetchone] returns. *)
Definition seeded (items : list (string * list string))
    (cs : list Category.row) (es : list Exercise.row) : bool :=
  forallb
    (fun item =>
       match find (fun c => (Category.name c =? fst item)%string) cs with
       | None => false
       | Some c =>
           forallb
             (fun exercise =>
                existsb
                  (fun x => (Exercise.category_id x =? Category.id c)
                            && (Exercise.name x =? exercise)%string)
                  es)
             (snd item)
       end)
    items.

(** [e] is listed under [category] in the returned dict. *)
Definition listed (category : string) (e : Progress.entry)
    (category_data : list (string * list Progress.entry)) : Prop :=
  exists l, lookup category category_data = Some l /\ In e l.

(** The body of the [for exercise in exercises] loop. *)
Definition add_fetched (d : list (string * list Progress.entry))
    (exercise : string * string * option string * option Z)
  : list (string * list Progress.entry) :=
  let '(category, exercise_name, r, g) := exercise in
  append_entry category
    (Progress.Entry exercise_name (text_or_None r) (int_or_None g)) d.

Definition no_empty_result (d : list (string * list Progress.entry)) : Prop :=
  forall k l e, In (k, l) d -> In e l -> Progress.result e <> Some EmptyString.

(** The rows of PLAYER_EXERCISE the statement leaves, and its rowcount. *)
Definition updated_rows (s : DB) (data : Data.t) (exercise_id : Z)
  : list PlayerExercise.row :=
  map (fun r =>
         if targets (Data.playerId data) exercise_id r
         then set_fields
                (fields_to_update (Data.result data) (Data.rating data)) r
         else r)
      (rows (PLAYER_EXERCISE s)).

Definition rowcount (s : DB) (playerId : option Z) (exercise_id : Z) : Z :=
  Z.of_nat
    (List.length (filter (targets playerId exercise_id)
                         (rows (PLAYER_EXERCISE s)))).

(** The integers the UPDATE of [update_exercise] binds both fit: the
    rating, when it is written, and the player id. *)
Definition request_binds (data : Data.t) : bool :=
  bindable (if no_rating (Data.rating data) then None else Data.rating data)
  && bindable (Data.playerId data).

Definition pair (r : PlayerExercise.row) : Z * Z :=
  (PlayerExercise.player_id r, PlayerExercise.exercise_id r).

(** The columns of a PLAYER_EXERCISE row apart from its key. *)
Definition columns (r : PlayerExercise.row)
  : Z * Z * option string * option Z :=
  (PlayerExercise.player_id r, PlayerExercise.exercise_id r,
   PlayerExercise.result r, PlayerExercise.rating r).

Record consistent (s : DB) : Prop := {
  ratings_checked :
    Forall (fun r => PlayerExercise.check r = true)
           (rows (PLAYER_EXERCISE s));
  players_drawn :
    Forall (fun r => PlayerExercise.player_id r <= seq (PLAYER s))
           (rows (PLAYER_EXERCISE s));
  pairs_unique : NoDup (map pair (rows (PLAYER_EXERCISE s)));
  exercise_ids_unique : NoDup (map Exercise.id (rows (EXERCISE s)))
}.

(** How the statement relates a row before to the row after: keys kept;
    result replaced only on a targeted row and only by a supplied result;
    rating likewise. *)
Definition partially_updated (data : Data.t) (exercise_id : Z)
    (r r' : PlayerExercise.row) : Prop :=
  PlayerExercise.id r' = PlayerExercise.id r /\
  PlayerExercise.player_id r' = PlayerExercise.player_id r /\
  PlayerExercise.exercise_id r' = PlayerExercise.exercise_id r /\
  PlayerExercise.result r'
    = (if targets (Data.playerId data) exercise_id r
          && negb (no_result (Data.result data))
       then Data.result data else PlayerExercise.result r) /\
  PlayerExercise.rating r'
    = (if targets (Data.playerId data) exercise_id r
          && negb (no_rating (Data.rating data))
       then Data.rating data else PlayerExercise.rating r).

(** The request [{"exercise": "Stepovers", "playerId": 1, "rating": g}]. *)
Definition rate_stepovers (g : Z) : Data.t :=
  Data.Build (Some "Stepovers") (Some 1) None (Some g).

Definition stepovers : Exercise.row := Exercise.Row 10 4 "Stepovers".

(** A fresh installation with one registered player, id 1. *)
Definition one_player : DB :=
  Eval vm_compute in
    match replay
            [initialize;
             addUser (Some "ana") (Some "pw") (Some "ana@x.com") (Some "Ana")
                     (Some 2012) (Some "ES") "player" None None]
            empty with
    | Ok s => s
    | Err _ => empty
    end.

(** Two registered users: parent 1 and player 1 with username "kid". *)
Definition family : DB :=
  Eval vm_compute in
    match replay
            [initialize;
             addUser (Some "pat") (Some "pw") (Some "pat@x.com") (Some "Pat")
                     (Some 1980) (Some "ES") "parent" None None;
             addUser (Some "kid") (Some "pw") (Some "kid@x.com") (Some "Kid")
                     (Some 2012) (Some "ES") "player" None None]
            empty with
    | Ok s => s
    | Err _ => empty
    end.

(** A coach (id 1) who owns the team "Lions". *)
Definition club : DB :=
  Eval vm_compute in
    match replay
            [initialize;
             addUser (Some "cleo") (Some "pw") (Some "cleo@x.com")
                     (Some "Cleo") (Some 1985) (Some "ES") "coach" None None;
             createTeam "Lions" 1]
            empty with
    | Ok s => s
    | Err _ => empty
    end.

(** A player and a coach registered under the same email. *)
Definition shared_email : DB :=
  Eval vm_compute in
    match replay
            [initialize;
             addUser (Some "sam") (Some "pw") (Some "sam@x.com") (Some "Sam")
                     (Some 2011) (Some "ES") "player" None None;
             addUser (Some "sam") (Some "pw") (Some "sam@x.com") (Some "Sam")
                     (Some 1979) (Some "ES") "coach" None None]
            empty with
    | Ok s => s
    | Err _ => empty
    end.

(** Player 1 after recording the empty string as the Stepovers result. *)
Definition blank_result : DB :=
  Eval vm_compute in
    match update_exercise one_player
            (Data.Build (Some "Stepovers") (Some 1) (Some EmptyString) None)
    with
    | Ok (s, _) => s
    | Err _ => empty
    end.

(** ** Notions for the round trips and invariants *)

(** [l'] keeps the rows of [l], in place, and may add rows after them. *)
Definition extends {R} (l l' : list R) : Prop := exists more, l' = l ++ more.

(** A seed category with its exercises is stored: a CATEGORY row of that
    name, and under its id an EXERCISE row for each of the names. *)
Definition stored (s : DB) (category : string) (names : list string) : Prop :=
  exists c,
    In c (rows (CATEGORY s)) /\ Category.name c = category /\
    forall n, In n names ->
      exists e,
        In e (rows (EXERCISE s)) /\ Exercise.name e = n /\
        Exercise.category_id e = Category.id c.

(** The rows the three INSERT statements of [add_user] write. *)
Definition new_player (i : Z) (username password email name : string)
    (birthYear : Z) (country : string) (number team_id : option Z)
  : Player.row :=
  Player.Row i username password email name None birthYear country
    (Some (match number with Some n => n | None => 0 end))
    None None None None None None None None team_id.

Definition new_coach (i : Z) (username password email name : string)
    (birthYear : Z) (country : string) (team_id : option Z) : Coach.row :=
  Coach.Row i username password email name None birthYear country None
    team_id.

Definition new_parent (i : Z) (username password email name : string)
    (birthYear : Z) (country : string) : Parent.row :=
  Parent.Row i username password email name None birthYear country None None.

Definition valid_role (role : string) : Prop :=
  role = "player" \/ role = "coach" \/ role = "parent".

(** The integers the INSERT of that role binds all fit: the birth year
    for every role, the team id for a player or a coach, the number for a
    player. *)
Definition registration_binds (role : string) (birthYear number team_id
    : option Z) : bool :=
  bindable birthYear
  && (if (role =? "player")%string
      then bindable number && bindable team_id
      else if (role =? "coach")%string then bindable team_id
      else true).

(** AUTOINCREMENT can still hand out [n] keys of the table. *)
Definition key_room {R} `{Row R} (n : Z) (t : table R) : Prop :=
  Z.max (seq t) (max_rowid (rows t)) + n <= 9223372036854775807.

(** The tables the registration of that role inserts into have keys
    left. *)
Definition registration_room (s : DB) (role : string) : Prop :=
  (role = "player" ->
   key_room 1 (PLAYER s) /\
   key_room (Z.of_nat (List.length (rows (EXERCISE s))))
            (PLAYER_EXERCISE s)) /\
  (role = "coach" -> key_room 1 (COACH s)) /\
  (role = "parent" -> key_room 1 (PARENT s)).

(** Some row of the role's own table already holds the username or the
    email. *)
Definition taken (s : DB) (role username email : string) : Prop :=
  (role = "player" /\
   exists r, In r (rows (PLAYER s)) /\
             (Player.username r = username \/ Player.email r = email)) \/
  (role = "coach" /\
   exists r, In r (rows (COACH s)) /\
             (Coach.username r = username \/ Coach.email r = email)) \/
  (role = "parent" /\
   exists r, In r (rows (PARENT s)) /\
             (Parent.username r = username \/ Parent.email r = email)).

(** The row [get_user] reads back after a registration. *)
Definition registered (user_id : Z) (username password email name : string)
    (birthYear : Z) (country role : string) (number team_id : option Z)
  : user :=
  if (role =? "player")%string then
    player_row (new_player user_id username password email name birthYear
                           country number team_id)
  else if (role =? "coach")%string then
    coach_row (new_coach user_id username password email name birthYear
                         country team_id)
  else
    parent_row (new_parent user_id username password email name birthYear
                           country).

(** The three columns [join_team] writes. *)
Definition joined (team_id : Z) (coach_name coach_email : string)
    (p : Player.row) : Player.row :=
  Player.set_coachEmail (Some coach_email)
    (Player.set_coach (Some coach_name)
       (Player.set_team_id (Some team_id) p)).

(** The seed exercise names, category by category. *)
Definition seed_names : list string := flat_map snd exercises.

(** The columns [link_child] writes on the child and on the parent. *)
Definition with_parent (parent_name parent_email : string) (p : Player.row)
  : Player.row :=
  Player.set_parentEmail (Some parent_email)
    (Player.set_parent (Some parent_name) p).

Definition with_child (child_name child_email : string) (p : Parent.row)
  : Parent.row :=
  Parent.set_child_email (Some child_email)
    (Parent.set_child_name (Some child_name) p).

(** The assignments of [kwargs] applied to one row, in order. *)
Definition apply_all {R} (assign : assignment -> R -> result R)
    (kwargs : list assignment) (r : R) : result R :=
  fold_left (fun acc a => r <- acc ;; assign a r) kwargs (Ok r).

(** The pair does not assign the primary key. *)
Definition keeps_id (a : assignment) : bool :=
  match a with
  | assign_id _ => false
  | _ => true
  end.




(** No two rows of the list clash. *)
Definition distinct {R} (clash : R -> R -> bool) (l : list R) : Prop :=
  ForallOrdPairs (fun a b => clash a b = false) l.

(** The UNIQUE and PRIMARY KEY constraints of the three person tables all
    hold. *)
Definition persons_unique (s : DB) : Prop :=
  distinct Player.clash (rows (PLAYER s)) /\
  distinct Coach.clash (rows (COACH s)) /\
  distinct Parent.clash (rows (PARENT s)).

(** A coach (id 1) with the team "Lions" and a player (id 1) not yet on
    it. *)
Definition squad : DB :=
  Eval vm_compute in
    match replay
            [initialize;
             addUser (Some "cleo") (Some "pw") (Some "cleo@x.com")
                     (Some "Cleo") (Some 1985) (Some "ES") "coach" None None;
             createTeam "Lions" 1;
             addUser (Some "ana") (Some "pw") (Some "ana@x.com") (Some "Ana")
                     (Some 2012) (Some "ES") "player" None None]
            empty with
    | Ok s => s
    | Err _ => empty
    end.

(** * Properties *)

(** ** Keys drawn by AUTOINCREMENT are fresh *)

Section Fresh.
Context {R : Type} `{Row R}.

Lemma max_rowid_ge (l : list R) (r : R) : In r l -> rowid r <= max_rowid l.
Proof.
  induction l as [|a l IH]; simpl; [tauto|].
  intros [->|Hin]; [lia|]. specialize (IH Hin). lia.
Qed.

Lemma next_rowid_above_rows (t : table R) (r : R) :
  In r (rows t) -> rowid r < next_rowid t.
Proof.
  intros Hin. apply max_rowid_ge in Hin. unfold next_rowid. lia.
Qed.

Lemma next_rowid_above_seq (t : table R) : seq t < next_rowid t.
Proof. unfold next_rowid. lia. Qed.

(** A table whose only uniqueness constraint is its key never refuses a
    row with a fresh key. *)
Lemma fresh_key_never_clashes (clash : R -> R -> bool) (mk : Z -> R)
    (t : table R) :
  (forall a b, clash a b = (rowid a =? rowid b)) ->
  (forall i, rowid (mk i) = i) ->
  violates clash (mk (next_rowid t)) (rows t) = false.
Proof.
  intros Hclash Hmk. unfold violates.
  destruct (existsb _ _) eqn:E; [|reflexivity].
  apply existsb_exists in E. destruct E as (r & Hin & Hc).
  rewrite Hclash, Hmk in Hc. apply Z.eqb_eq in Hc.
  apply next_rowid_above_rows in Hin. lia.
Qed.

Lemma insert_or_ignore_skips (clash : R -> R -> bool) (mk : Z -> R)
    (t : table R) :
  (forall i, violates clash (mk i) (rows t) = true) ->
  rows (insert_or_ignore clash mk t) = rows t.
Proof. intros Hv. unfold insert_or_ignore. simpl. now rewrite Hv. Qed.

Lemma insert_or_ignore_rows (clash : R -> R -> bool) (mk : Z -> R)
    (t : table R) :
  rows (insert_or_ignore clash mk t) = rows t \/
  rows (insert_or_ignore clash mk t) = rows t ++ [mk (next_rowid t)].
Proof.
  unfold insert_or_ignore. simpl. destruct (violates _ _ _); auto.
Qed.

Lemma NoDup_rowid_snoc (l : list R) (r : R) :
  NoDup (map rowid l) -> max_rowid l < rowid r -> NoDup (map rowid (l ++ [r])).
Proof.
  intros Hnd Hlt. rewrite map_app. simpl.
  apply NoDup_app; [assumption|repeat constructor; simpl; tauto|].
  intros i Hi [<-|[]].
  apply in_map_iff in Hi. destruct Hi as (a & Ha & Hin).
  apply max_rowid_ge in Hin. lia.
Qed.

Lemma insert_or_ignore_NoDup (clash : R -> R -> bool) (mk : Z -> R)
    (t : table R) :
  (forall i, rowid (mk i) = i) ->
  NoDup (map rowid (rows t)) ->
  NoDup (map rowid (rows (insert_or_ignore clash mk t))).
Proof.
  intros Hmk Hnd.
  destruct (insert_or_ignore_rows clash mk t) as [-> | ->]; [assumption|].
  apply NoDup_rowid_snoc; [assumption|].
  rewrite Hmk. unfold next_rowid. lia.
Qed.
End Fresh.

(** ** Schema bootstrap *)

Lemma run_initialize (s : DB) : run s initialize = _initialize_database s.
Proof. reflexivity. Qed.

Lemma initialize_statement (s : DB) :
  _initialize_database s
  = seed_exercises exercises
      (with_CATEGORY s (insert_categories (CATEGORY s))).
Proof. reflexivity. Qed.

Lemma boot_empty : _initialize_database empty = Ok booted.
Proof. vm_compute. reflexivity. Qed.

Lemma insert_categories_skips (names : list string) (t : table Category.row) :
  forallb (fun n => existsb (fun c => (Category.name c =? n)%string) (rows t))
          names = true ->
  rows (fold_left
          (fun t category =>
             insert_or_ignore Category.clash (fun i => Category.Row i category)
                              t)
          names t) = rows t.
Proof.
  revert t. induction names as [|n names IH]; intros t Hall; [reflexivity|].
  simpl in Hall. apply andb_prop in Hall. destruct Hall as [Hn Hall].
  assert (Hskip : rows (insert_or_ignore Category.clash
                          (fun i => Category.Row i n) t) = rows t).
  { apply insert_or_ignore_skips. intros i. unfold violates.
    apply existsb_exists in Hn. destruct Hn as (c & Hin & Hc).
    apply existsb_exists. exists c. split; [assumption|].
    unfold Category.clash. simpl. rewrite String.eqb_sym, Hc. reflexivity. }
  simpl. rewrite IH; [assumption|]. now rewrite Hskip.
Qed.

Lemma insert_exercises_skips (category_id : Z) (names : list string)
    (t : table Exercise.row) :
  forallb
    (fun n => existsb (fun x => (Exercise.category_id x =? category_id)
                                && (Exercise.name x =? n)%string) (rows t))
    names = true ->
  rows (insert_exercises category_id names t) = rows t.
Proof.
  unfold insert_exercises. revert t.
  induction names as [|n names IH]; intros t Hall; [reflexivity|].
  simpl in Hall. apply andb_prop in Hall. destruct Hall as [Hn Hall].
  assert (Hskip : rows (insert_or_ignore Exercise.clash
                          (fun i => Exercise.Row i category_id n) t) = rows t).
  { apply insert_or_ignore_skips. intros i. unfold violates.
    apply existsb_exists in Hn. destruct Hn as (x & Hin & Hx).
    apply existsb_exists. exists x. split; [assumption|].
    apply andb_prop in Hx. destruct Hx as [Hc Hname].
    unfold Exercise.clash. simpl.
    rewrite Z.eqb_sym, Hc, String.eqb_sym, Hname. reflexivity. }
  simpl. rewrite IH; [assumption|]. now rewrite Hskip.
Qed.

Lemma seed_exercises_skips (items : list (string * list string)) (s : DB) :
  seeded items (rows (CATEGORY s)) (rows (EXERCISE s)) = true ->
  exists s', seed_exercises items s = Ok s' /\ same_rows s' s.
Proof.
  revert s. induction items as [|[category names] items IH]; intros s Hs.
  - exists s. unfold same_rows. simpl. tauto.
  - simpl in Hs. apply andb_prop in Hs. destruct Hs as [Hitem Hs].
    simpl. destruct (find _ (rows (CATEGORY s))) as [c|]; [|discriminate].
    pose proof (insert_exercises_skips _ _ _ Hitem) as Hrows.
    destruct (IH (with_EXERCISE s
                    (insert_exercises (Category.id c) names (EXERCISE s))))
      as (s' & Hrun & Hsame).
    + simpl. rewrite Hrows. assumption.
    + exists s'. split; [assumption|].
      unfold same_rows in *. simpl in Hsame. rewrite Hrows in Hsame.
      assumption.
Qed.

(** Starting again on a store that already holds the seed rows succeeds and
    changes no row. *)
Lemma initialize_again (s : DB) :
  same_rows s booted ->
  exists s', _initialize_database s = Ok s' /\ same_rows s' booted.
Proof.
  intros Hs. unfold _initialize_database.
  assert (Hcat : rows (insert_categories (CATEGORY s)) = rows (CATEGORY s)).
  { apply insert_categories_skips.
    destruct Hs as (_ & _ & _ & _ & -> & _). vm_compute. reflexivity. }
  destruct (seed_exercises_skips exercises
              (with_CATEGORY s (insert_categories (CATEGORY s))))
    as (s' & Hrun & Hsame).
  - unfold with_CATEGORY. cbn [CATEGORY EXERCISE]. rewrite Hcat.
    destruct Hs as (_ & _ & _ & _ & -> & _ & -> & _). vm_compute. reflexivity.
  - exists s'. split; [assumption|].
    unfold same_rows, with_CATEGORY in *.
    cbn [PLAYER COACH TEAM PARENT CATEGORY PARENT_PLAYER EXERCISE
         PLAYER_EXERCISE] in Hsame.
    rewrite Hcat in Hsame. intuition congruence.
Qed.

Lemma initialize_times_again (n : nat) (s : DB) :
  same_rows s booted ->
  exists s', initialize_times n s = Ok s' /\ same_rows s' booted.
Proof.
  revert s. induction n as [|n IH]; intros s Hs.
  - exists s. split; [reflexivity|assumption].
  - destruct (initialize_again s Hs) as (s1 & Hrun & Hs1).
    destruct (IH s1 Hs1) as (s' & Hrun' & Hs').
    exists s'. split; [|assumption].
    cbn [initialize_times]. rewrite Hrun. assumption.
Qed.

(** C3, as amended.  Constructing the database N >= 1 times in a row
    on a fresh file
    never raises, and leaves the rows one construction leaves: the six
    categories PAC, SHO, PAS, DRI, DEF, PHY and seventeen exercises, every
    other table empty.  (Only the AUTOINCREMENT counters of CATEGORY and
    EXERCISE move: an ignored insert still consumes the key drawn for it.) *)
Theorem initialize_idempotent (n : nat) :
  exists s s1,
    initialize_times (S n) empty = Ok s /\
    initialize_times 1 empty = Ok s1 /\
    same_rows s s1 /\
    map Category.name (rows (CATEGORY s))
      = ["PAC"; "SHO"; "PAS"; "DRI"; "DEF"; "PHY"] /\
    List.length (rows (CATEGORY s)) = 6%nat /\
    List.length (rows (EXERCISE s)) = 17%nat.
Proof.
  destruct (@initialize_times_again n booted) as (s & Hrun & Hsame).
  { unfold same_rows. tauto. }
  exists s, booted. split; [|split; [|split]].
  - cbn [initialize_times]. rewrite boot_empty. assumption.
  - cbn [initialize_times]. rewrite boot_empty. reflexivity.
  - assumption.
  - destruct Hsame as (_ & _ & _ & _ & -> & _ & -> & _).
    vm_compute. repeat split.
Qed.

(** ** Lookups *)

Lemma find_first {A} (p : A -> bool) (l : list A) :
  (exists a, In a l /\ p a = true) ->
  exists u, find p l = Some u /\ In u l /\ p u = true.
Proof.
  intros (a & Hin & Hp). destruct (find p l) as [u|] eqn:E.
  - exists u. apply find_some in E. tauto.
  - apply (find_none _ _ E) in Hin. congruence.
Qed.

Lemma find_absent {A} (p : A -> bool) (l : list A) :
  (forall a, In a l -> p a = false) -> find p l = None.
Proof.
  intros Hall. destruct (find p l) as [u|] eqn:E; [|reflexivity].
  apply find_some in E. destruct E as [Hin Hp].
  rewrite (Hall u Hin) in Hp. discriminate.
Qed.

(** C6.  [get_user_by_email] answers from PLAYER when a player has the
    email, whatever COACH and PARENT hold; else from COACH; else from
    PARENT; each time with the first row carrying the email and the role
    of its table.  With no such row anywhere it returns (None, None).  It
    is a total function into pairs: no path raises. *)
Theorem get_user_by_email_probe_order (s : DB) (email : string) :
  ((exists r, In r (rows (PLAYER s)) /\ Player.email r = email) ->
   exists u,
     find (fun r => (Player.email r =? email)%string) (rows (PLAYER s))
       = Some u /\
     Player.email u = email /\
     get_user_by_email s email = (Some (player_row u), Some "player")) /\
  ((forall r, In r (rows (PLAYER s)) -> Player.email r <> email) ->
   (exists r, In r (rows (COACH s)) /\ Coach.email r = email) ->
   exists u,
     find (fun r => (Coach.email r =? email)%string) (rows (COACH s))
       = Some u /\
     Coach.email u = email /\
     get_user_by_email s email = (Some (coach_row u), Some "coach")) /\
  ((forall r, In r (rows (PLAYER s)) -> Player.email r <> email) ->
   (forall r, In r (rows (COACH s)) -> Coach.email r <> email) ->
   (exists r, In r (rows (PARENT s)) /\ Parent.email r = email) ->
   exists u,
     find (fun r => (Parent.email r =? email)%string) (rows (PARENT s))
       = Some u /\
     Parent.email u = email /\
     get_user_by_email s email = (Some (parent_row u), Some "parent")) /\
  ((forall r, In r (rows (PLAYER s)) -> Player.email r <> email) ->
   (forall r, In r (rows (COACH s)) -> Coach.email r <> email) ->
   (forall r, In r (rows (PARENT s)) -> Parent.email r <> email) ->
   get_user_by_email s email = (None, None)).
Proof.
  assert (Hno_player :
            (forall r, In r (rows (PLAYER s)) -> Player.email r <> email) ->
            find (fun r => (Player.email r =? email)%string) (rows (PLAYER s))
              = None).
  { intros Hno. apply find_absent. intros r Hin.
    apply String.eqb_neq. auto. }
  assert (Hno_coach :
            (forall r, In r (rows (COACH s)) -> Coach.email r <> email) ->
            find (fun r => (Coach.email r =? email)%string) (rows (COACH s))
              = None).
  { intros Hno. apply find_absent. intros r Hin.
    apply String.eqb_neq. auto. }
  unfold get_user_by_email. repeat split.
  - intros (r & Hin & Hr).
    destruct (find_first (fun r => (Player.email r =? email)%string)
                         (rows (PLAYER s))) as (u & Hfind & _ & Hu).
    { exists r. split; [assumption|]. now apply String.eqb_eq. }
    exists u. rewrite Hfind. apply String.eqb_eq in Hu. auto.
  - intros Hp (r & Hin & Hr). rewrite (Hno_player Hp).
    destruct (find_first (fun r => (Coach.email r =? email)%string)
                         (rows (COACH s))) as (u & Hfind & _ & Hu).
    { exists r. split; [assumption|]. now apply String.eqb_eq. }
    exists u. rewrite Hfind. apply String.eqb_eq in Hu. auto.
  - intros Hp Hc (r & Hin & Hr).
    rewrite (Hno_player Hp), (Hno_coach Hc).
    destruct (find_first (fun r => (Parent.email r =? email)%string)
                         (rows (PARENT s))) as (u & Hfind & _ & Hu).
    { exists r. split; [assumption|]. now apply String.eqb_eq. }
    exists u. rewrite Hfind. apply String.eqb_eq in Hu. auto.
  - intros Hp Hc Hpa. rewrite (Hno_player Hp), (Hno_coach Hc).
    rewrite find_absent; [reflexivity|].
    intros r Hin. apply String.eqb_neq. auto.
Qed.

(** ** Teams *)



Lemma team_insert_succeeds (s : DB) (team_name : string) (coach_id : Z) :
  find (fun t => (Team.name t =? team_name)%string) (rows (TEAM s)) = None ->
  insert Team.clash "TEAM" (fun i => Team.Row i team_name coach_id) (TEAM s)
  = Ok ({| rows := rows (TEAM s)
                     ++ [Team.Row (next_rowid (TEAM s)) team_name coach_id];
           seq := next_rowid (TEAM s) |},
        next_rowid (TEAM s)).
Proof.
  intros Hname. unfold insert.
  replace (violates Team.clash _ _) with false; [reflexivity|].
  symmetry. unfold violates.
  destruct (existsb _ _) eqn:E; [|reflexivity].
  apply existsb_exists in E. destruct E as (t & Hin & Hc).
  unfold Team.clash in Hc. simpl in Hc. apply orb_prop in Hc.
  destruct Hc as [Hc|Hc].
  - apply Z.eqb_eq in Hc.
    pose proof (next_rowid_above_rows (TEAM s) t Hin) as Hlt.
    simpl in Hlt. lia.
  - rewrite String.eqb_sym, (find_none _ _ Hname t Hin) in Hc. discriminate.
Qed.



(** ** The progress report *)

Lemma lookup_append_entry_same (category : string) (e : Progress.entry)
    (d : list (string * list Progress.entry)) :
  lookup category (append_entry category e d)
  = Some (match lookup category d with Some l => l | None => [] end ++ [e]).
Proof.
  unfold lookup. induction d as [|[k l] d IH]; simpl.
  - rewrite String.eqb_refl. reflexivity.
  - destruct (k =? category)%string eqn:E; simpl; rewrite E.
    + reflexivity.
    + exact IH.
Qed.

Lemma lookup_append_entry_other (category k : string) (e : Progress.entry)
    (d : list (string * list Progress.entry)) :
  k <> category ->
  lookup k (append_entry category e d) = lookup k d.
Proof.
  intros Hne. unfold lookup. induction d as [|[k' l] d IH]; simpl.
  - apply String.eqb_neq in Hne. rewrite String.eqb_sym, Hne. reflexivity.
  - destruct (k' =? category)%string eqn:E; simpl.
    + apply String.eqb_eq in E. subst k'.
      apply String.eqb_neq in Hne. rewrite String.eqb_sym, Hne. reflexivity.
    + destruct (k' =? k)%string; [reflexivity|exact IH].
Qed.

Lemma listed_append_new (category : string) (e : Progress.entry)
    (d : list (string * list Progress.entry)) :
  listed category e (append_entry category e d).
Proof.
  eexists. split; [apply lookup_append_entry_same|].
  apply in_or_app. right. now left.
Qed.

Lemma listed_append_old (category k : string) (e x : Progress.entry)
    (d : list (string * list Progress.entry)) :
  listed k x d -> listed k x (append_entry category e d).
Proof.
  intros (l & Hl & Hin). destruct (String.eqb_spec k category) as [->|Hne].
  - eexists. split; [apply lookup_append_entry_same|].
    rewrite Hl. apply in_or_app. now left.
  - exists l. now rewrite lookup_append_entry_other.
Qed.

Lemma group_by_category_fold
    (exercises : list (string * string * option string * option Z)) :
  group_by_category exercises = fold_left add_fetched exercises [].
Proof.
  unfold group_by_category. f_equal.
Qed.

Lemma fold_add_fetched_keeps
    (exercises : list (string * string * option string * option Z))
    (d : list (string * list Progress.entry)) (k : string)
    (x : Progress.entry) :
  listed k x d -> listed k x (fold_left add_fetched exercises d).
Proof.
  revert d. induction exercises as [|[[[c n] r] g] exercises IH];
    intros d Hd; [assumption|].
  simpl. apply IH. now apply listed_append_old.
Qed.

(** Every fetched row is reported, under its category, with its falsy
    result and rating replaced by [None]. *)
Lemma group_by_category_lists
    (exercises : list (string * string * option string * option Z))
    (category exercise_name : string) (r : option string) (g : option Z) :
  In (category, exercise_name, r, g) exercises ->
  listed category
    (Progress.Entry exercise_name (text_or_None r) (int_or_None g))
    (group_by_category exercises).
Proof.
  rewrite group_by_category_fold.
  generalize (@nil (string * list Progress.entry)).
  induction exercises as [|row exercises IH]; intros d Hin; [destruct Hin|].
  destruct Hin as [->|Hin].
  - simpl. apply fold_add_fetched_keeps. apply listed_append_new.
  - simpl. now apply IH.
Qed.

Lemma text_or_None_not_empty (x : option string) :
  text_or_None x <> Some EmptyString.
Proof. destruct x as [[|a x]|]; simpl; congruence. Qed.

Lemma append_entry_no_empty_result (category : string) (e : Progress.entry)
    (d : list (string * list Progress.entry)) :
  Progress.result e <> Some EmptyString ->
  no_empty_result d -> no_empty_result (append_entry category e d).
Proof.
  intros He. unfold no_empty_result.
  induction d as [|[k l] d IH]; intros Hd k' l' e' Hin He'.
  - destruct Hin as [Heq|[]]. inversion Heq; subst.
    destruct He' as [<-|[]]. assumption.
  - simpl in Hin. destruct (k =? category)%string.
    + destruct Hin as [Heq|Hin].
      * inversion Heq; subst. apply in_app_or in He'.
        destruct He' as [He'|[<-|[]]]; [|assumption].
        apply (Hd k' l e'); [now left|assumption].
      * apply (Hd k' l' e'); [now right|assumption].
    + destruct Hin as [Heq|Hin].
      * apply (Hd k' l' e'); [now left|assumption].
      * apply (IH (fun k l e H => Hd k l e (or_intror H)) k' l' e');
          assumption.
Qed.

Lemma group_by_category_no_empty_result
    (exercises : list (string * string * option string * option Z)) :
  no_empty_result (group_by_category exercises).
Proof.
  rewrite group_by_category_fold.
  assert (H0 : no_empty_result []) by (intros k l e []).
  revert H0. generalize (@nil (string * list Progress.entry)).
  induction exercises as [|[[[c n] r] g] exercises IH]; intros d Hd;
    [assumption|].
  simpl. apply IH. apply append_entry_no_empty_result; [|assumption].
  apply text_or_None_not_empty.
Qed.

(** The SELECT returns a row for every PLAYER_EXERCISE row of the player
    whose exercise and category exist. *)
Lemma select_progress_fetches (s : DB) (player_id : Z) (c : Category.row)
    (e : Exercise.row) (pe : PlayerExercise.row) :
  In c (rows (CATEGORY s)) -> In e (rows (EXERCISE s)) ->
  In pe (rows (PLAYER_EXERCISE s)) ->
  Category.id c = Exercise.category_id e ->
  PlayerExercise.exercise_id pe = Exercise.id e ->
  PlayerExercise.player_id pe = player_id ->
  In (Category.name c, Exercise.name e, PlayerExercise.result pe,
      PlayerExercise.rating pe)
     (select_progress s player_id).
Proof.
  intros Hc He Hpe Hce Hpee Hpid. unfold select_progress.
  apply in_flat_map. exists e. split; [assumption|].
  apply in_flat_map. exists c. split.
  { apply filter_In. split; [assumption|]. now apply Z.eqb_eq. }
  assert (Hm : In pe (filter
                        (fun pe =>
                           (Exercise.id e =? PlayerExercise.exercise_id pe)
                           && (PlayerExercise.player_id pe =? player_id))
                        (rows (PLAYER_EXERCISE s)))).
  { apply filter_In. split; [assumption|].
    apply andb_true_intro. split; apply Z.eqb_eq; congruence. }
  destruct (filter _ (rows (PLAYER_EXERCISE s))) as [|m ms] eqn:E;
    [destruct Hm|].
  apply in_map_iff. exists pe. split; [reflexivity|assumption].
Qed.

(** C10.  A stored empty-string result is reported as absent: when the
    player's PLAYER_EXERCISE row for an exercise holds the empty string, the
    returned mapping lists that exercise under its category with result
    None; and no entry of the mapping ever carries the empty string. *)
Theorem empty_result_reported_absent (s : DB) (player_id : Z) :
  (forall c e pe,
     In c (rows (CATEGORY s)) -> In e (rows (EXERCISE s)) ->
     In pe (rows (PLAYER_EXERCISE s)) ->
     Category.id c = Exercise.category_id e ->
     PlayerExercise.exercise_id pe = Exercise.id e ->
     PlayerExercise.player_id pe = player_id ->
     PlayerExercise.result pe = Some EmptyString ->
     listed (Category.name c)
       (Progress.Entry (Exercise.name e) None
                       (int_or_None (PlayerExercise.rating pe)))
       (get_categories_and_exercises_with_ratings s player_id)) /\
  (forall category l entry,
     In (category, l)
        (get_categories_and_exercises_with_ratings s player_id) ->
     In entry l -> Progress.result entry <> Some EmptyString).
Proof.
  unfold get_categories_and_exercises_with_ratings. split.
  - intros c e pe Hc He Hpe Hce Hpee Hpid Hres.
    pose proof (select_progress_fetches s player_id c e pe Hc He Hpe Hce Hpee
                  Hpid)
      as Hrow.
    apply group_by_category_lists in Hrow.
    rewrite Hres in Hrow. exact Hrow.
  - apply group_by_category_no_empty_result.
Qed.

(** ** What a successful [update_exercise] does *)

Lemma set_fields_keys (fields : list field) (r : PlayerExercise.row) :
  PlayerExercise.id (set_fields fields r) = PlayerExercise.id r /\
  PlayerExercise.player_id (set_fields fields r) = PlayerExercise.player_id r /\
  PlayerExercise.exercise_id (set_fields fields r)
    = PlayerExercise.exercise_id r.
Proof.
  unfold set_fields. revert r.
  induction fields as [|f fields IH]; intros r; [auto|].
  simpl. destruct (IH (set_field f r)) as (-> & -> & ->).
  destruct f; auto.
Qed.

Lemma set_fields_result (result : option string) (rating : option Z)
    (r : PlayerExercise.row) :
  PlayerExercise.result (set_fields (fields_to_update result rating) r)
  = if no_result result then PlayerExercise.result r else result.
Proof.
  unfold fields_to_update, set_fields, no_result, no_rating.
  destruct result as [x|], rating as [g|]; simpl;
    try destruct (x =? "N/A")%string; try destruct (g =? 0); reflexivity.
Qed.

Lemma set_fields_rating (result : option string) (rating : option Z)
    (r : PlayerExercise.row) :
  PlayerExercise.rating (set_fields (fields_to_update result rating) r)
  = if no_rating rating then PlayerExercise.rating r else rating.
Proof.
  unfold fields_to_update, set_fields, no_result, no_rating.
  destruct result as [x|], rating as [g|]; simpl;
    try destruct (x =? "N/A")%string; try destruct (g =? 0); reflexivity.
Qed.

Lemma assigns_rating_fields (result : option string) (rating : option Z) :
  existsb assigns_rating (fields_to_update result rating)
  = negb (no_rating rating).
Proof.
  unfold fields_to_update, no_rating.
  destruct result as [x|], rating as [g|]; simpl;
    try destruct (x =? "N/A")%string; try destruct (g =? 0); reflexivity.
Qed.

Lemma falsy_false (x : option string) :
  falsy x = false <-> exists name, x = Some name /\ name <> EmptyString.
Proof.
  destruct x as [[|a n]|]; simpl; split;
    try discriminate; try reflexivity.
  - intros (name & Heq & Hne). inversion Heq. congruence.
  - intros _. eexists. split; [reflexivity|discriminate].
  - intros (name & Heq & _). discriminate.
Qed.

(** Binding the values of the UPDATE. *)
Lemma request_binds_parameters (data : Data.t) :
  bind_parameters
    (map bound_integer
         (fields_to_update (Data.result data) (Data.rating data))
     ++ [Data.playerId data])
  = if request_binds data then Ok tt else Err OverflowError.
Proof.
  unfold bind_parameters, request_binds, fields_to_update, no_rating.
  rewrite forallb_app, map_app, forallb_app. cbn [forallb].
  rewrite andb_true_r.
  destruct (Data.result data) as [r|], (Data.rating data) as [g|];
    try destruct (r =? "N/A")%string; try destruct (g =? 0);
    cbn [negb map forallb bindable bound_integer andb];
    rewrite ?andb_true_r; reflexivity.
Qed.

(** Past validation and name resolution, the call is its UPDATE
    statement: bound, then run. *)
Lemma update_exercise_statement (s : DB) (data : Data.t) (name : string)
    (e : Exercise.row) :
  Data.exercise data = Some name -> name <> EmptyString ->
  no_result (Data.result data) && no_rating (Data.rating data) = false ->
  find (fun e => (Exercise.name e =? name)%string) (rows (EXERCISE s))
    = Some e ->
  update_exercise s data
  = if request_binds data then
      if passes_check
           (fields_to_update (Data.result data) (Data.rating data))
           (map (set_fields
                   (fields_to_update (Data.result data) (Data.rating data)))
                (filter (targets (Data.playerId data) (Exercise.id e))
                        (rows (PLAYER_EXERCISE s))))
      then Ok (with_PLAYER_EXERCISE s
                 {| rows := updated_rows s data (Exercise.id e);
                    seq := seq (PLAYER_EXERCISE s) |},
               if 0 <? rowcount s (Data.playerId data) (Exercise.id e)
               then message "Exercise updated successfully."
               else error_ "No matching exercise found for this player.")
      else Err (IntegrityError (CHECK "rating BETWEEN 1 AND 5"))
    else Err OverflowError.
Proof.
  intros Hname Hne Hvalid Hfind. unfold update_exercise.
  assert (Hf : falsy (Data.exercise data) = false).
  { apply falsy_false. eauto. }
  rewrite Hf, Hvalid, Hname, Hfind. cbv zeta.
  rewrite request_binds_parameters.
  destruct (request_binds data); reflexivity.
Qed.

Lemma update_exercise_returns (s s' : DB) (data : Data.t) (out : reply) :
  update_exercise s data = Ok (s', out) ->
  exists name e,
    Data.exercise data = Some name /\ name <> EmptyString /\
    no_result (Data.result data) && no_rating (Data.rating data) = false /\
    find (fun e => (Exercise.name e =? name)%string) (rows (EXERCISE s))
      = Some e /\
    passes_check
      (fields_to_update (Data.result data) (Data.rating data))
      (map (set_fields
              (fields_to_update (Data.result data) (Data.rating data)))
           (filter (targets (Data.playerId data) (Exercise.id e))
                   (rows (PLAYER_EXERCISE s)))) = true /\
    s' = with_PLAYER_EXERCISE s
           {| rows := updated_rows s data (Exercise.id e);
              seq := seq (PLAYER_EXERCISE s) |} /\
    out = if 0 <? rowcount s (Data.playerId data) (Exercise.id e)
          then message "Exercise updated successfully."
          else error_ "No matching exercise found for this player.".
Proof.
  intros Hrun.
  destruct (falsy (Data.exercise data)) eqn:Hf;
    [unfold update_exercise in Hrun; rewrite Hf in Hrun; discriminate|].
  destruct (proj1 (falsy_false _) Hf) as (name & Hname & Hne).
  destruct (no_result (Data.result data) && no_rating (Data.rating data))
    eqn:Hvalid;
    [unfold update_exercise in Hrun; rewrite Hf, Hvalid in Hrun;
     discriminate|].
  destruct (find (fun e => (Exercise.name e =? name)%string)
                 (rows (EXERCISE s))) as [e|] eqn:Hfind;
    [|unfold update_exercise in Hrun;
      rewrite Hf, Hvalid, Hname, Hfind in Hrun; discriminate].
  rewrite (update_exercise_statement s data name e Hname Hne Hvalid Hfind)
    in Hrun.
  destruct (request_binds data); [|discriminate].
  exists name, e. destruct (passes_check _ _) eqn:Hcheck; [|discriminate].
  inversion Hrun. repeat split; auto.
Qed.

(** A call that returns has bound its integers. *)
Lemma update_exercise_returns_bound (s s' : DB) (data : Data.t)
    (out : reply) :
  update_exercise s data = Ok (s', out) -> request_binds data = true.
Proof.
  intros Hrun.
  destruct (update_exercise_returns s s' data out Hrun)
    as (name & e & Hname & Hne & Hvalid & Hfind & _).
  rewrite (update_exercise_statement s data name e Hname Hne Hvalid Hfind)
    in Hrun.
  destruct (request_binds data); [reflexivity|discriminate].
Qed.

(** ** Invariants of the store *)

Lemma consistent_frame (s s' : DB) :
  PLAYER_EXERCISE s' = PLAYER_EXERCISE s ->
  seq (PLAYER s') = seq (PLAYER s) ->
  EXERCISE s' = EXERCISE s ->
  consistent s -> consistent s'.
Proof.
  intros Hpe Hseq Hex [H1 H2 H3 H4].
  constructor; rewrite ?Hpe, ?Hseq, ?Hex; assumption.
Qed.

(** *** Bootstrap *)

Lemma insert_exercises_NoDup (category_id : Z) (names : list string)
    (t : table Exercise.row) :
  NoDup (map Exercise.id (rows t)) ->
  NoDup (map Exercise.id (rows (insert_exercises category_id names t))).
Proof.
  unfold insert_exercises. revert t.
  induction names as [|n names IH]; intros t Hnd; [assumption|].
  simpl. apply IH.
  exact (insert_or_ignore_NoDup Exercise.clash
           (fun i => Exercise.Row i category_id n) t
           (fun i => eq_refl) Hnd).
Qed.

Lemma seed_exercises_frame (items : list (string * list string))
    (s s' : DB) :
  seed_exercises items s = Ok s' ->
  PLAYER s' = PLAYER s /\ PLAYER_EXERCISE s' = PLAYER_EXERCISE s /\
  (NoDup (map Exercise.id (rows (EXERCISE s))) ->
   NoDup (map Exercise.id (rows (EXERCISE s')))).
Proof.
  revert s. induction items as [|[category names] items IH]; intros s Hrun.
  - inversion Hrun. auto.
  - simpl in Hrun.
    destruct (find _ (rows (CATEGORY s))) as [c|]; [|discriminate].
    apply IH in Hrun. destruct Hrun as (Hp & Hpe & Hnd).
    repeat split; [exact Hp|exact Hpe|].
    intros H. apply Hnd. simpl. now apply insert_exercises_NoDup.
Qed.

Lemma consistent_initialize (s s' : DB) :
  consistent s -> _initialize_database s = Ok s' -> consistent s'.
Proof.
  intros [H1 H2 H3 H4] Hrun. rewrite initialize_statement in Hrun.
  apply seed_exercises_frame in Hrun. destruct Hrun as (Hp & Hpe & Hnd).
  constructor; rewrite ?Hp, ?Hpe; auto.
Qed.

Lemma consistent_empty : consistent empty.
Proof. constructor; simpl; constructor. Qed.

(** *** Registration *)

Lemma fold_left_Err {A B} (f : A -> B -> result A) (l : list B) (e : error) :
  fold_left (fun acc b => a <- acc ;; f a b) l (Err e) = Err e.
Proof. induction l as [|b l IH]; [reflexivity|exact IH]. Qed.

(** The bulk insert always succeeds and appends one row per exercise, in
    order, for the new player, with NULL result and rating. *)
Lemma insert_player_exercises_appends (user_id : Z)
    (exercises : list Exercise.row) (t : table PlayerExercise.row) :
  exists t' news,
    insert_player_exercises user_id exercises t = Ok t' /\
    rows t' = rows t ++ news /\
    map columns news
      = map (fun x => (user_id, Exercise.id x, None, None)) exercises.
Proof.
  unfold insert_player_exercises. revert t.
  induction exercises as [|x exercises IH]; intros t.
  - exists t, []. rewrite app_nil_r. auto.
  - simpl. unfold insert at 2.
    rewrite (fresh_key_never_clashes PlayerExercise.clash
               (fun i => PlayerExercise.Row i user_id (Exercise.id x)
                           None None) t) by reflexivity.
    cbn [bind].
    destruct (IH {| rows := rows t
                      ++ [PlayerExercise.Row (next_rowid t) user_id
                            (Exercise.id x) None None];
                    seq := next_rowid t |}) as (t' & news & Hrun & Hr & Hc).
    exists t', (PlayerExercise.Row (next_rowid t) user_id (Exercise.id x)
                  None None :: news).
    split; [exact Hrun|]. split.
    + rewrite Hr. simpl. now rewrite <- app_assoc.
    + simpl. now rewrite Hc.
Qed.

(** A registration that succeeds, case by case. *)
Lemma add_user_returns (s s' : DB)
    (username password email name : option string) (birthYear : option Z)
    (country : option string) (role : string)
    (number team_id : option Z) (user_id : Z) :
  add_user s username password email name birthYear country role number
           team_id = Ok (s', user_id) ->
  (role = "player" /\
   exists row pe,
     user_id = next_rowid (PLAYER s) /\
     Player.id row = user_id /\
     insert_player_exercises user_id (rows (EXERCISE s)) (PLAYER_EXERCISE s)
       = Ok pe /\
     s' = with_PLAYER_EXERCISE
            (with_PLAYER s {| rows := rows (PLAYER s) ++ [row];
                              seq := user_id |})
            pe) \/
  (role = "coach" /\ exists t, s' = with_COACH s t) \/
  (role = "parent" /\ exists t, s' = with_PARENT s t).
Proof.
  unfold add_user. intros Hrun.
  destruct (String.eqb_spec role "player") as [->|_];
    [left|destruct (String.eqb_spec role "coach") as [->|_];
      [right; left|destruct (String.eqb_spec role "parent") as [->|_];
        [right; right|discriminate]]];
    (split; [reflexivity|]);
    (destruct (bind_parameters _) as [[]|];
     cbn [bind] in Hrun; [|discriminate]);
    destruct username, password, email, name, birthYear, country;
    try discriminate; cbn [not_null bind] in Hrun.
  - unfold insert in Hrun at 1.
    destruct (violates Player.clash _ _); [discriminate|].
    cbn [bind] in Hrun.
    destruct (insert_player_exercises _ _ _) as [pe|] eqn:Hpe;
      [|discriminate].
    cbn [bind] in Hrun. inversion Hrun; subst.
    eexists. exists pe. split; [reflexivity|].
    split; [|split; [exact Hpe|reflexivity]]. reflexivity.
  - unfold insert in Hrun. destruct (violates Coach.clash _ _);
      [discriminate|].
    cbn [bind] in Hrun. inversion Hrun. eexists. reflexivity.
  - unfold insert in Hrun. destruct (violates Parent.clash _ _);
      [discriminate|].
    cbn [bind] in Hrun. inversion Hrun. eexists. reflexivity.
Qed.

Lemma columns_pairs (news : list PlayerExercise.row) (user_id : Z)
    (exercises : list Exercise.row) :
  map columns news
    = map (fun x => (user_id, Exercise.id x, None, None)) exercises ->
  map pair news = map (fun x => (user_id, Exercise.id x)) exercises.
Proof.
  intros H.
  apply (f_equal (map (fun c : Z * Z * option string * option Z =>
                         (fst (fst (fst c)), snd (fst (fst c)))))) in H.
  rewrite !map_map in H. exact H.
Qed.

Lemma columns_in (news : list PlayerExercise.row) (user_id : Z)
    (exercises : list Exercise.row) (r : PlayerExercise.row) :
  map columns news
    = map (fun x => (user_id, Exercise.id x, None, None)) exercises ->
  In r news ->
  PlayerExercise.player_id r = user_id /\
  PlayerExercise.result r = None /\ PlayerExercise.rating r = None.
Proof.
  intros H Hin. apply (in_map columns) in Hin. rewrite H in Hin.
  apply in_map_iff in Hin. destruct Hin as (x & Hx & _).
  unfold columns in Hx. inversion Hx. auto.
Qed.

Lemma NoDup_tagged (user_id : Z) (l : list Z) :
  NoDup l -> NoDup (map (fun i => (user_id, i)) l).
Proof.
  induction 1 as [|i l Hnot _ IH]; simpl; constructor; [|assumption].
  intros Hin. apply in_map_iff in Hin. destruct Hin as (j & Heq & Hj).
  inversion Heq. congruence.
Qed.

Lemma consistent_add_user (s s' : DB)
    (username password email name : option string) (birthYear : option Z)
    (country : option string) (role : string) (number team_id : option Z)
    (user_id : Z) :
  consistent s ->
  add_user s username password email name birthYear country role number
           team_id = Ok (s', user_id) ->
  consistent s'.
Proof.
  intros Hs Hrun. apply add_user_returns in Hrun.
  destruct Hrun as [(_ & row & pe & Hid & _ & Hpe & ->)
                   |[(_ & t & ->)|(_ & t & ->)]];
    [|now apply (consistent_frame s)..].
  destruct Hs as [H1 H2 H3 H4].
  destruct (insert_player_exercises_appends user_id (rows (EXERCISE s))
              (PLAYER_EXERCISE s)) as (pe' & news & Hpe' & Hrows & Hcols).
  rewrite Hpe in Hpe'. inversion Hpe'; subst pe'. clear Hpe'.
  pose proof (next_rowid_above_seq (PLAYER s)) as Hfresh.
  rewrite <- Hid in Hfresh.
  constructor; simpl; rewrite ?Hrows.
  - apply Forall_app. split; [assumption|].
    apply Forall_forall. intros r Hin.
    destruct (columns_in _ _ _ _ Hcols Hin) as (_ & _ & Hr).
    unfold PlayerExercise.check. now rewrite Hr.
  - apply Forall_app. split.
    + eapply Forall_impl; [|exact H2]. simpl. intros r Hr. lia.
    + apply Forall_forall. intros r Hin.
      destruct (columns_in _ _ _ _ Hcols Hin) as (Hr & _). lia.
  - rewrite map_app. apply NoDup_app.
    + assumption.
    + rewrite (columns_pairs _ _ _ Hcols).
      rewrite <- (map_map Exercise.id (fun i => (user_id, i))).
      now apply NoDup_tagged.
    + intros p Hold Hnew.
      apply in_map_iff in Hold. destruct Hold as (r & <- & Hr).
      apply in_map_iff in Hnew. destruct Hnew as (r' & Heq & Hr').
      destruct (columns_in _ _ _ _ Hcols Hr') as (Hu & _).
      rewrite Forall_forall in H2. specialize (H2 r Hr).
      unfold pair in Heq. inversion Heq. lia.
  - assumption.
Qed.

(** *** Profile updates *)

Lemma update_each_seq {R} `{Row R} (clash : R -> R -> bool)
    (table_name : string) (prepare : assignment -> result unit)
    (assign : assignment -> R -> result R) (id : Z)
    (kwargs : list assignment) (t t' : table R) :
  update_each clash table_name prepare assign id kwargs t = Ok t' ->
  seq t' = seq t.
Proof.
  unfold update_each. revert t.
  induction kwargs as [|a kwargs IH]; intros t Hrun.
  - inversion Hrun. reflexivity.
  - simpl in Hrun.
    destruct (update_by_id clash table_name id (prepare a) (offered a)
                           (assign a) (rows t)) as [l|e].
    + cbn [bind] in Hrun. apply IH in Hrun. exact Hrun.
    + cbn [bind] in Hrun.
      rewrite (fold_left_Err
                 (fun t a =>
                    l <- update_by_id clash table_name id (prepare a)
                           (offered a) (assign a) (rows t) ;;
                    Ok {| rows := l; seq := seq t |})) in Hrun.
      discriminate.
Qed.

Lemma consistent_update_user (s s' : DB) (id : Z) (role : string)
    (kwargs : list assignment) :
  consistent s -> update_user s id role kwargs = Ok s' -> consistent s'.
Proof.
  intros Hs Hrun. unfold update_user in Hrun.
  destruct (role =? "player")%string.
  - destruct (update_each _ _ _ _ _ _ _) as [t|] eqn:E; [|discriminate].
    inversion Hrun. apply update_each_seq in E.
    now apply (consistent_frame s).
  - destruct (role =? "coach")%string.
    + destruct (update_each _ _ _ _ _ _ _) as [t|]; [|discriminate].
      inversion Hrun. now apply (consistent_frame s).
    + destruct (role =? "parent")%string; [|discriminate].
      destruct (update_each _ _ _ _ _ _ _) as [t|]; [|discriminate].
      inversion Hrun. now apply (consistent_frame s).
Qed.

(** *** Exercise updates *)

Lemma check_rating (r r' : PlayerExercise.row) :
  PlayerExercise.rating r' = PlayerExercise.rating r ->
  PlayerExercise.check r' = PlayerExercise.check r.
Proof. unfold PlayerExercise.check. now intros ->. Qed.

Lemma consistent_update_exercise (s s' : DB) (data : Data.t) (out : reply) :
  consistent s -> update_exercise s data = Ok (s', out) -> consistent s'.
Proof.
  intros [H1 H2 H3 H4] Hrun. apply update_exercise_returns in Hrun.
  destruct Hrun as (name & e & _ & _ & _ & _ & Hcheck & -> & _).
  unfold passes_check in Hcheck. rewrite assigns_rating_fields in Hcheck.
  constructor; simpl; unfold updated_rows.
  - apply Forall_forall. intros r' Hin. apply in_map_iff in Hin.
    destruct Hin as (r & <- & Hr). rewrite Forall_forall in H1.
    destruct (targets _ _ r) eqn:Hhit; [|auto].
    destruct (no_rating (Data.rating data)) eqn:Hno; simpl in Hcheck.
    + rewrite (check_rating r); [auto|].
      now rewrite set_fields_rating, Hno.
    + rewrite forallb_forall in Hcheck. apply Hcheck.
      apply in_map. apply filter_In. auto.
  - apply Forall_forall. intros r' Hin. apply in_map_iff in Hin.
    destruct Hin as (r & <- & Hr). rewrite Forall_forall in H2.
    destruct (targets _ _ r); [|auto].
    destruct (set_fields_keys
                (fields_to_update (Data.result data) (Data.rating data)) r)
      as (_ & -> & _). auto.
  - rewrite map_map.
    erewrite map_ext; [exact H3|].
    intros r. simpl. destruct (targets _ _ r); [|reflexivity].
    unfold pair.
    destruct (set_fields_keys
                (fields_to_update (Data.result data) (Data.rating data)) r)
      as (_ & -> & ->). reflexivity.
  - assumption.
Qed.

(** *** Every reachable store is consistent *)

Lemma consistent_run (s s' : DB) (c : call) :
  consistent s -> run s c = Ok s' -> consistent s'.
Proof.
  intros Hs Hrun.
  destruct c; [rewrite run_initialize in Hrun|simpl in Hrun..].
  - eapply consistent_initialize; eauto.
  - destruct (add_user _ _ _ _ _ _ _ _ _ _) as [[s1 u]|] eqn:E;
      [|discriminate].
    inversion Hrun; subst. eapply consistent_add_user; eauto.
  - eapply consistent_update_user; eauto.
  - inversion Hrun. now apply (consistent_frame s).
  - unfold create_team in Hrun.
    destruct (find _ _); [discriminate|].
    destruct (find _ _); [discriminate|].
    destruct (insert _ _ _ _) as [[t i]|]; [|discriminate].
    inversion Hrun. now apply (consistent_frame s).
  - destruct (update_exercise s data) as [[s1 out]|] eqn:E; [|discriminate].
    inversion Hrun; subst. eapply consistent_update_exercise; eauto.
  - unfold join_team in Hrun.
    destruct (find _ _); [|discriminate].
    destruct (find _ _); [|discriminate].
    inversion Hrun. now apply (consistent_frame s).
  - unfold link_child in Hrun.
    destruct (find _ _); [|discriminate].
    destruct (find _ _); [|discriminate].
    inversion Hrun. now apply (consistent_frame s).
Qed.

Lemma reachable_consistent (s : DB) : reachable s -> consistent s.
Proof.
  induction 1 as [s Hboot|s c s' _ IH Hrun].
  - exact (consistent_initialize empty s consistent_empty Hboot).
  - exact (consistent_run s s' c IH Hrun).
Qed.

(** ** Example stores *)

Lemma booted_reachable : reachable booted.
Proof. apply reachable_boot. exact boot_empty. Qed.

Lemma one_player_reachable : reachable one_player.
Proof.
  apply (reachable_call booted
           (addUser (Some "ana") (Some "pw") (Some "ana@x.com") (Some "Ana")
                    (Some 2012) (Some "ES") "player" None None)).
  - exact booted_reachable.
  - vm_compute. reflexivity.
Qed.

(** ** Ratings *)

Lemma with_PLAYER_EXERCISE_same (s : DB) :
  with_PLAYER_EXERCISE s
    {| rows := rows (PLAYER_EXERCISE s); seq := seq (PLAYER_EXERCISE s) |} = s.
Proof. destruct s as [? ? ? ? ? ? ? []]. reflexivity. Qed.

Lemma rowcount_zero (s : DB) (playerId : option Z) (exercise_id : Z) :
  rowcount s playerId exercise_id = 0 <->
  filter (targets playerId exercise_id) (rows (PLAYER_EXERCISE s)) = [].
Proof.
  unfold rowcount. destruct (filter _ _); simpl; split;
    intros H; try reflexivity; try discriminate; lia.
Qed.

Lemma updated_rows_no_hit (s : DB) (data : Data.t) (exercise_id : Z) :
  rowcount s (Data.playerId data) exercise_id = 0 ->
  updated_rows s data exercise_id = rows (PLAYER_EXERCISE s).
Proof.
  intros H. apply rowcount_zero in H. unfold updated_rows.
  rewrite <- (map_id (rows (PLAYER_EXERCISE s))) at 2.
  apply map_ext_in. intros r Hin.
  destruct (targets _ _ r) eqn:Hhit; [|reflexivity].
  assert (Hf : In r (filter (targets (Data.playerId data) exercise_id)
                            (rows (PLAYER_EXERCISE s))))
    by (apply filter_In; auto).
  rewrite H in Hf. destruct Hf.
Qed.

(** A supplied rating outside 1..5 fails the CHECK on every row it would be
    written to. *)
Lemma bad_rating_fails_check (result : option string) (g : Z)
    (l : list PlayerExercise.row) :
  g <> 0 -> ~ (1 <= g <= 5) ->
  passes_check (fields_to_update result (Some g))
               (map (set_fields (fields_to_update result (Some g))) l)
  = match l with [] => true | _ => false end.
Proof.
  intros Hnz Hout. unfold passes_check.
  rewrite assigns_rating_fields. simpl.
  apply Z.eqb_neq in Hnz. rewrite Hnz. simpl.
  destruct l as [|r l]; [reflexivity|]. simpl.
  unfold PlayerExercise.check at 1. rewrite set_fields_rating. simpl.
  rewrite Hnz.
  replace ((1 <=? g) && (g <=? 5)) with false; [reflexivity|].
  symmetry. apply andb_false_iff.
  destruct (Z.leb_spec 1 g); [|auto]. destruct (Z.leb_spec g 5); [lia|auto].
Qed.

(** What a call supplying a rating outside 1..5 does once its exercise
    name has resolved. *)
Lemma bad_rating_outcome (s : DB) (data : Data.t) (g : Z) :
  Data.rating data = Some g -> g <> 0 -> ~ (1 <= g <= 5) ->
  forall name e,
    Data.exercise data = Some name -> name <> EmptyString ->
    find (fun e => (Exercise.name e =? name)%string) (rows (EXERCISE s))
      = Some e ->
    (request_binds data = false ->
     update_exercise s data = Err OverflowError) /\
    (request_binds data = true ->
     0 < rowcount s (Data.playerId data) (Exercise.id e) ->
     update_exercise s data
     = Err (IntegrityError (CHECK "rating BETWEEN 1 AND 5"))) /\
    (request_binds data = true ->
     rowcount s (Data.playerId data) (Exercise.id e) = 0 ->
     update_exercise s data
     = Ok (s, error_ "No matching exercise found for this player.")).
Proof.
  intros Hg Hnz Hout name e Hname Hne Hfind.
  assert (Hvalid : no_result (Data.result data)
                   && no_rating (Data.rating data) = false).
  { rewrite Hg. simpl. apply Z.eqb_neq in Hnz. rewrite Hnz.
    apply andb_false_r. }
  rewrite (update_exercise_statement s data name e Hname Hne Hvalid Hfind).
  rewrite Hg, (bad_rating_fails_check _ _ _ Hnz Hout).
  split; [|split]; intros Hbinds; rewrite Hbinds; [reflexivity| |];
    intros Hcount.
  - unfold rowcount in Hcount. destruct (filter _ _); [simpl in Hcount; lia|].
    reflexivity.
  - pose proof Hcount as Hrows. apply rowcount_zero in Hrows.
    rewrite Hrows, Hcount, (updated_rows_no_hit s data _ Hcount).
    now rewrite with_PLAYER_EXERCISE_same.
Qed.

(** C8, as amended.  In every store reachable from the empty file each
    PLAYER_EXERCISE rating is absent or lies in 1..5.  [update_exercise]
    never commits another rating: a call that supplies a non-zero rating
    outside 1..5 always leaves the store as it was.  Once its exercise
    name has resolved, it raises [OverflowError] when the rating or the
    player id does not fit in 64 bits; when both fit, it raises the
    integrity error when a row matches (player, exercise) and returns the
    no-match reply when none does.  (A rating of 0 counts as not
    supplied.) *)
Theorem ratings_stay_in_range (s : DB) :
  reachable s ->
  Forall (fun r => match PlayerExercise.rating r with
                   | None => True
                   | Some v => 1 <= v <= 5
                   end)
         (rows (PLAYER_EXERCISE s)) /\
  (forall data g,
     Data.rating data = Some g -> g <> 0 -> ~ (1 <= g <= 5) ->
     store_after s (update_exercise s data) fst = s /\
     (forall name e,
        Data.exercise data = Some name -> name <> EmptyString ->
        find (fun e => (Exercise.name e =? name)%string) (rows (EXERCISE s))
          = Some e ->
        (request_binds data = false ->
         update_exercise s data = Err OverflowError) /\
        (request_binds data = true ->
         0 < rowcount s (Data.playerId data) (Exercise.id e) ->
         update_exercise s data
           = Err (IntegrityError (CHECK "rating BETWEEN 1 AND 5"))) /\
        (request_binds data = true ->
         rowcount s (Data.playerId data) (Exercise.id e) = 0 ->
         update_exercise s data
           = Ok (s, error_ "No matching exercise found for this player.")))).
Proof.
  intros Hreach. split.
  - destruct (reachable_consistent s Hreach) as [H1 _ _ _].
    eapply Forall_impl; [|exact H1]. intros r Hr. simpl in Hr.
    unfold PlayerExercise.check in Hr.
    destruct (PlayerExercise.rating r) as [v|]; [|exact I].
    apply andb_prop in Hr. destruct Hr as [Hlo Hhi].
    apply Z.leb_le in Hlo. apply Z.leb_le in Hhi. lia.
  - intros data g Hg Hnz Hout.
    pose proof (bad_rating_outcome s data g Hg Hnz Hout) as Hcases.
    split; [|exact Hcases].
    destruct (update_exercise s data) as [[s' out]|err] eqn:Hrun;
      [|reflexivity].
    simpl. destruct (update_exercise_returns s s' data out Hrun)
      as (name & e & Hname & Hne & _ & Hfind & _).
    pose proof (update_exercise_returns_bound s s' data out Hrun) as Hbinds.
    destruct (Hcases name e Hname Hne Hfind) as (_ & Hraise & Hnone).
    destruct (Z.eq_dec (rowcount s (Data.playerId data) (Exercise.id e)) 0)
      as [Hz|Hnz'].
    + specialize (Hnone Hbinds Hz). now inversion Hnone.
    + assert (Hpos : 0 < rowcount s (Data.playerId data) (Exercise.id e))
        by (unfold rowcount in *; lia).
      specialize (Hraise Hbinds Hpos). discriminate.
Qed.

(** ** The reply of [update_exercise] *)

Lemma targets_pair (playerId : option Z) (exercise_id : Z)
    (r : PlayerExercise.row) :
  targets playerId exercise_id r = true ->
  exists p, playerId = Some p /\ pair r = (p, exercise_id).
Proof.
  unfold targets, pair. destruct playerId as [p|]; [|discriminate].
  intros H. apply andb_prop in H. destruct H as [Hp He].
  apply Z.eqb_eq in Hp. apply Z.eqb_eq in He. exists p. now subst.
Qed.

(** With (player, exercise) pairs unique the UPDATE matches at most one
    row. *)
Lemma unique_pairs_one_target (playerId : option Z) (exercise_id : Z)
    (l : list PlayerExercise.row) :
  NoDup (map pair l) ->
  (List.length (filter (targets playerId exercise_id) l) <= 1)%nat.
Proof.
  induction l as [|r l IH]; intros Hnd; simpl; [lia|].
  inversion Hnd as [|? ? Hnot Hnd']; subst.
  destruct (targets playerId exercise_id r) eqn:Hr; [|auto].
  simpl. destruct (filter _ l) as [|r' l'] eqn:E; [simpl; lia|].
  exfalso. assert (Hin : In r' (filter (targets playerId exercise_id) l))
    by (rewrite E; now left).
  apply filter_In in Hin. destruct Hin as [Hin Hr'].
  destruct (targets_pair _ _ _ Hr) as (p & Hp & Hpr).
  destruct (targets_pair _ _ _ Hr') as (p' & Hp' & Hpr').
  apply Hnot. apply in_map_iff. exists r'. split; [|assumption].
  congruence.
Qed.

Lemma good_rating_passes_check (s : DB) (data : Data.t) (exercise_id : Z) :
  (forall g, Data.rating data = Some g ->
             g = 0 \/ 1 <= g <= 5
             \/ rowcount s (Data.playerId data) exercise_id = 0) ->
  passes_check
    (fields_to_update (Data.result data) (Data.rating data))
    (map (set_fields (fields_to_update (Data.result data) (Data.rating data)))
         (filter (targets (Data.playerId data) exercise_id)
                 (rows (PLAYER_EXERCISE s)))) = true.
Proof.
  intros Hrange. unfold passes_check. rewrite assigns_rating_fields.
  destruct (Data.rating data) as [g|] eqn:Hg; [|reflexivity]. simpl.
  destruct (Z.eqb_spec g 0) as [Hz|Hnz]; [reflexivity|]. simpl.
  destruct (Hrange g eq_refl) as [Hz|[Hin|Hnone]]; [contradiction| |].
  - apply forallb_forall. intros r' Hr'. apply in_map_iff in Hr'.
    destruct Hr' as (r & <- & _). unfold PlayerExercise.check.
    rewrite set_fields_rating. simpl.
    apply Z.eqb_neq in Hnz. rewrite Hnz.
    apply andb_true_intro. split; apply Z.leb_le; lia.
  - apply rowcount_zero in Hnone. rewrite Hnone. reflexivity.
Qed.

(** C2, as amended.  In a reachable store, take a call that passes
    validation and whose exercise name resolves.  When the rating it
    writes or its player id does not fit in 64 bits, it raises
    [OverflowError].  When they fit and the rating, when supplied, either
    lies in 1..5 or meets no row, it returns; it returns the success
    message exactly when one row matched (player, exercise), and the
    "no match" reply, a value and not an exception, exactly when none
    did; no other count is possible.  When they fit and a supplied rating
    outside 1..5 meets the row, the call raises the store's integrity
    error. *)
Theorem update_exercise_reply (s : DB) (data : Data.t) (name : string)
    (e : Exercise.row) :
  reachable s ->
  Data.exercise data = Some name -> name <> EmptyString ->
  no_result (Data.result data) && no_rating (Data.rating data) = false ->
  find (fun e => (Exercise.name e =? name)%string) (rows (EXERCISE s))
    = Some e ->
  (rowcount s (Data.playerId data) (Exercise.id e) = 0 \/
   rowcount s (Data.playerId data) (Exercise.id e) = 1) /\
  (request_binds data = false ->
   update_exercise s data = Err OverflowError) /\
  (request_binds data = true ->
   (forall g, Data.rating data = Some g ->
              g = 0 \/ 1 <= g <= 5
              \/ rowcount s (Data.playerId data) (Exercise.id e) = 0) ->
   exists s' out,
     update_exercise s data = Ok (s', out) /\
     (out = message "Exercise updated successfully." <->
      rowcount s (Data.playerId data) (Exercise.id e) = 1) /\
     (out = error_ "No matching exercise found for this player." <->
      rowcount s (Data.playerId data) (Exercise.id e) = 0)) /\
  (request_binds data = true ->
   (exists g, Data.rating data = Some g /\ g <> 0 /\ ~ (1 <= g <= 5)) ->
   rowcount s (Data.playerId data) (Exercise.id e) = 1 ->
   update_exercise s data
     = Err (IntegrityError (CHECK "rating BETWEEN 1 AND 5"))).
Proof.
  intros Hreach Hname Hne Hvalid Hfind.
  pose proof (reachable_consistent s Hreach) as Hs.
  assert (Hcount : rowcount s (Data.playerId data) (Exercise.id e) = 0 \/
                   rowcount s (Data.playerId data) (Exercise.id e) = 1).
  { pose proof (unique_pairs_one_target (Data.playerId data) (Exercise.id e)
                  (rows (PLAYER_EXERCISE s)) (pairs_unique s Hs)) as Hle.
    unfold rowcount. lia. }
  split; [exact Hcount|]. split; [|split].
  - intros Hbinds.
    rewrite (update_exercise_statement s data name e Hname Hne Hvalid Hfind).
    now rewrite Hbinds.
  - intros Hbinds Hrange.
    rewrite (update_exercise_statement s data name e Hname Hne Hvalid Hfind).
    rewrite Hbinds.
    rewrite (good_rating_passes_check s data (Exercise.id e) Hrange).
    eexists. eexists. split; [reflexivity|].
    destruct Hcount as [-> | ->]; simpl; split; split;
      congruence || discriminate || reflexivity.
  - intros Hbinds (g & Hg & Hnz & Hout) Hone.
    destruct (bad_rating_outcome s data g Hg Hnz Hout name e
                Hname Hne Hfind) as (_ & Hraise & _).
    apply Hraise; [exact Hbinds|lia].
Qed.

(** ** Registration seeds the player's exercises *)

Lemma filter_all {A} (p : A -> bool) (l : list A) :
  (forall a, In a l -> p a = true) -> filter p l = l.
Proof.
  induction l as [|a l IH]; intros H; [reflexivity|]. simpl.
  rewrite (H a (or_introl eq_refl)). f_equal. apply IH.
  intros b Hb. apply H. now right.
Qed.

Lemma filter_none {A} (p : A -> bool) (l : list A) :
  (forall a, In a l -> p a = false) -> filter p l = [].
Proof.
  induction l as [|a l IH]; intros H; [reflexivity|]. simpl.
  rewrite (H a (or_introl eq_refl)). apply IH.
  intros b Hb. apply H. now right.
Qed.

(** C4.  A registration with role "player" that succeeds appends to
    PLAYER_EXERCISE exactly one row per EXERCISE row present at that
    moment, in order, each carrying the new player's id, that exercise's
    id, no result and no rating; in a reachable store these are all the
    rows of the new player.  A registration with role "coach" or "parent"
    that succeeds leaves PLAYER_EXERCISE as it was. *)
Theorem add_user_seeds_player_exercises (s s' : DB)
    (username password email name : option string) (birthYear : option Z)
    (country : option string) (role : string) (number team_id : option Z)
    (user_id : Z) :
  add_user s username password email name birthYear country role number
           team_id = Ok (s', user_id) ->
  (role = "player" ->
   exists news,
     rows (PLAYER_EXERCISE s') = rows (PLAYER_EXERCISE s) ++ news /\
     map columns news
       = map (fun x => (user_id, Exercise.id x, None, None))
             (rows (EXERCISE s)) /\
     List.length news = List.length (rows (EXERCISE s)) /\
     (reachable s ->
      filter (fun r => PlayerExercise.player_id r =? user_id)
             (rows (PLAYER_EXERCISE s')) = news)) /\
  (role = "coach" \/ role = "parent" ->
   PLAYER_EXERCISE s' = PLAYER_EXERCISE s).
Proof.
  intros Hrun. apply add_user_returns in Hrun.
  destruct Hrun as [(Hrole & row & pe & Hid & _ & Hpe & ->)
                   |[(Hrole & t & ->)|(Hrole & t & ->)]];
    (split; [intros Hplayer|intros [Hother|Hother]]);
    try (rewrite Hrole in *; discriminate); try reflexivity.
  destruct (insert_player_exercises_appends user_id (rows (EXERCISE s))
              (PLAYER_EXERCISE s)) as (pe' & news & Hpe' & Hrows & Hcols).
  rewrite Hpe in Hpe'. inversion Hpe'; subst pe'. clear Hpe'.
  exists news. simpl. split; [exact Hrows|]. split; [exact Hcols|]. split.
  - apply (f_equal (@List.length _)) in Hcols.
    now rewrite !length_map in Hcols.
  - intros Hreach. destruct (reachable_consistent s Hreach) as [_ H2 _ _].
    rewrite Hrows, filter_app, filter_none, filter_all; [reflexivity| |].
    + intros r Hin. apply Z.eqb_eq.
      now destruct (columns_in _ _ _ _ Hcols Hin).
    + intros r Hin. apply Z.eqb_neq.
      rewrite Forall_forall in H2. specialize (H2 r Hin).
      pose proof (next_rowid_above_seq (PLAYER s)). lia.
Qed.

(** ** Validation and the partial update *)

Lemma Forall2_map_self {A} (P : A -> A -> Prop) (f : A -> A) (l : list A) :
  (forall a, In a l -> P a (f a)) -> Forall2 P l (map f l).
Proof.
  induction l as [|a l IH]; intros H; simpl; constructor.
  - apply H. now left.
  - apply IH. intros b Hb. apply H. now right.
Qed.

Lemma Forall2_same_column {A B} (f : A -> B) (P : A -> A -> Prop)
    (l l' : list A) :
  (forall a a', P a a' -> f a' = f a) ->
  Forall2 P l l' -> map f l' = map f l.
Proof.
  intros HP. induction 1 as [|a a' l l' Ha _ IH]; [reflexivity|].
  simpl. now rewrite (HP a a' Ha), IH.
Qed.

Lemma updated_rows_partially (s : DB) (data : Data.t) (exercise_id : Z) :
  Forall2 (partially_updated data exercise_id)
          (rows (PLAYER_EXERCISE s)) (updated_rows s data exercise_id).
Proof.
  unfold updated_rows. apply Forall2_map_self. intros r _.
  unfold partially_updated.
  destruct (targets (Data.playerId data) exercise_id r); simpl;
    [|repeat split; reflexivity].
  destruct (set_fields_keys
              (fields_to_update (Data.result data) (Data.rating data)) r)
    as (-> & -> & ->).
  rewrite set_fields_result, set_fields_rating.
  destruct (no_result (Data.result data)), (no_rating (Data.rating data));
    repeat split; reflexivity.
Qed.

(** C5, as amended.  [update_exercise] fails with an InvalidInput error
    exactly when the exercise name is absent or the empty string, or when
    both the result is invalid (absent or "N/A") and the rating is invalid
    (absent or 0).  A call that returns has touched only PLAYER_EXERCISE,
    only rows of that player and exercise, and on them only the columns
    whose value was supplied and valid; with rating 3 and no result the
    result column of every row is as before. *)
Theorem update_exercise_validation (s : DB) (data : Data.t) :
  ((exists err, update_exercise s data = Err err /\ kind err = InvalidInput)
   <->
   falsy (Data.exercise data) = true \/
   (no_result (Data.result data) = true /\
    no_rating (Data.rating data) = true)) /\
  (forall s' out,
     update_exercise s data = Ok (s', out) ->
     PLAYER s' = PLAYER s /\ COACH s' = COACH s /\ TEAM s' = TEAM s /\
     PARENT s' = PARENT s /\ CATEGORY s' = CATEGORY s /\
     PARENT_PLAYER s' = PARENT_PLAYER s /\ EXERCISE s' = EXERCISE s /\
     seq (PLAYER_EXERCISE s') = seq (PLAYER_EXERCISE s) /\
     exists name e,
       Data.exercise data = Some name /\
       find (fun e => (Exercise.name e =? name)%string) (rows (EXERCISE s))
         = Some e /\
       Forall2 (partially_updated data (Exercise.id e))
               (rows (PLAYER_EXERCISE s)) (rows (PLAYER_EXERCISE s'))) /\
  (Data.result data = None -> Data.rating data = Some 3 ->
   forall s' out,
     update_exercise s data = Ok (s', out) ->
     map PlayerExercise.result (rows (PLAYER_EXERCISE s'))
       = map PlayerExercise.result (rows (PLAYER_EXERCISE s))).
Proof.
  assert (Hreturns :
            forall s' out,
              update_exercise s data = Ok (s', out) ->
              PLAYER s' = PLAYER s /\ COACH s' = COACH s /\
              TEAM s' = TEAM s /\ PARENT s' = PARENT s /\
              CATEGORY s' = CATEGORY s /\
              PARENT_PLAYER s' = PARENT_PLAYER s /\
              EXERCISE s' = EXERCISE s /\
              seq (PLAYER_EXERCISE s') = seq (PLAYER_EXERCISE s) /\
              exists name e,
                Data.exercise data = Some name /\
                find (fun e => (Exercise.name e =? name)%string)
                     (rows (EXERCISE s)) = Some e /\
                Forall2 (partially_updated data (Exercise.id e))
                        (rows (PLAYER_EXERCISE s))
                        (rows (PLAYER_EXERCISE s'))).
  { intros s' out Hrun.
    destruct (update_exercise_returns s s' data out Hrun)
      as (name & e & Hname & _ & _ & Hfind & _ & -> & _).
    repeat (split; [reflexivity|]).
    exists name, e. repeat (split; [assumption|]).
    apply updated_rows_partially. }
  split; [|split; [exact Hreturns|]].
  - split.
    + intros (err & Hrun & Hkind).
      destruct (falsy (Data.exercise data)) eqn:Hf; [now left|]. right.
      destruct (no_result (Data.result data)) eqn:Hr,
               (no_rating (Data.rating data)) eqn:Hg; [now split|exfalso..];
        destruct (proj1 (falsy_false _) Hf) as (name & Hname & Hne);
        (destruct (find (fun e => (Exercise.name e =? name)%string)
                        (rows (EXERCISE s))) as [e|] eqn:Hfind;
         [rewrite (update_exercise_statement s data name e Hname Hne) in Hrun
            by (rewrite ?Hr, ?Hg; auto);
          destruct (request_binds data); [destruct (passes_check _ _)|];
          inversion Hrun; subst err; discriminate
         |unfold update_exercise in Hrun;
          rewrite Hf, Hr, Hg, Hname, Hfind in Hrun;
          inversion Hrun; subst err; discriminate]).
    + unfold update_exercise. intros [Hf|[Hr Hg]].
      * rewrite Hf. eexists. split; reflexivity.
      * destruct (falsy (Data.exercise data)); [eexists; split; reflexivity|].
        rewrite Hr, Hg. eexists. split; reflexivity.
  - intros Hres Hrat s' out Hrun.
    destruct (Hreturns s' out Hrun)
      as (_ & _ & _ & _ & _ & _ & _ & _ & name & e & _ & _ & Hrows).
    apply (Forall2_same_column PlayerExercise.result
             (partially_updated data (Exercise.id e))); [|exact Hrows].
    intros r r' (_ & _ & _ & Hr & _). rewrite Hr, Hres. simpl.
    now rewrite andb_false_r.
Qed.

(** ** Linking a child twice *)

Lemma find_map_stable {A} (p : A -> bool) (g : A -> A) (l : list A) :
  (forall a, p (g a) = p a) ->
  find p (map g l) = option_map g (find p l).
Proof.
  intros Hp. induction l as [|a l IH]; [reflexivity|]. simpl.
  rewrite Hp. destruct (p a); [reflexivity|exact IH].
Qed.

(** PARENT_PLAYER has no uniqueness constraint beyond its key, so its
    INSERT OR IGNORE always inserts. *)
Lemma link_always_inserted (parent_id child_id : Z)
    (t : table ParentPlayer.row) :
  rows (insert_or_ignore ParentPlayer.clash
          (fun i => ParentPlayer.Row i parent_id child_id) t)
  = rows t ++ [ParentPlayer.Row (next_rowid t) parent_id child_id].
Proof.
  unfold insert_or_ignore. simpl.
  now rewrite (fresh_key_never_clashes ParentPlayer.clash
                 (fun i => ParentPlayer.Row i parent_id child_id) t).
Qed.

(** Whenever [link_child] succeeds, repeating the call succeeds too and the
    join table has gained two rows for the same (parent, child). *)
Lemma link_child_again (s s1 : DB) (child_username : string) (parent_id : Z) :
  link_child s child_username parent_id = Ok s1 ->
  exists child s2 i1 i2,
    find (fun p => (Player.username p =? child_username)%string)
         (rows (PLAYER s)) = Some child /\
    link_child s1 child_username parent_id = Ok s2 /\
    rows (PARENT_PLAYER s2)
    = rows (PARENT_PLAYER s)
        ++ [ParentPlayer.Row i1 parent_id (Player.id child);
            ParentPlayer.Row i2 parent_id (Player.id child)].
Proof.
  unfold link_child at 1. intros Hrun.
  destruct (find _ (rows (PLAYER s))) as [child|] eqn:Hchild; [|discriminate].
  destruct (find _ (rows (PARENT s))) as [parent|] eqn:Hparent;
    [|discriminate].
  cbn [update_where] in Hrun. inversion Hrun as [Hs1]. clear Hrun Hs1.
  exists child. unfold link_child.
  cbn [PLAYER PARENT PARENT_PLAYER with_PARENT_PLAYER with_PLAYER with_PARENT
       rows seq].
  rewrite find_map_stable, Hchild
    by (intros r; destruct (Player.id r =? Player.id child);
        [destruct r|]; reflexivity).
  cbn [option_map].
  rewrite find_map_stable, Hparent
    by (intros r; destruct (Parent.id r =? parent_id) eqn:E;
        [destruct r; simpl in *; exact E|exact E]).
  cbn [option_map update_where]. rewrite !Z.eqb_refl.
  eexists. eexists. eexists. split; [reflexivity|]. split; [reflexivity|].
  cbn [PARENT_PLAYER with_PARENT_PLAYER].
  rewrite link_always_inserted, link_always_inserted, <- app_assoc.
  destruct child. reflexivity.
Qed.

(** C1, refuted on the code.  After parent 1 and player "kid" register,
    linking the same pair twice succeeds both times and leaves two
    PARENT_PLAYER rows for (parent 1, player 1), not one. *)
Theorem link_child_twice_two_rows :
  exists s1 s2,
    link_child family "kid" 1 = Ok s1 /\
    link_child s1 "kid" 1 = Ok s2 /\
    rows (PARENT_PLAYER s1) = [ParentPlayer.Row 1 1 1] /\
    rows (PARENT_PLAYER s2)
      = [ParentPlayer.Row 1 1 1; ParentPlayer.Row 2 1 1].
Proof.
  eexists. eexists. split; [vm_compute; reflexivity|].
  split; [vm_compute; reflexivity|]. split; reflexivity.
Qed.

(** * Concrete runs *)

(** C2, counterexample.  With player 1 registered, rating 7 for Stepovers
    passes validation, the name resolves and exactly one row matches; yet
    the call returns neither reply: the CHECK constraint makes it raise. *)
Lemma update_exercise_raises_past_validation :
  falsy (Data.exercise (rate_stepovers 7)) = false /\
  no_result (Data.result (rate_stepovers 7))
    && no_rating (Data.rating (rate_stepovers 7)) = false /\
  find (fun e => (Exercise.name e =? "Stepovers")%string)
       (rows (EXERCISE one_player)) = Some stepovers /\
  rowcount one_player (Some 1) (Exercise.id stepovers) = 1 /\
  update_exercise one_player (rate_stepovers 7)
    = Err (IntegrityError (CHECK "rating BETWEEN 1 AND 5")) /\
  ~ (exists s' out, update_exercise one_player (rate_stepovers 7)
                    = Ok (s', out)).
Proof.
  repeat split; try (vm_compute; reflexivity).
  intros (s' & out & H). vm_compute in H. discriminate.
Qed.

(** C3, counterexample.  Two constructions do not leave the state one
    construction leaves: the rows are the same, but the AUTOINCREMENT
    counters of CATEGORY and EXERCISE have moved on, since each ignored
    insert consumed a key. *)
Lemma second_start_moves_counters :
  initialize_times 1 empty = Ok booted /\
  exists s2,
    initialize_times 2 empty = Ok s2 /\
    s2 <> booted /\
    same_rows s2 booted /\
    seq (CATEGORY booted) = 6 /\ seq (CATEGORY s2) = 12 /\
    seq (EXERCISE booted) = 17 /\ seq (EXERCISE s2) = 34.
Proof.
  split; [vm_compute; reflexivity|].
  eexists. split; [vm_compute; reflexivity|].
  split; [discriminate|].
  split; [repeat split|]. repeat split.
Qed.

(** C5, counterexample.  An empty exercise name is present, and result "45"
    and rating 3 are both valid; the call still fails with InvalidInput. *)
Lemma empty_exercise_name_is_invalid_input :
  Data.exercise (Data.Build (Some EmptyString) (Some 1) (Some "45") (Some 3))
    <> None /\
  no_result (Some "45") = false /\
  no_rating (Some 3) = false /\
  update_exercise one_player
    (Data.Build (Some EmptyString) (Some 1) (Some "45") (Some 3))
    = Err (ValueError Exercise_name_required) /\
  kind (ValueError Exercise_name_required) = InvalidInput.
Proof. repeat split; try reflexivity. discriminate. Qed.

(** C8, counterexample.  A call with rating 7 for a player without rows
    does not raise: it returns the no-match reply.  A call with rating 0
    and a result does not raise either, and it changes the row. *)
Lemma bad_rating_need_not_raise :
  update_exercise booted (rate_stepovers 7)
    = Ok (booted, error_ "No matching exercise found for this player.") /\
  exists s',
    update_exercise one_player
      (Data.Build (Some "Stepovers") (Some 1) (Some "45") (Some 0))
      = Ok (s', message "Exercise updated successfully.") /\
    rows (PLAYER_EXERCISE s') <> rows (PLAYER_EXERCISE one_player).
Proof.
  split; [vm_compute; reflexivity|].
  eexists. split; [vm_compute; reflexivity|]. discriminate.
Qed.

(** A rating of 2^63 never reaches the engine: binding it raises, with
    or without a matching row.  So does a birth year of 2^63, whatever
    else the registration offers. *)
Lemma integer_beyond_64_bits_is_refused :
  update_exercise booted (rate_stepovers 9223372036854775808)
    = Err OverflowError /\
  update_exercise one_player (rate_stepovers 9223372036854775808)
    = Err OverflowError /\
  add_user booted (Some "ana") (Some "pw") (Some "ana@x.com") (Some "Ana")
           (Some 9223372036854775808) (Some "ES") "player" None None
    = Err OverflowError /\
  add_user booted None (Some "pw") (Some "ana@x.com") (Some "Ana")
           (Some 9223372036854775808) (Some "ES") "player" None None
    = Err OverflowError.
Proof. repeat split; vm_compute; reflexivity. Qed.

(** A key that names no column of the role's table is refused when the
    statement is compiled, although no row has the id. *)
Lemma unknown_key_refused_without_a_row :
  update_user booted 99 "player" [assign_unknown]
    = Err (OperationalError "no such column") /\
  update_user booted 99 "coach" [assign_number (Some 7)]
    = Err (OperationalError "no such column: number").
Proof. split; vm_compute; reflexivity. Qed.

(** The key [ID] rewrites the primary key: the player is then found under
    the new id and no longer under the old one. *)
Lemma key_ID_moves_the_row :
  exists s' r,
    update_user one_player 1 "player" [assign_id (Some 5)] = Ok s' /\
    get_user s' 1 "player" = Ok None /\
    get_user s' 5 "player" = Ok (Some (player_row r)) /\
    Player.username r = "ana".
Proof.
  eexists. eexists. split; [vm_compute; reflexivity|].
  split; [reflexivity|]. split; reflexivity.
Qed.

(** ** Witnesses *)

(** The email "sam@x.com" is held by a player and by a coach: the player
    is returned.  On a fresh installation nobody is. *)
Lemma get_user_by_email_probe_order_witness :
  (exists r, In r (rows (PLAYER shared_email))
             /\ Player.email r = "sam@x.com") /\
  (exists r, In r (rows (COACH shared_email))
             /\ Coach.email r = "sam@x.com") /\
  (exists u, get_user_by_email shared_email "sam@x.com"
             = (Some (player_row u), Some "player")) /\
  get_user_by_email booted "sam@x.com" = (None, None).
Proof.
  assert (Hp : exists r, In r (rows (PLAYER shared_email))
                         /\ Player.email r = "sam@x.com").
  { eexists. split; [left; reflexivity|reflexivity]. }
  split; [exact Hp|]. split.
  { eexists. split; [left; reflexivity|reflexivity]. }
  split.
  - destruct (proj1 (get_user_by_email_probe_order shared_email "sam@x.com")
                Hp) as (u & _ & _ & Hu).
    exists u. exact Hu.
  - apply (get_user_by_email_probe_order booted "sam@x.com");
      intros r Hin; destruct Hin.
Defined.



(** Player 1 stored the empty string for Stepovers and sees no result. *)
Lemma empty_result_reported_absent_witness :
  In (PlayerExercise.Row 10 1 10 (Some EmptyString) None)
     (rows (PLAYER_EXERCISE blank_result)) /\
  listed "DRI" (Progress.Entry "Stepovers" None None)
         (get_categories_and_exercises_with_ratings blank_result 1).
Proof.
  assert (Hpe : In (PlayerExercise.Row 10 1 10 (Some EmptyString) None)
                   (rows (PLAYER_EXERCISE blank_result))).
  { do 9 right. left. reflexivity. }
  split; [exact Hpe|].
  apply (proj1 (empty_result_reported_absent blank_result 1)
           (Category.Row 4 "DRI") stepovers
           (PlayerExercise.Row 10 1 10 (Some EmptyString) None)).
  - do 3 right. left. reflexivity.
  - do 9 right. left. reflexivity.
  - exact Hpe.
  - reflexivity.
  - reflexivity.
  - reflexivity.
  - reflexivity.
Defined.

(** With player 1 registered, rating 7 for Stepovers is refused by the
    CHECK and the store stays as it was. *)
Lemma ratings_stay_in_range_witness :
  reachable one_player /\
  Forall (fun r => match PlayerExercise.rating r with
                   | None => True
                   | Some v => 1 <= v <= 5
                   end)
         (rows (PLAYER_EXERCISE one_player)) /\
  store_after one_player (update_exercise one_player (rate_stepovers 7)) fst
    = one_player /\
  update_exercise one_player (rate_stepovers 7)
    = Err (IntegrityError (CHECK "rating BETWEEN 1 AND 5")).
Proof.
  split; [exact one_player_reachable|].
  destruct (ratings_stay_in_range one_player one_player_reachable)
    as [Hall Hupdate].
  split; [exact Hall|].
  assert (Hnz : 7 <> 0) by lia.
  assert (Hout : ~ (1 <= 7 <= 5)) by lia.
  destruct (Hupdate (rate_stepovers 7) 7 eq_refl Hnz Hout) as [Hkeep Hcases].
  split; [exact Hkeep|].
  assert (Hname : "Stepovers" <> EmptyString) by discriminate.
  destruct (Hcases "Stepovers" stepovers eq_refl Hname eq_refl)
    as (_ & Hraise & _).
  apply Hraise; reflexivity.
Defined.

(** With player 1 registered, rating 4 for Stepovers meets one row and
    returns the success message. *)
Lemma update_exercise_reply_witness :
  reachable one_player /\
  rowcount one_player (Some 1) (Exercise.id stepovers) = 1 /\
  exists s',
    update_exercise one_player (rate_stepovers 4)
    = Ok (s', message "Exercise updated successfully.").
Proof.
  split; [exact one_player_reachable|]. split; [reflexivity|].
  assert (Hname : "Stepovers" <> EmptyString) by discriminate.
  destruct (update_exercise_reply one_player (rate_stepovers 4) "Stepovers"
              stepovers one_player_reachable eq_refl Hname eq_refl eq_refl)
    as (_ & _ & Hreturns & _).
  destruct (Hreturns eq_refl) as (s' & out & Hrun & Hmsg & _).
  - intros g Hg. inversion Hg. right. left. lia.
  - exists s'. rewrite Hrun. f_equal. f_equal. apply Hmsg. reflexivity.
Defined.

(** Registering the first player on a fresh installation creates that
    player's 17 PLAYER_EXERCISE rows. *)
Lemma add_user_seeds_player_exercises_witness :
  add_user booted (Some "ana") (Some "pw") (Some "ana@x.com") (Some "Ana")
           (Some 2012) (Some "ES") "player" None None = Ok (one_player, 1) /\
  exists news,
    rows (PLAYER_EXERCISE one_player)
      = rows (PLAYER_EXERCISE booted) ++ news /\
    List.length news = 17%nat /\
    filter (fun r => PlayerExercise.player_id r =? 1)
           (rows (PLAYER_EXERCISE one_player)) = news.
Proof.
  assert (Hrun : add_user booted (Some "ana") (Some "pw") (Some "ana@x.com")
                          (Some "Ana") (Some 2012) (Some "ES") "player"
                          None None = Ok (one_player, 1))
    by (vm_compute; reflexivity).
  split; [exact Hrun|].
  destruct (proj1 (add_user_seeds_player_exercises booted one_player
                     (Some "ana") (Some "pw") (Some "ana@x.com") (Some "Ana")
                     (Some 2012) (Some "ES") "player" None None 1 Hrun)
                  eq_refl)
    as (news & Hrows & _ & Hlen & Hall).
  exists news. split; [exact Hrows|]. split; [exact Hlen|].
  exact (Hall booted_reachable).
Defined.

(** Rating 3 alone for Stepovers sets the rating of player 1 and leaves
    every result as it was. *)
Lemma update_exercise_validation_witness :
  Data.result (rate_stepovers 3) = None /\
  Data.rating (rate_stepovers 3) = Some 3 /\
  exists s' out,
    update_exercise one_player (rate_stepovers 3) = Ok (s', out) /\
    map PlayerExercise.result (rows (PLAYER_EXERCISE s'))
      = map PlayerExercise.result (rows (PLAYER_EXERCISE one_player)) /\
    In (PlayerExercise.Row 10 1 10 None (Some 3))
       (rows (PLAYER_EXERCISE s')).
Proof.
  split; [reflexivity|]. split; [reflexivity|].
  eexists. eexists. split; [vm_compute; reflexivity|]. split.
  - apply (proj2 (proj2 (update_exercise_validation one_player
                           (rate_stepovers 3)))
                 eq_refl eq_refl _
                 (message "Exercise updated successfully.")).
    vm_compute. reflexivity.
  - do 9 right. left. reflexivity.
Defined.

(** * Round trips, error cases and invariants *)

(** ** Bootstrap on any store *)

Lemma extends_refl {R} (l : list R) : extends l l.
Proof. exists []. now rewrite app_nil_r. Qed.

Lemma extends_trans {R} (l1 l2 l3 : list R) :
  extends l1 l2 -> extends l2 l3 -> extends l1 l3.
Proof.
  intros (m1 & ->) (m2 & ->). exists (m1 ++ m2). now rewrite app_assoc.
Qed.

Lemma extends_In {R} (l l' : list R) (r : R) :
  extends l l' -> In r l -> In r l'.
Proof. intros (m & ->) Hin. apply in_or_app. now left. Qed.

Lemma extends_existsb {R} (p : R -> bool) (l l' : list R) :
  extends l l' -> existsb p l = true -> existsb p l' = true.
Proof.
  intros (m & ->) H. rewrite existsb_app, H. reflexivity.
Qed.

Lemma extends_find {R} (p : R -> bool) (l l' : list R) (r : R) :
  extends l l' -> find p l = Some r -> find p l' = Some r.
Proof.
  intros (m & ->). induction l as [|a l IH]; simpl; [discriminate|].
  destruct (p a); [auto|exact IH].
Qed.

Lemma insert_or_ignore_extends {R} `{Row R} (clash : R -> R -> bool)
    (mk : Z -> R) (t : table R) :
  extends (rows t) (rows (insert_or_ignore clash mk t)).
Proof.
  destruct (insert_or_ignore_rows clash mk t) as [-> | ->].
  - apply extends_refl.
  - eexists. reflexivity.
Qed.

(** After the category insert, ignored or not, the name has a row. *)
Lemma category_present_after_insert (n : string) (t : table Category.row) :
  existsb (fun c => (Category.name c =? n)%string)
          (rows (insert_or_ignore Category.clash
                   (fun i => Category.Row i n) t)) = true.
Proof.
  unfold insert_or_ignore. simpl.
  destruct (violates Category.clash _ (rows t)) eqn:E.
  - unfold violates in E. apply existsb_exists in E.
    destruct E as (c & Hin & Hc). apply existsb_exists. exists c.
    split; [assumption|]. unfold Category.clash in Hc. simpl in Hc.
    apply orb_prop in Hc. destruct Hc as [Hc|Hc].
    + now rewrite String.eqb_sym.
    + apply Z.eqb_eq in Hc.
      pose proof (next_rowid_above_rows t c Hin) as Hlt. simpl in Hlt. lia.
  - rewrite existsb_app. simpl. rewrite String.eqb_refl.
    now rewrite orb_true_r.
Qed.

Lemma exercise_present_after_insert (category_id : Z) (n : string)
    (t : table Exercise.row) :
  existsb (fun x => (Exercise.category_id x =? category_id)
                    && (Exercise.name x =? n)%string)
          (rows (insert_or_ignore Exercise.clash
                   (fun i => Exercise.Row i category_id n) t)) = true.
Proof.
  unfold insert_or_ignore. simpl.
  destruct (violates Exercise.clash _ (rows t)) eqn:E.
  - unfold violates in E. apply existsb_exists in E.
    destruct E as (x & Hin & Hx). apply existsb_exists. exists x.
    split; [assumption|]. unfold Exercise.clash in Hx. simpl in Hx.
    apply orb_prop in Hx. destruct Hx as [Hx|Hx].
    + apply andb_prop in Hx. destruct Hx as [Hc Hn].
      now rewrite Z.eqb_sym, Hc, String.eqb_sym, Hn.
    + apply Z.eqb_eq in Hx.
      pose proof (next_rowid_above_rows t x Hin) as Hlt. simpl in Hlt. lia.
  - rewrite existsb_app. simpl. rewrite Z.eqb_refl, String.eqb_refl.
    now rewrite orb_true_r.
Qed.

Lemma insert_categories_present (names : list string)
    (t : table Category.row) :
  let t' := fold_left
              (fun t category =>
                 insert_or_ignore Category.clash
                   (fun i => Category.Row i category) t)
              names t in
  extends (rows t) (rows t') /\
  forallb (fun n => existsb (fun c => (Category.name c =? n)%string)
                            (rows t')) names = true.
Proof.
  revert t. induction names as [|n names IH]; intros t; simpl.
  - split; [apply extends_refl|reflexivity].
  - destruct (IH (insert_or_ignore Category.clash
                    (fun i => Category.Row i n) t)) as [Hext Hall].
    split.
    + eapply extends_trans; [apply insert_or_ignore_extends|exact Hext].
    + rewrite Hall, andb_true_r.
      eapply extends_existsb; [exact Hext|].
      apply category_present_after_insert.
Qed.

Lemma insert_exercises_present (category_id : Z) (names : list string)
    (t : table Exercise.row) :
  extends (rows t) (rows (insert_exercises category_id names t)) /\
  forallb
    (fun n => existsb (fun x => (Exercise.category_id x =? category_id)
                                && (Exercise.name x =? n)%string)
                      (rows (insert_exercises category_id names t)))
    names = true.
Proof.
  unfold insert_exercises. revert t.
  induction names as [|n names IH]; intros t; simpl.
  - split; [apply extends_refl|reflexivity].
  - destruct (IH (insert_or_ignore Exercise.clash
                    (fun i => Exercise.Row i category_id n) t))
      as [Hext Hall].
    split.
    + eapply extends_trans; [apply insert_or_ignore_extends|exact Hext].
    + rewrite Hall, andb_true_r.
      eapply extends_existsb; [exact Hext|].
      apply exercise_present_after_insert.
Qed.

Lemma forallb_extends_existsb {A R} (q : A -> R -> bool) (names : list A)
    (l l' : list R) :
  extends l l' ->
  forallb (fun n => existsb (q n) l) names = true ->
  forallb (fun n => existsb (q n) l') names = true.
Proof.
  intros Hext H. apply forallb_forall. intros n Hn.
  rewrite forallb_forall in H.
  eapply extends_existsb; [exact Hext|]. now apply H.
Qed.

Lemma seeded_extends (items : list (string * list string))
    (cs : list Category.row) (es es' : list Exercise.row) :
  extends es es' -> seeded items cs es = true -> seeded items cs es' = true.
Proof.
  intros Hext H. unfold seeded in *. apply forallb_forall.
  intros item Hitem. rewrite forallb_forall in H. specialize (H item Hitem).
  destruct (find _ cs) as [c|]; [|discriminate].
  eapply forallb_extends_existsb
    with (q := fun n x => (Exercise.category_id x =? Category.id c)
                          && (Exercise.name x =? n)%string);
    eassumption.
Qed.

(** The seeding loop never fails once every category of [items] has a row;
    it only adds EXERCISE rows, and afterwards every seed is there. *)
Lemma seed_exercises_total (items : list (string * list string)) (s : DB) :
  forallb (fun item =>
             existsb (fun c => (Category.name c =? fst item)%string)
                     (rows (CATEGORY s))) items = true ->
  exists s',
    seed_exercises items s = Ok s' /\
    PLAYER s' = PLAYER s /\ COACH s' = COACH s /\ TEAM s' = TEAM s /\
    PARENT s' = PARENT s /\ CATEGORY s' = CATEGORY s /\
    PARENT_PLAYER s' = PARENT_PLAYER s /\
    PLAYER_EXERCISE s' = PLAYER_EXERCISE s /\
    extends (rows (EXERCISE s)) (rows (EXERCISE s')) /\
    seeded items (rows (CATEGORY s')) (rows (EXERCISE s')) = true.
Proof.
  revert s. induction items as [|[category names] items IH]; intros s Hcat.
  - exists s. repeat split; try reflexivity. apply extends_refl.
  - simpl in Hcat. apply andb_prop in Hcat. destruct Hcat as [Hc Hcat].
    apply existsb_exists in Hc.
    destruct (find_first (fun c => (Category.name c =? category)%string)
                         (rows (CATEGORY s)) Hc) as (c & Hfind & _).
    simpl. rewrite Hfind.
    destruct (insert_exercises_present (Category.id c) names (EXERCISE s))
      as [Hext Hall].
    destruct (IH (with_EXERCISE s
                    (insert_exercises (Category.id c) names (EXERCISE s))))
      as (s' & Hrun & HP & HC & HT & HPa & HCa & HPP & HPE & Hext' & Hseed).
    { exact Hcat. }
    exists s'. split; [exact Hrun|].
    repeat (split; [assumption|]). split.
    + eapply extends_trans; [exact Hext|exact Hext'].
    + rewrite HCa. simpl. rewrite Hfind.
      rewrite HCa in Hseed. simpl in Hseed. rewrite Hseed, andb_true_r.
      eapply forallb_extends_existsb
        with (q := fun n x => (Exercise.category_id x =? Category.id c)
                              && (Exercise.name x =? n)%string);
        eassumption.
Qed.

(** The bootstrap returns on any store; it only appends to CATEGORY and
    EXERCISE, and the seed rows are present afterwards. *)
Lemma initialize_returns (s : DB) :
  exists s',
    _initialize_database s = Ok s' /\
    rows (PLAYER s') = rows (PLAYER s) /\
    rows (COACH s') = rows (COACH s) /\
    rows (TEAM s') = rows (TEAM s) /\
    rows (PARENT s') = rows (PARENT s) /\
    rows (PARENT_PLAYER s') = rows (PARENT_PLAYER s) /\
    rows (PLAYER_EXERCISE s') = rows (PLAYER_EXERCISE s) /\
    extends (rows (CATEGORY s)) (rows (CATEGORY s')) /\
    extends (rows (EXERCISE s)) (rows (EXERCISE s')) /\
    seeded exercises (rows (CATEGORY s')) (rows (EXERCISE s')) = true.
Proof.
  unfold _initialize_database.
  destruct (insert_categories_present categories (CATEGORY s))
    as [Hext Hall].
  destruct (seed_exercises_total exercises
              (with_CATEGORY s (insert_categories (CATEGORY s))))
    as (s' & Hrun & HP & HC & HT & HPa & HCa & HPP & HPE & Hext' & Hseed).
  { unfold with_CATEGORY. cbn [CATEGORY]. unfold insert_categories.
    rewrite forallb_forall in Hall. apply forallb_forall.
    intros [category names] Hitem. apply Hall.
    change category with (fst (category, names)).
    revert Hitem. generalize (category, names).
    intros item Hitem. cbv in Hitem.
    repeat (destruct Hitem as [<-|Hitem]; [cbv; auto 10|]).
    destruct Hitem. }
  exists s'. split; [exact Hrun|].
  rewrite HP, HC, HT, HPa, HPP, HPE, HCa. cbn.
  repeat (split; [reflexivity|]). split; [exact Hext|].
  split; [exact Hext'|]. rewrite HCa in Hseed. exact Hseed.
Qed.

(** X1.  on any store whatever, the bootstrap returns; it changes no row that
    was there, adds rows to CATEGORY and EXERCISE only, and leaves every
    seed category with all its seed exercises in place. *)
Theorem initialize_never_fails (s : DB) :
  exists s',
    _initialize_database s = Ok s' /\
    rows (PLAYER s') = rows (PLAYER s) /\
    rows (COACH s') = rows (COACH s) /\
    rows (TEAM s') = rows (TEAM s) /\
    rows (PARENT s') = rows (PARENT s) /\
    rows (PARENT_PLAYER s') = rows (PARENT_PLAYER s) /\
    rows (PLAYER_EXERCISE s') = rows (PLAYER_EXERCISE s) /\
    extends (rows (CATEGORY s)) (rows (CATEGORY s')) /\
    extends (rows (EXERCISE s)) (rows (EXERCISE s')) /\
    forall category names,
      In (category, names) exercises -> stored s' category names.
Proof.
  destruct (initialize_returns s)
    as (s' & Hrun & HP & HC & HT & HPa & HPP & HPE & Hc & He & Hseed).
  exists s'. split; [exact Hrun|].
  do 8 (split; [assumption|]).
  intros category names Hitem. unfold seeded in Hseed.
  rewrite forallb_forall in Hseed. specialize (Hseed _ Hitem).
  cbn [fst snd] in Hseed.
  destruct (find _ (rows (CATEGORY s'))) as [c|] eqn:Hfind; [|discriminate].
  apply find_some in Hfind. destruct Hfind as [Hin Hname].
  apply String.eqb_eq in Hname.
  exists c. split; [exact Hin|]. split; [exact Hname|].
  intros n Hn. rewrite forallb_forall in Hseed. specialize (Hseed n Hn).
  apply existsb_exists in Hseed. destruct Hseed as (e & He_in & Hmatch).
  apply andb_prop in Hmatch. destruct Hmatch as [Hid Hn'].
  apply Z.eqb_eq in Hid. apply String.eqb_eq in Hn'.
  exists e. split; [exact He_in|]. split; [exact Hn'|exact Hid].
Qed.

Lemma seeded_categories_present (items : list (string * list string))
    (cs : list Category.row) (es : list Exercise.row) :
  seeded items cs es = true ->
  forallb (fun n => existsb (fun c => (Category.name c =? n)%string) cs)
          (map fst items) = true.
Proof.
  unfold seeded. intros H. apply forallb_forall. intros n Hn.
  apply in_map_iff in Hn. destruct Hn as (item & <- & Hitem).
  rewrite forallb_forall in H. specialize (H item Hitem).
  destruct (find _ cs) as [c|] eqn:Hfind; [|discriminate].
  apply find_some in Hfind. apply existsb_exists. exists c. exact Hfind.
Qed.

(** X2.  a second bootstrap after any bootstrap changes no row. *)
Theorem initialize_twice_same_rows (s s1 : DB) :
  _initialize_database s = Ok s1 ->
  exists s2, _initialize_database s1 = Ok s2 /\ same_rows s2 s1.
Proof.
  intros Hrun.
  destruct (initialize_returns s)
    as (s1' & Hrun' & _ & _ & _ & _ & _ & _ & _ & _ & Hseed).
  rewrite Hrun in Hrun'. inversion Hrun'; subst s1'. clear Hrun'.
  unfold _initialize_database.
  assert (Hcat : rows (insert_categories (CATEGORY s1)) = rows (CATEGORY s1)).
  { apply insert_categories_skips.
    exact (seeded_categories_present exercises _ _ Hseed). }
  destruct (seed_exercises_skips exercises
              (with_CATEGORY s1 (insert_categories (CATEGORY s1))))
    as (s2 & Hrun2 & Hsame).
  - unfold with_CATEGORY. cbn [CATEGORY EXERCISE]. now rewrite Hcat.
  - exists s2. split; [exact Hrun2|].
    unfold same_rows, with_CATEGORY in *.
    cbn [PLAYER COACH TEAM PARENT CATEGORY PARENT_PLAYER EXERCISE
         PLAYER_EXERCISE] in Hsame.
    rewrite Hcat in Hsame. exact Hsame.
Qed.

(** ** Registration *)

Lemma find_fresh {R} `{Row R} (l : list R) (new : R) (i : Z) :
  (forall r, In r l -> rowid r < i) -> rowid new = i ->
  find (fun r => rowid r =? i) (l ++ [new]) = Some new.
Proof.
  intros Hlt Hnew. induction l as [|a l IH]; simpl.
  - now rewrite Hnew, Z.eqb_refl.
  - destruct (Z.eqb_spec (rowid a) i) as [Heq|_].
    + specialize (Hlt a (or_introl eq_refl)). lia.
    + apply IH. intros r Hr. apply Hlt. now right.
Qed.

Lemma player_violates (row : Player.row) (t : table Player.row) :
  Player.id row = next_rowid t ->
  violates Player.clash row (rows t) = true <->
  exists r, In r (rows t) /\
            (Player.username r = Player.username row \/
             Player.email r = Player.email row).
Proof.
  intros Hid. unfold violates. rewrite existsb_exists. split.
  - intros (r & Hin & Hc). exists r. split; [assumption|].
    unfold Player.clash in Hc. apply orb_prop in Hc. destruct Hc as [Hc|Hc].
    + apply orb_prop in Hc. destruct Hc as [Hc|Hc].
      * apply Z.eqb_eq in Hc.
        pose proof (next_rowid_above_rows t r Hin) as Hlt. simpl in Hlt. lia.
      * left. apply String.eqb_eq in Hc. congruence.
    + right. apply String.eqb_eq in Hc. congruence.
  - intros (r & Hin & [Hu|He]); exists r; (split; [assumption|]);
      unfold Player.clash; rewrite ?Hu, ?He, String.eqb_refl;
      now rewrite ?orb_true_r.
Qed.

Lemma coach_violates (row : Coach.row) (t : table Coach.row) :
  Coach.id row = next_rowid t ->
  violates Coach.clash row (rows t) = true <->
  exists r, In r (rows t) /\
            (Coach.username r = Coach.username row \/
             Coach.email r = Coach.email row).
Proof.
  intros Hid. unfold violates. rewrite existsb_exists. split.
  - intros (r & Hin & Hc). exists r. split; [assumption|].
    unfold Coach.clash in Hc. apply orb_prop in Hc. destruct Hc as [Hc|Hc].
    + apply orb_prop in Hc. destruct Hc as [Hc|Hc].
      * apply Z.eqb_eq in Hc.
        pose proof (next_rowid_above_rows t r Hin) as Hlt. simpl in Hlt. lia.
      * left. apply String.eqb_eq in Hc. congruence.
    + right. apply String.eqb_eq in Hc. congruence.
  - intros (r & Hin & [Hu|He]); exists r; (split; [assumption|]);
      unfold Coach.clash; rewrite ?Hu, ?He, String.eqb_refl;
      now rewrite ?orb_true_r.
Qed.

Lemma parent_violates (row : Parent.row) (t : table Parent.row) :
  Parent.id row = next_rowid t ->
  violates Parent.clash row (rows t) = true <->
  exists r, In r (rows t) /\
            (Parent.username r = Parent.username row \/
             Parent.email r = Parent.email row).
Proof.
  intros Hid. unfold violates. rewrite existsb_exists. split.
  - intros (r & Hin & Hc). exists r. split; [assumption|].
    unfold Parent.clash in Hc. apply orb_prop in Hc. destruct Hc as [Hc|Hc].
    + apply orb_prop in Hc. destruct Hc as [Hc|Hc].
      * apply Z.eqb_eq in Hc.
        pose proof (next_rowid_above_rows t r Hin) as Hlt. simpl in Hlt. lia.
      * left. apply String.eqb_eq in Hc. congruence.
    + right. apply String.eqb_eq in Hc. congruence.
  - intros (r & Hin & [Hu|He]); exists r; (split; [assumption|]);
      unfold Parent.clash; rewrite ?Hu, ?He, String.eqb_refl;
      now rewrite ?orb_true_r.
Qed.

(** Binding the parameters of the three INSERT statements. *)
Lemma player_binds (birthYear number team_id : option Z) :
  bind_parameters
    [birthYear; Some (match number with Some n => n | None => 0 end);
     team_id]
  = if registration_binds "player" birthYear number team_id
    then Ok tt else Err OverflowError.
Proof.
  unfold bind_parameters, registration_binds.
  cbn [String.eqb Ascii.eqb Bool.eqb forallb].
  rewrite andb_true_r. destruct number; reflexivity.
Qed.

Lemma coach_binds (birthYear number team_id : option Z) :
  bind_parameters [birthYear; team_id]
  = if registration_binds "coach" birthYear number team_id
    then Ok tt else Err OverflowError.
Proof.
  unfold bind_parameters, registration_binds.
  cbn [String.eqb Ascii.eqb Bool.eqb forallb].
  rewrite andb_true_r. reflexivity.
Qed.

Lemma parent_binds (birthYear number team_id : option Z) :
  bind_parameters [birthYear]
  = if registration_binds "parent" birthYear number team_id
    then Ok tt else Err OverflowError.
Proof.
  unfold bind_parameters, registration_binds.
  cbn [String.eqb Ascii.eqb Bool.eqb forallb]. reflexivity.
Qed.

(** An integer that does not fit stops the registration before any
    constraint is looked at. *)
Lemma add_user_overflows (s : DB)
    (username password email name : option string) (birthYear : option Z)
    (country : option string) (role : string) (number team_id : option Z) :
  valid_role role ->
  registration_binds role birthYear number team_id = false ->
  add_user s username password email name birthYear country role number
           team_id = Err OverflowError.
Proof.
  intros [->|[->| ->]] Hb; unfold add_user;
    cbn [String.eqb Ascii.eqb Bool.eqb];
    [rewrite player_binds|rewrite (coach_binds _ number)
    |rewrite (parent_binds _ number team_id)];
    rewrite Hb; reflexivity.
Qed.

(** The three branches of [add_user] once every integer is bound and no
    argument is NULL. *)
Lemma add_user_player_statement (s : DB) (u p e n : string) (b : Z)
    (c : string) (number team_id : option Z) :
  registration_binds "player" (Some b) number team_id = true ->
  add_user s (Some u) (Some p) (Some e) (Some n) (Some b) (Some c) "player"
           number team_id
  = if violates Player.clash
         (new_player (next_rowid (PLAYER s)) u p e n b c number team_id)
         (rows (PLAYER s))
    then Err (IntegrityError (UNIQUE "PLAYER"))
    else
      pe <- insert_player_exercises (next_rowid (PLAYER s))
              (rows (EXERCISE s)) (PLAYER_EXERCISE s) ;;
      Ok (with_PLAYER_EXERCISE
            (with_PLAYER s
               {| rows := rows (PLAYER s)
                            ++ [new_player (next_rowid (PLAYER s)) u p e n b c
                                           number team_id];
                  seq := next_rowid (PLAYER s) |})
            pe,
          next_rowid (PLAYER s)).
Proof.
  intros Hb. unfold add_user. cbn [String.eqb Ascii.eqb Bool.eqb].
  rewrite player_binds, Hb. unfold insert, new_player.
  cbn [not_null bind].
  destruct (violates Player.clash _ _); reflexivity.
Qed.

Lemma add_user_coach_statement (s : DB) (u p e n : string) (b : Z)
    (c : string) (number team_id : option Z) :
  registration_binds "coach" (Some b) number team_id = true ->
  add_user s (Some u) (Some p) (Some e) (Some n) (Some b) (Some c) "coach"
           number team_id
  = if violates Coach.clash
         (new_coach (next_rowid (COACH s)) u p e n b c team_id)
         (rows (COACH s))
    then Err (IntegrityError (UNIQUE "COACH"))
    else
      Ok (with_COACH s
            {| rows := rows (COACH s)
                         ++ [new_coach (next_rowid (COACH s)) u p e n b c
                                       team_id];
               seq := next_rowid (COACH s) |},
          next_rowid (COACH s)).
Proof.
  intros Hb. unfold add_user. cbn [String.eqb Ascii.eqb Bool.eqb].
  rewrite (coach_binds _ number), Hb. unfold insert, new_coach.
  cbn [not_null bind].
  destruct (violates Coach.clash _ _); reflexivity.
Qed.

Lemma add_user_parent_statement (s : DB) (u p e n : string) (b : Z)
    (c : string) (number team_id : option Z) :
  registration_binds "parent" (Some b) number team_id = true ->
  add_user s (Some u) (Some p) (Some e) (Some n) (Some b) (Some c) "parent"
           number team_id
  = if violates Parent.clash
         (new_parent (next_rowid (PARENT s)) u p e n b c)
         (rows (PARENT s))
    then Err (IntegrityError (UNIQUE "PARENT"))
    else
      Ok (with_PARENT s
            {| rows := rows (PARENT s)
                         ++ [new_parent (next_rowid (PARENT s)) u p e n b c];
               seq := next_rowid (PARENT s) |},
          next_rowid (PARENT s)).
Proof.
  intros Hb. unfold add_user. cbn [String.eqb Ascii.eqb Bool.eqb].
  rewrite (parent_binds _ number team_id), Hb. unfold insert, new_parent.
  cbn [not_null bind].
  destruct (violates Parent.clash _ _); reflexivity.
Qed.

(** With a valid role and its integers bound, the only failures left are
    the store's constraints. *)
Lemma add_user_valid_role_errors (s : DB)
    (username password email name : option string) (birthYear : option Z)
    (country : option string) (role : string) (number team_id : option Z)
    (err : error) :
  valid_role role ->
  registration_binds role birthYear number team_id = true ->
  add_user s username password email name birthYear country role number
           team_id = Err err ->
  exists c, err = IntegrityError c.
Proof.
  intros [->|[->| ->]] Hb H; unfold add_user in H;
    cbn [String.eqb Ascii.eqb Bool.eqb] in H;
    [rewrite player_binds in H|rewrite (coach_binds _ number) in H
    |rewrite (parent_binds _ number team_id) in H];
    rewrite Hb in H; cbn [bind] in H;
    destruct username, password, email, name, birthYear, country;
    cbn [not_null bind] in H;
    try (inversion H; eexists; reflexivity);
    unfold insert in H;
    destruct (violates _ _ _);
    try (inversion H; eexists; reflexivity); cbn [bind] in H;
    try discriminate.
  destruct (insert_player_exercises_appends
              (next_rowid (PLAYER s)) (rows (EXERCISE s))
              (PLAYER_EXERCISE s)) as (t' & news & Ht & _).
  rewrite Ht in H. discriminate.
Qed.

(** A registration that returns has bound its integers. *)
Lemma add_user_returns_bound (s s' : DB)
    (username password email name : option string) (birthYear : option Z)
    (country : option string) (role : string) (number team_id : option Z)
    (user_id : Z) :
  add_user s username password email name birthYear country role number
           team_id = Ok (s', user_id) ->
  registration_binds role birthYear number team_id = true.
Proof.
  intros Hrun.
  destruct (registration_binds role birthYear number team_id) eqn:Hb;
    [reflexivity|].
  assert (Hvalid : valid_role role).
  { destruct (add_user_returns _ _ _ _ _ _ _ _ _ _ _ _ Hrun)
      as [[-> _]|[[-> _]|[-> _]]]; unfold valid_role; auto. }
  rewrite (add_user_overflows s username password email name birthYear
             country role number team_id Hvalid Hb) in Hrun.
  discriminate.
Qed.

(** X3.  [add_user] raises the invalid-role ValueError exactly when the
    role is none of "player", "coach", "parent", whatever the other
    arguments.  With a valid role it raises [OverflowError] exactly when
    one of the integers its INSERT binds does not fit in 64 bits: the
    birth year, the team id for a player or a coach, the number for a
    player. *)
Theorem add_user_role_check (s : DB)
    (username password email name : option string) (birthYear : option Z)
    (country : option string) (role : string) (number team_id : option Z) :
  (add_user s username password email name birthYear country role number
            team_id = Err (ValueError Invalid_role)
   <-> ~ valid_role role) /\
  (valid_role role ->
   (add_user s username password email name birthYear country role number
             team_id = Err OverflowError
    <-> registration_binds role birthYear number team_id = false)).
Proof.
  split.
  - split.
    + intros H Hvalid.
      destruct (registration_binds role birthYear number team_id) eqn:Hb.
      * destruct (add_user_valid_role_errors _ _ _ _ _ _ _ _ _ _ _
                    Hvalid Hb H) as (c & Hc).
        discriminate.
      * rewrite (add_user_overflows _ _ _ _ _ _ _ _ _ _ Hvalid Hb) in H.
        discriminate.
    + unfold valid_role, add_user. intros Hnot.
      destruct (String.eqb_spec role "player"); [tauto|].
      destruct (String.eqb_spec role "coach"); [tauto|].
      destruct (String.eqb_spec role "parent"); [tauto|]. reflexivity.
  - intros Hvalid. split.
    + intros H.
      destruct (registration_binds role birthYear number team_id) eqn:Hb;
        [|reflexivity].
      destruct (add_user_valid_role_errors _ _ _ _ _ _ _ _ _ _ _
                  Hvalid Hb H) as (c & Hc).
      discriminate.
    + apply add_user_overflows. exact Hvalid.
Qed.

(** X4.  With a valid role, with the integers its INSERT binds fitting
    in 64 bits and with keys left in the tables it inserts into, a missing
    (None) username, password, email, name, birth year or country makes
    [add_user] fail with a NOT NULL integrity error.  (The counters of the
    model never run out; the hypothesis on the keys keeps the statement to
    the stores where those of the engine have not.) *)
Theorem add_user_required_fields (s : DB)
    (username password email name : option string) (birthYear : option Z)
    (country : option string) (role : string) (number team_id : option Z) :
  valid_role role ->
  registration_binds role birthYear number team_id = true ->
  registration_room s role ->
  username = None \/ password = None \/ email = None \/ name = None \/
  birthYear = None \/ country = None ->
  exists column,
    add_user s username password email name birthYear country role number
             team_id = Err (IntegrityError (NOT_NULL column)).
Proof.
  intros [->|[->| ->]] Hb _ Hnone; unfold add_user;
    cbn [String.eqb Ascii.eqb Bool.eqb];
    [rewrite player_binds|rewrite (coach_binds _ number)
    |rewrite (parent_binds _ number team_id)];
    rewrite Hb; cbn [bind];
    destruct username, password, email, name, birthYear, country;
    cbn [not_null bind];
    try (eexists; reflexivity);
    exfalso; repeat (destruct Hnone as [Hnone|Hnone]; try discriminate).
Qed.

(** X5.  With a valid role, every required field given, the integers its
    INSERT binds fitting in 64 bits and keys left in the tables it inserts
    into, [add_user] succeeds exactly when no row of that role's own table
    holds the username or the email; otherwise it fails with a uniqueness
    violation.  Rows of the other two roles never matter.  (The hypothesis
    on the keys is there as in X4.) *)
Theorem add_user_succeeds_iff_free (s : DB)
    (username password email name : string) (birthYear : Z)
    (country role : string) (number team_id : option Z) :
  valid_role role ->
  registration_binds role (Some birthYear) number team_id = true ->
  registration_room s role ->
  (taken s role username email ->
   exists table_name,
     add_user s (Some username) (Some password) (Some email) (Some name)
              (Some birthYear) (Some country) role number team_id
     = Err (IntegrityError (UNIQUE table_name))) /\
  (~ taken s role username email ->
   exists s' user_id,
     add_user s (Some username) (Some password) (Some email) (Some name)
              (Some birthYear) (Some country) role number team_id
     = Ok (s', user_id)).
Proof.
  unfold taken. intros [->|[->| ->]] Hb _; split.
  - intros [[_ H]|[[H _]|[H _]]]; try discriminate.
    rewrite add_user_player_statement by exact Hb.
    replace (violates Player.clash _ _) with true; [eexists; reflexivity|].
    symmetry. apply player_violates; [reflexivity|exact H].
  - intros Hfree. rewrite add_user_player_statement by exact Hb.
    destruct (violates Player.clash _ _) eqn:E.
    + exfalso. apply Hfree. left. split; [reflexivity|].
      apply player_violates in E; [exact E|reflexivity].
    + destruct (insert_player_exercises_appends
                  (next_rowid (PLAYER s)) (rows (EXERCISE s))
                  (PLAYER_EXERCISE s)) as (t' & news & -> & _).
      eexists. eexists. reflexivity.
  - intros [[H _]|[[_ H]|[H _]]]; try discriminate.
    rewrite add_user_coach_statement by exact Hb.
    replace (violates Coach.clash _ _) with true; [eexists; reflexivity|].
    symmetry. apply coach_violates; [reflexivity|exact H].
  - intros Hfree. rewrite add_user_coach_statement by exact Hb.
    destruct (violates Coach.clash _ _) eqn:E.
    + exfalso. apply Hfree. right. left. split; [reflexivity|].
      apply coach_violates in E; [exact E|reflexivity].
    + eexists. eexists. reflexivity.
  - intros [[H _]|[[H _]|[_ H]]]; try discriminate.
    rewrite add_user_parent_statement by exact Hb.
    replace (violates Parent.clash _ _) with true; [eexists; reflexivity|].
    symmetry. apply parent_violates; [reflexivity|exact H].
  - intros Hfree. rewrite add_user_parent_statement by exact Hb.
    destruct (violates Parent.clash _ _) eqn:E.
    + exfalso. apply Hfree. right. right. split; [reflexivity|].
      apply parent_violates in E; [exact E|reflexivity].
    + eexists. eexists. reflexivity.
Qed.

(** X6.  Round trip: after a successful registration, [get_user] with the
    returned id and the same role reads back the row just stored: the
    given fields, [number] defaulted to 0 for a player, the picture and the
    denormalized parent, coach, team and child columns NULL. *)
Theorem add_user_then_get_user (s s' : DB)
    (username password email name : string) (birthYear : Z)
    (country role : string) (number team_id : option Z) (user_id : Z) :
  add_user s (Some username) (Some password) (Some email) (Some name)
           (Some birthYear) (Some country) role number team_id
    = Ok (s', user_id) ->
  get_user s' user_id role
    = Ok (Some (registered user_id username password email name birthYear
                           country role number team_id)).
Proof.
  intros Hrun.
  pose proof (add_user_returns_bound _ _ _ _ _ _ _ _ _ _ _ _ Hrun)
    as Hbinds.
  unfold get_user, registered.
  destruct (String.eqb_spec role "player") as [->|Hp];
    [|destruct (String.eqb_spec role "coach") as [->|Hc];
      [|destruct (String.eqb_spec role "parent") as [->|Hpa]]].
  - rewrite add_user_player_statement in Hrun by exact Hbinds.
    destruct (violates Player.clash _ _); [discriminate|].
    destruct (insert_player_exercises _ _ _) as [pe|]; [|discriminate].
    inversion Hrun; subst. cbn [PLAYER with_PLAYER_EXERCISE with_PLAYER rows].
    replace (find _ _)
      with (Some (new_player (next_rowid (PLAYER s)) username password email
                           name birthYear country number team_id));
      [reflexivity|].
    symmetry.
    exact (find_fresh (rows (PLAYER s))
             (new_player (next_rowid (PLAYER s)) username password email name
                 birthYear country number team_id)
             (next_rowid (PLAYER s))
             (next_rowid_above_rows (PLAYER s)) eq_refl).
  - rewrite add_user_coach_statement in Hrun by exact Hbinds.
    destruct (violates Coach.clash _ _); [discriminate|].
    inversion Hrun; subst. cbn [COACH with_COACH rows].
    replace (find _ _)
      with (Some (new_coach (next_rowid (COACH s)) username password email
                          name birthYear country team_id));
      [reflexivity|].
    symmetry.
    exact (find_fresh (rows (COACH s))
             (new_coach (next_rowid (COACH s)) username password email name
                 birthYear country team_id)
             (next_rowid (COACH s))
             (next_rowid_above_rows (COACH s)) eq_refl).
  - rewrite add_user_parent_statement in Hrun by exact Hbinds.
    destruct (violates Parent.clash _ _); [discriminate|].
    inversion Hrun; subst. cbn [PARENT with_PARENT rows].
    replace (find _ _)
      with (Some (new_parent (next_rowid (PARENT s)) username password email
                           name birthYear country));
      [reflexivity|].
    symmetry.
    exact (find_fresh (rows (PARENT s))
             (new_parent (next_rowid (PARENT s)) username password email name
                 birthYear country)
             (next_rowid (PARENT s))
             (next_rowid_above_rows (PARENT s)) eq_refl).
  - exfalso. unfold add_user in Hrun.
    apply String.eqb_neq in Hp, Hc, Hpa. rewrite Hp, Hc, Hpa in Hrun.
    discriminate.
Qed.

Lemma find_last {A} (p : A -> bool) (l : list A) (new : A) :
  (forall a, In a l -> p a = false) -> p new = true ->
  find p (l ++ [new]) = Some new.
Proof.
  intros Hno Hnew. induction l as [|a l IH]; simpl.
  - now rewrite Hnew.
  - rewrite (Hno a (or_introl eq_refl)). apply IH.
    intros b Hb. apply Hno. now right.
Qed.

(** X7.  Round trip by email.  A player just registered is found by
    [get_user_by_email] under the registration email, with role "player".
    A coach just registered is found when no player holds that email, and
    a parent when neither a player nor a coach does; when a player does
    hold it, the lookup keeps answering with that player. *)
Theorem add_user_then_get_user_by_email (s s' : DB)
    (username password email name : string) (birthYear : Z)
    (country role : string) (number team_id : option Z) (user_id : Z) :
  add_user s (Some username) (Some password) (Some email) (Some name)
           (Some birthYear) (Some country) role number team_id
    = Ok (s', user_id) ->
  (role = "player" ->
   get_user_by_email s' email
   = (Some (registered user_id username password email name birthYear
                       country role number team_id), Some "player")) /\
  (role = "coach" ->
   (forall r, In r (rows (PLAYER s)) -> Player.email r <> email) ->
   get_user_by_email s' email
   = (Some (registered user_id username password email name birthYear
                       country role number team_id), Some "coach")) /\
  (role = "parent" ->
   (forall r, In r (rows (PLAYER s)) -> Player.email r <> email) ->
   (forall r, In r (rows (COACH s)) -> Coach.email r <> email) ->
   get_user_by_email s' email
   = (Some (registered user_id username password email name birthYear
                       country role number team_id), Some "parent")) /\
  (role <> "player" ->
   forall r,
     find (fun r => (Player.email r =? email)%string) (rows (PLAYER s))
       = Some r ->
     get_user_by_email s' email = (Some (player_row r), Some "player")).
Proof.
  intros Hrun.
  pose proof (add_user_returns_bound _ _ _ _ _ _ _ _ _ _ _ _ Hrun)
    as Hbinds.
  unfold get_user_by_email, registered. repeat split.
  - intros ->. rewrite add_user_player_statement in Hrun by exact Hbinds.
    destruct (violates Player.clash _ _) eqn:E; [discriminate|].
    destruct (insert_player_exercises _ _ _) as [pe|]; [|discriminate].
    inversion Hrun; subst. cbn [PLAYER with_PLAYER_EXERCISE with_PLAYER rows].
    rewrite find_last; [reflexivity| |apply String.eqb_refl].
    intros r Hr. apply String.eqb_neq. intros Heq.
    assert (Hv : violates Player.clash
                   (new_player (next_rowid (PLAYER s)) username password
                               email name birthYear country number team_id)
                   (rows (PLAYER s)) = true).
    { apply player_violates; [reflexivity|]. exists r. auto. }
    congruence.
  - intros -> Hno. rewrite add_user_coach_statement in Hrun by exact Hbinds.
    destruct (violates Coach.clash _ _) eqn:E; [discriminate|].
    inversion Hrun; subst. cbn [PLAYER COACH with_COACH rows].
    rewrite find_absent
      by (intros r Hr; apply String.eqb_neq; now apply Hno).
    rewrite find_last; [reflexivity| |apply String.eqb_refl].
    intros r Hr. apply String.eqb_neq. intros Heq.
    assert (Hv : violates Coach.clash
                   (new_coach (next_rowid (COACH s)) username password
                              email name birthYear country team_id)
                   (rows (COACH s)) = true).
    { apply coach_violates; [reflexivity|]. exists r. auto. }
    congruence.
  - intros -> Hnop Hnoc.
    rewrite add_user_parent_statement in Hrun by exact Hbinds.
    destruct (violates Parent.clash _ _) eqn:E; [discriminate|].
    inversion Hrun; subst. cbn [PLAYER COACH PARENT with_PARENT rows].
    rewrite find_absent
      by (intros r Hr; apply String.eqb_neq; now apply Hnop).
    rewrite find_absent
      by (intros r Hr; apply String.eqb_neq; now apply Hnoc).
    rewrite find_last; [reflexivity| |apply String.eqb_refl].
    intros r Hr. apply String.eqb_neq. intros Heq.
    assert (Hv : violates Parent.clash
                   (new_parent (next_rowid (PARENT s)) username password
                               email name birthYear country)
                   (rows (PARENT s)) = true).
    { apply parent_violates; [reflexivity|]. exists r. auto. }
    congruence.
  - intros Hrole r Hfind.
    apply add_user_returns in Hrun.
    destruct Hrun as [(Hp & _)|[(_ & t & ->)|(_ & t & ->)]];
      [contradiction| |]; cbn [PLAYER with_COACH with_PARENT];
      now rewrite Hfind.
Qed.

(** ** Teams *)


(** A [create_team] that returns has found neither the name nor the coach
    in TEAM and has appended the new row. *)
Lemma create_team_returns (s s' : DB) (team_name : string) (coach_id : Z) :
  create_team s team_name coach_id = Ok s' ->
  (forall t, In t (rows (TEAM s)) ->
             Team.name t <> team_name /\ Team.coach_id t <> coach_id) /\
  s' = with_TEAM s
         {| rows := rows (TEAM s)
                      ++ [Team.Row (next_rowid (TEAM s)) team_name coach_id];
            seq := next_rowid (TEAM s) |}.
Proof.
  unfold create_team. intros Hrun.
  destruct (find (fun t => (Team.name t =? team_name)%string)
                 (rows (TEAM s))) eqn:Hname; [discriminate|].
  destruct (find (fun t => Team.coach_id t =? coach_id) (rows (TEAM s)))
    eqn:Hcoach; [discriminate|].
  rewrite (team_insert_succeeds s team_name coach_id Hname) in Hrun.
  cbn [bind] in Hrun. inversion Hrun. split; [|reflexivity].
  intros t Hin. split.
  - apply String.eqb_neq. exact (find_none _ _ Hname t Hin).
  - apply Z.eqb_neq. exact (find_none _ _ Hcoach t Hin).
Qed.


(** X9.  [create_team] does not look the coach up: it succeeds for a coach
    id that no COACH row carries, and as long as no such coach exists every
    [join_team] to that team raises "Coach not found". *)
Theorem team_without_coach_cannot_be_joined (s s' : DB) (team_name : string)
    (coach_id player_id : Z) :
  create_team s team_name coach_id = Ok s' ->
  (forall c, In c (rows (COACH s)) -> Coach.id c <> coach_id) ->
  join_team s' team_name player_id = Err (ValueError Coach_not_found).
Proof.
  intros Hrun Hno. apply create_team_returns in Hrun.
  destruct Hrun as [Hfree ->]. unfold join_team.
  cbn [TEAM COACH with_TEAM rows].
  rewrite find_last; [|intros t Hin; apply String.eqb_neq; now apply Hfree
                      |apply String.eqb_refl].
  cbn [Team.coach_id].
  rewrite find_absent; [reflexivity|].
  intros c Hin. apply Z.eqb_neq. now apply Hno.
Qed.


(** X11.  Round trip: when [join_team] returns, the team and its coach were
    found; [get_user] then shows the player with the team's id as team_id
    and the coach's name and email as coach and coachEmail, every other
    column as before (the team-name column included); other players and
    all other tables are untouched. *)
Theorem join_team_then_get_user (s s' : DB) (team_name : string)
    (player_id : Z) :
  join_team s team_name player_id = Ok s' ->
  exists team coach,
    find (fun t => (Team.name t =? team_name)%string) (rows (TEAM s))
      = Some team /\
    find (fun c => Coach.id c =? Team.coach_id team) (rows (COACH s))
      = Some coach /\
    (forall p, get_user s player_id "player" = Ok (Some (player_row p)) ->
               get_user s' player_id "player"
               = Ok (Some (player_row
                             (joined (Team.id team) (Coach.name coach)
                                     (Coach.email coach) p)))) /\
    (forall other, other <> player_id ->
                   get_user s' other "player" = get_user s other "player") /\
    COACH s' = COACH s /\ TEAM s' = TEAM s /\ PARENT s' = PARENT s /\
    CATEGORY s' = CATEGORY s /\ PARENT_PLAYER s' = PARENT_PLAYER s /\
    EXERCISE s' = EXERCISE s /\ PLAYER_EXERCISE s' = PLAYER_EXERCISE s.
Proof.
  unfold join_team. intros Hrun.
  destruct (find _ (rows (TEAM s))) as [team|] eqn:Hteam; [|discriminate].
  destruct (find _ (rows (COACH s))) as [coach|] eqn:Hcoach; [|discriminate].
  cbn [update_where] in Hrun. inversion Hrun. subst s'. clear Hrun.
  exists team, coach.
  split; [first [reflexivity|exact Hteam]|].
  split; [first [reflexivity|exact Hcoach]|].
  split; [|split; [|repeat split]].
  - intros p Hp. unfold get_user in *. cbn [String.eqb Ascii.eqb Bool.eqb] in *.
    cbn [PLAYER with_PLAYER rows].
    rewrite find_map_stable
      by (intros r; destruct (Player.id r =? player_id) eqn:E;
          [destruct r; simpl in *; exact E|exact E]).
    destruct (find _ (rows (PLAYER s))) as [r|] eqn:Hr; [|discriminate].
    inversion Hp; subst p. cbn [option_map].
    apply find_some in Hr. destruct Hr as [_ Hr]. rewrite Hr. reflexivity.
  - intros other Hother. unfold get_user.
    cbn [String.eqb Ascii.eqb Bool.eqb PLAYER with_PLAYER rows].
    rewrite find_map_stable
      by (intros r; destruct (Player.id r =? player_id) eqn:E;
          [destruct r; simpl in *; reflexivity|reflexivity]).
    destruct (find _ (rows (PLAYER s))) as [r|] eqn:Hr; [|reflexivity].
    cbn [option_map]. apply find_some in Hr. destruct Hr as [_ Hr].
    apply Z.eqb_eq in Hr.
    destruct (Z.eqb_spec (Player.id r) player_id); [congruence|reflexivity].
Qed.

(** ** What a call leaves alone *)

(** Only the bootstrap writes CATEGORY and EXERCISE, and only [create_team]
    writes TEAM. *)
Lemma run_leaves_alone (s s' : DB) (c : call) :
  run s c = Ok s' ->
  (c = initialize \/ (CATEGORY s' = CATEGORY s /\ EXERCISE s' = EXERCISE s)) /\
  ((exists team_name coach_id, c = createTeam team_name coach_id) \/
   rows (TEAM s') = rows (TEAM s)).
Proof.
  intros Hrun.
  destruct c; [rewrite run_initialize in Hrun|cbn [run] in Hrun..].
  - split; [now left|right].
    destruct (initialize_returns s) as (s1 & H1 & _ & _ & HT & _).
    rewrite Hrun in H1. inversion H1; subst s1. exact HT.
  - destruct (add_user _ _ _ _ _ _ _ _ _ _) as [[s1 u]|] eqn:E;
      [|discriminate].
    inversion Hrun; subst s1. apply add_user_returns in E.
    destruct E as [(_ & row & pe & _ & _ & _ & ->)
                  |[(_ & t & ->)|(_ & t & ->)]]; auto.
  - unfold update_user in Hrun.
    destruct (role =? "player")%string;
      [|destruct (role =? "coach")%string;
        [|destruct (role =? "parent")%string; [|discriminate]]];
      destruct (update_each _ _ _ _ _ _ _) as [t|]; try discriminate;
      inversion Hrun; auto.
  - inversion Hrun. auto.
  - split; [right|left; eauto].
    apply create_team_returns in Hrun. destruct Hrun as [_ ->]. auto.
  - destruct (update_exercise s data) as [[s1 out]|] eqn:E; [|discriminate].
    inversion Hrun; subst s1. apply update_exercise_returns in E.
    destruct E as (name & e & _ & _ & _ & _ & _ & -> & _). auto.
  - unfold join_team in Hrun.
    destruct (find _ _); [|discriminate].
    destruct (find _ _); [|discriminate].
    inversion Hrun. auto.
  - unfold link_child in Hrun.
    destruct (find _ _); [|discriminate].
    destruct (find _ _); [|discriminate].
    inversion Hrun. auto.
Qed.

(** ** Reference data *)

Lemma initialize_keeps_seeds (s s' : DB) :
  rows (CATEGORY s) = rows (CATEGORY booted) ->
  rows (EXERCISE s) = rows (EXERCISE booted) ->
  _initialize_database s = Ok s' ->
  rows (CATEGORY s') = rows (CATEGORY s) /\
  rows (EXERCISE s') = rows (EXERCISE s).
Proof.
  intros Hc He Hrun. rewrite initialize_statement in Hrun.
  assert (Hcat : rows (insert_categories (CATEGORY s)) = rows (CATEGORY s)).
  { apply insert_categories_skips. rewrite Hc. vm_compute. reflexivity. }
  destruct (seed_exercises_skips exercises
              (with_CATEGORY s (insert_categories (CATEGORY s))))
    as (s1 & Hrun1 & Hsame).
  - unfold with_CATEGORY. cbn [CATEGORY EXERCISE]. rewrite Hcat, Hc, He.
    vm_compute. reflexivity.
  - rewrite Hrun in Hrun1. inversion Hrun1; subst s1.
    unfold same_rows, with_CATEGORY in Hsame.
    cbn [PLAYER COACH TEAM PARENT CATEGORY PARENT_PLAYER EXERCISE
         PLAYER_EXERCISE] in Hsame.
    rewrite Hcat in Hsame. tauto.
Qed.

Lemma reachable_reference_rows (s : DB) :
  reachable s ->
  rows (CATEGORY s) = rows (CATEGORY booted) /\
  rows (EXERCISE s) = rows (EXERCISE booted).
Proof.
  induction 1 as [s Hboot|s c s' _ IH Hrun].
  - rewrite boot_empty in Hboot. inversion Hboot. auto.
  - destruct IH as [Hc He].
    destruct (run_leaves_alone s s' c Hrun) as [[-> |[Hc' He']] _].
    + rewrite run_initialize in Hrun.
      destruct (initialize_keeps_seeds s s' Hc He Hrun) as [Hc' He'].
      split; congruence.
    + rewrite Hc', He'. auto.
Qed.

(** X12.  The reference data never changes: in every reachable store
    CATEGORY and EXERCISE hold exactly the rows the first bootstrap wrote
    (six categories, seventeen exercises), so every later bootstrap
    returns without changing a row. *)
Theorem reference_data_fixed (s : DB) :
  reachable s ->
  rows (CATEGORY s) = rows (CATEGORY booted) /\
  rows (EXERCISE s) = rows (EXERCISE booted) /\
  map Exercise.name (rows (EXERCISE s)) = seed_names /\
  exists s', _initialize_database s = Ok s' /\ same_rows s' s.
Proof.
  intros Hreach.
  pose proof (reachable_reference_rows s Hreach) as Hfixed.
  destruct Hfixed as [Hc He]. split; [exact Hc|]. split; [exact He|]. split.
  - rewrite He. reflexivity.
  - destruct (initialize_returns s)
      as (s' & Hrun & HP & HCo & HT & HPa & HPP & HPE & _).
    exists s'. split; [exact Hrun|].
    destruct (initialize_keeps_seeds s s' Hc He Hrun) as [Hc' He'].
    unfold same_rows. tauto.
Qed.

(** X13.  In a reachable store an exercise name resolves exactly when it is
    one of the seventeen seed names; so a call of [update_exercise] that
    passes validation raises "Exercise ... not found" exactly for the other
    names. *)
Theorem update_exercise_unknown_name (s : DB) (data : Data.t)
    (name : string) :
  reachable s ->
  Data.exercise data = Some name -> name <> EmptyString ->
  no_result (Data.result data) && no_rating (Data.rating data) = false ->
  (update_exercise s data = Err (ValueError (Exercise_not_found name)) <->
   ~ In name seed_names).
Proof.
  intros Hreach Hname Hne Hvalid.
  destruct (reachable_reference_rows s Hreach) as [_ Hex].
  assert (Hnames : map Exercise.name (rows (EXERCISE s)) = seed_names)
    by (rewrite Hex; reflexivity).
  rewrite <- Hnames.
  destruct (find (fun e => (Exercise.name e =? name)%string)
                 (rows (EXERCISE s))) as [e|] eqn:Hfind.
  - rewrite (update_exercise_statement s data name e Hname Hne Hvalid Hfind).
    apply find_some in Hfind. destruct Hfind as [Hin He].
    apply String.eqb_eq in He. split.
    + destruct (request_binds data); [destruct (passes_check _ _)|];
        discriminate.
    + intros Hnot. exfalso. apply Hnot. apply in_map_iff. eauto.
  - split.
    + intros _ Hin. apply in_map_iff in Hin. destruct Hin as (e & He & Hin).
      pose proof (find_none _ _ Hfind e Hin) as Hf. simpl in Hf.
      apply String.eqb_neq in Hf. congruence.
    + intros _. unfold update_exercise.
      assert (Hf : falsy (Data.exercise data) = false)
        by (apply falsy_false; eauto).
      rewrite Hf, Hvalid, Hname, Hfind. reflexivity.
Qed.

(** ** One team per coach *)

(** X14.  In every reachable store no two teams share a name and no two
    share a coach, and every team is the one [get_team_by_coach] returns
    for its coach. *)
Theorem one_team_per_coach (s : DB) :
  reachable s ->
  NoDup (map Team.name (rows (TEAM s))) /\
  NoDup (map Team.coach_id (rows (TEAM s))) /\
  (forall t, In t (rows (TEAM s)) ->
             get_team_by_coach s (Team.coach_id t) = Some (Team.name t)).
Proof.
  intros Hreach.
  assert (Hnd : NoDup (map Team.name (rows (TEAM s))) /\
                NoDup (map Team.coach_id (rows (TEAM s)))).
  { induction Hreach as [s Hboot|s c s' _ IH Hrun].
    - rewrite boot_empty in Hboot. inversion Hboot. simpl.
      split; constructor.
    - destruct (run_leaves_alone s s' c Hrun)
        as [_ [(team_name & coach_id & ->)|Hsame]].
      + simpl in Hrun. apply create_team_returns in Hrun.
        destruct Hrun as [Hfree ->]. cbn [TEAM with_TEAM rows].
        destruct IH as [Hn Hc]. rewrite !map_app. simpl.
        split;
          (apply NoDup_app;
           [assumption|repeat constructor; simpl; tauto|]);
          intros x Hx [<-|[]]; apply in_map_iff in Hx;
          destruct Hx as (t & Ht & Hin); destruct (Hfree t Hin); congruence.
      + rewrite Hsame. exact IH. }
  destruct Hnd as [Hn Hc]. split; [exact Hn|]. split; [exact Hc|].
  intros t Hin. unfold get_team_by_coach.
  destruct (find_first (fun x => Team.coach_id x =? Team.coach_id t)
                       (rows (TEAM s))) as (u & -> & Hu & Heq).
  { exists t. split; [assumption|apply Z.eqb_refl]. }
  apply Z.eqb_eq in Heq. simpl. f_equal.
  clear Hn. induction (rows (TEAM s)) as [|a l IH]; [destruct Hin|].
  simpl in Hc. inversion Hc as [|? ? Hnot Hc']; subst.
  destruct Hin as [->|Hin], Hu as [->|Hu]; try reflexivity.
  - exfalso. apply Hnot. rewrite <- Heq. now apply in_map.
  - exfalso. apply Hnot. rewrite Heq. now apply in_map.
  - now apply IH.
Qed.

(** ** Linking *)


(** A [link_child] that returns, spelled out. *)
Lemma link_child_returns (s s' : DB) (child_username : string)
    (parent_id : Z) :
  link_child s child_username parent_id = Ok s' ->
  exists child parent,
    find (fun p => (Player.username p =? child_username)%string)
         (rows (PLAYER s)) = Some child /\
    find (fun p => Parent.id p =? parent_id) (rows (PARENT s)) = Some parent /\
    rows (PLAYER s')
    = map (fun p => if Player.id p =? Player.id child
                    then with_parent (Parent.name parent) (Parent.email parent)
                                     p
                    else p)
          (rows (PLAYER s)) /\
    rows (PARENT s')
    = map (fun p => if Parent.id p =? parent_id
                    then with_child (Player.name child) (Player.email child) p
                    else p)
          (rows (PARENT s)) /\
    rows (PARENT_PLAYER s')
    = rows (PARENT_PLAYER s)
        ++ [ParentPlayer.Row (next_rowid (PARENT_PLAYER s)) parent_id
                             (Player.id child)] /\
    seq (PLAYER s') = seq (PLAYER s) /\ seq (PARENT s') = seq (PARENT s) /\
    COACH s' = COACH s /\ TEAM s' = TEAM s /\ CATEGORY s' = CATEGORY s /\
    EXERCISE s' = EXERCISE s /\ PLAYER_EXERCISE s' = PLAYER_EXERCISE s.
Proof.
  unfold link_child. intros Hrun.
  destruct (find _ (rows (PLAYER s))) as [child|] eqn:Hc; [|discriminate].
  destruct (find _ (rows (PARENT s))) as [parent|] eqn:Hp; [|discriminate].
  cbn [update_where] in Hrun. inversion Hrun. subst s'. clear Hrun.
  exists child, parent.
  split; [first [reflexivity|exact Hc]|].
  split; [first [reflexivity|exact Hp]|].
  cbn [PLAYER PARENT PARENT_PLAYER COACH TEAM CATEGORY EXERCISE
       PLAYER_EXERCISE with_PARENT_PLAYER with_PLAYER with_PARENT rows seq].
  rewrite link_always_inserted. repeat split.
Qed.

(** X16.  When [link_child] returns, [get_user] shows the parent with the
    child's name and email as child_name and child_email, and the child
    with the parent's name and email as parent and parentEmail, every other
    column of both as before; PARENT_PLAYER has gained exactly one row,
    (parent id, child id), with a fresh key. *)
Theorem link_child_then_get_user (s s' : DB) (child_username : string)
    (parent_id : Z) :
  link_child s child_username parent_id = Ok s' ->
  exists child parent,
    find (fun p => (Player.username p =? child_username)%string)
         (rows (PLAYER s)) = Some child /\
    get_user s parent_id "parent" = Ok (Some (parent_row parent)) /\
    get_user s' parent_id "parent"
    = Ok (Some (parent_row (with_child (Player.name child)
                                       (Player.email child) parent))) /\
    (forall p, get_user s (Player.id child) "player"
               = Ok (Some (player_row p)) ->
               get_user s' (Player.id child) "player"
               = Ok (Some (player_row (with_parent (Parent.name parent)
                                                   (Parent.email parent) p))))
    /\
    exists i,
      (forall l, In l (rows (PARENT_PLAYER s)) -> ParentPlayer.id l < i) /\
      rows (PARENT_PLAYER s')
      = rows (PARENT_PLAYER s)
          ++ [ParentPlayer.Row i parent_id (Player.id child)].
Proof.
  intros Hrun. apply link_child_returns in Hrun.
  destruct Hrun as (child & parent & Hc & Hp & Hplayers & Hparents & Hlinks
                    & _).
  exists child, parent. split; [exact Hc|].
  unfold get_user. cbn [String.eqb Ascii.eqb Bool.eqb].
  rewrite Hp, Hplayers, Hparents. split; [reflexivity|]. split; [|split].
  - rewrite find_map_stable
      by (intros r; destruct (Parent.id r =? parent_id) eqn:E;
          [destruct r; simpl in *; exact E|exact E]).
    rewrite Hp. cbn [option_map]. apply find_some in Hp.
    destruct Hp as [_ Hp]. now rewrite Hp.
  - intros p Hget.
    rewrite find_map_stable
      by (intros r; destruct (Player.id r =? Player.id child) eqn:E;
          [destruct r; simpl in *; exact E|exact E]).
    destruct (find (fun r => Player.id r =? Player.id child)
                   (rows (PLAYER s))) as [r|] eqn:Hr; [|discriminate].
    inversion Hget. subst. cbn [option_map]. apply find_some in Hr.
    destruct Hr as [_ Hr]. now rewrite Hr.
  - exists (next_rowid (PARENT_PLAYER s)). split; [|exact Hlinks].
    intros l Hl. exact (next_rowid_above_rows (PARENT_PLAYER s) l Hl).
Qed.

(** ** Deleting a player *)



(** ** Profile updates *)

Section UpdateById.
Context {R : Type} `{Row R}.
Variable clash : R -> R -> bool.
Variable table_name : string.
Variable id : Z.

Lemma mapM_Forall2 {A B} (f : A -> result B) (l : list A) (l' : list B) :
  mapM f l = Ok l' -> Forall2 (fun a b => f a = Ok b) l l'.
Proof.
  revert l'. induction l as [|a l IH]; intros l' Hrun; simpl in Hrun.
  - inversion Hrun. constructor.
  - destruct (f a) as [b|] eqn:Hb; [|discriminate]. cbn [bind] in Hrun.
    destruct (mapM f l) as [bs|]; [|discriminate]. cbn [bind] in Hrun.
    inversion Hrun. constructor; auto.
Qed.

(** A statement that returns was compiled, bound and run. *)
Lemma update_by_id_runs (prepared : result unit) (value : option Z)
    (f : R -> result R) (l l' : list R) :
  update_by_id clash table_name id prepared value f l = Ok l' ->
  prepared = Ok tt /\ bindable value = true /\
  rewrite_by_id clash table_name id f l = Ok l'.
Proof.
  unfold update_by_id, bind_parameters. cbn [forallb].
  rewrite andb_true_r.
  destruct prepared as [[]|]; [|discriminate]. cbn [bind].
  destruct (bindable value); [|discriminate]. cbn [bind]. auto.
Qed.

(** Rows with another key are left as they are, position by position. *)
Lemma rewrite_by_id_others (f : R -> result R) (l l' : list R) :
  rewrite_by_id clash table_name id f l = Ok l' ->
  Forall2 (fun r r' => rowid r <> id -> r' = r) l l'.
Proof.
  unfold rewrite_by_id. intros Hrun. apply mapM_Forall2 in Hrun.
  eapply Forall2_impl; [|exact Hrun]. simpl. intros r r' Hr Hne.
  apply Z.eqb_neq in Hne. rewrite Hne in Hr. now inversion Hr.
Qed.

(** The first row with the key is rewritten by [f]; when [f] keeps the key
    it is still the first such row. *)
Lemma rewrite_by_id_first (f : R -> result R) (l l' : list R) (r : R) :
  (forall a a', f a = Ok a' -> rowid a' = rowid a) ->
  find (fun r => rowid r =? id) l = Some r ->
  rewrite_by_id clash table_name id f l = Ok l' ->
  exists r', f r = Ok r' /\ find (fun r => rowid r =? id) l' = Some r'.
Proof.
  unfold rewrite_by_id. intros Hkeep Hfind Hrun.
  apply mapM_Forall2 in Hrun. revert Hfind.
  induction Hrun as [|a a' k k' Ha _ IH]; intros Hfind; [discriminate|].
  simpl in Hfind. simpl. destruct (rowid a =? id) eqn:E.
  - inversion Hfind; subst a.
    destruct (f r) as [r'|] eqn:Hf; [|discriminate]. cbn [bind] in Ha.
    destruct (violates clash r' _); [discriminate|]. inversion Ha; subst a'.
    exists r'. split; [reflexivity|].
    now rewrite (Hkeep r r' Hf), E.
  - inversion Ha; subst a'. rewrite E. now apply IH.
Qed.
End UpdateById.

Lemma Forall2_length_eq {A B} (P : A -> B -> Prop) (l : list A) (l' : list B) :
  Forall2 P l l' -> List.length l' = List.length l.
Proof. induction 1; simpl; congruence. Qed.

Lemma Forall2_compose {A} (P : A -> A -> Prop) (l1 l2 l3 : list A) :
  (forall a b c, P a b -> P b c -> P a c) ->
  Forall2 P l1 l2 -> Forall2 P l2 l3 -> Forall2 P l1 l3.
Proof.
  intros Htrans H12. revert l3.
  induction H12 as [|a b l1 l2 Hab _ IH]; intros l3 H23;
    inversion H23; subst; constructor; eauto.
Qed.

Lemma Forall2_same {A} (P : A -> A -> Prop) (l : list A) :
  (forall a, P a a) -> Forall2 P l l.
Proof. intros HP. induction l; constructor; auto. Qed.

(** The whole loop: counter kept, rows with another key kept in place. *)
Lemma update_each_others {R} `{Row R} (clash : R -> R -> bool)
    (table_name : string) (prepare : assignment -> result unit)
    (assign : assignment -> R -> result R) (id : Z)
    (kwargs : list assignment) (t t' : table R) :
  update_each clash table_name prepare assign id kwargs t = Ok t' ->
  seq t' = seq t /\
  Forall2 (fun r r' => rowid r <> id -> r' = r) (rows t) (rows t').
Proof.
  intros Hrun. split; [exact (update_each_seq _ _ _ _ _ _ _ _ Hrun)|].
  revert t Hrun. unfold update_each.
  induction kwargs as [|a kwargs IH]; intros t Hrun.
  - inversion Hrun. apply Forall2_same. auto.
  - simpl in Hrun.
    destruct (update_by_id clash table_name id (prepare a) (offered a)
                           (assign a) (rows t))
      as [l|e] eqn:Hl; cbn [bind] in Hrun.
    + apply IH in Hrun. cbn [rows] in Hrun.
      apply update_by_id_runs in Hl. destruct Hl as (_ & _ & Hl).
      apply rewrite_by_id_others in Hl.
      eapply Forall2_compose; [|exact Hl|exact Hrun].
      intros x y z Hxy Hyz Hne. specialize (Hxy Hne). subst y.
      exact (Hyz Hne).
    + rewrite (fold_left_Err
                 (fun t a =>
                    l <- update_by_id clash table_name id (prepare a)
                           (offered a) (assign a) (rows t) ;;
                    Ok {| rows := l; seq := seq t |})) in Hrun.
      discriminate.
Qed.

Lemma update_each_first {R} `{Row R} (clash : R -> R -> bool)
    (table_name : string) (prepare : assignment -> result unit)
    (assign : assignment -> R -> result R) (id : Z)
    (kwargs : list assignment) (t t' : table R) (r : R) :
  (forall a x x', keeps_id a = true -> assign a x = Ok x' ->
                  rowid x' = rowid x) ->
  forallb keeps_id kwargs = true ->
  find (fun r => rowid r =? id) (rows t) = Some r ->
  update_each clash table_name prepare assign id kwargs t = Ok t' ->
  exists r', apply_all assign kwargs r = Ok r' /\
             find (fun r => rowid r =? id) (rows t') = Some r'.
Proof.
  intros Hkeep. unfold update_each, apply_all. revert t r.
  induction kwargs as [|a kwargs IH]; intros t r Hall Hfind Hrun.
  - inversion Hrun; subst t'. exists r. auto.
  - simpl in Hall. apply andb_prop in Hall. destruct Hall as [Ha Hall].
    simpl in Hrun. simpl.
    destruct (update_by_id clash table_name id (prepare a) (offered a)
                           (assign a) (rows t))
      as [l|e] eqn:Hl; cbn [bind] in Hrun.
    + apply update_by_id_runs in Hl. destruct Hl as (_ & _ & Hl).
      destruct (rewrite_by_id_first clash table_name id (assign a) (rows t)
                  l r (fun x x' => Hkeep a x x' Ha) Hfind Hl)
        as (r1 & Hr1 & Hf1).
      rewrite Hr1.
      exact (IH {| rows := l; seq := seq t |} r1 Hall Hf1 Hrun).
    + rewrite (fold_left_Err
                 (fun t a =>
                    l <- update_by_id clash table_name id (prepare a)
                           (offered a) (assign a) (rows t) ;;
                    Ok {| rows := l; seq := seq t |})) in Hrun.
      discriminate.
Qed.

Lemma player_assign_keeps_id (a : assignment) (x x' : Player.row) :
  keeps_id a = true -> Player.assign a x = Ok x' -> Player.id x' = Player.id x.
Proof.
  destruct x. destruct a as [v|v|v|v|v|v|v|v|v|v|v|v|v|v|v|v|v|v|v|v|];
    simpl; intros Hk Ha; try discriminate; try destruct v;
    simpl in Ha; inversion Ha; reflexivity.
Qed.

Lemma coach_assign_keeps_id (a : assignment) (x x' : Coach.row) :
  keeps_id a = true -> Coach.assign a x = Ok x' -> Coach.id x' = Coach.id x.
Proof.
  destruct x. destruct a as [v|v|v|v|v|v|v|v|v|v|v|v|v|v|v|v|v|v|v|v|];
    simpl; intros Hk Ha; try discriminate; try destruct v;
    simpl in Ha; inversion Ha; reflexivity.
Qed.

Lemma parent_assign_keeps_id (a : assignment) (x x' : Parent.row) :
  keeps_id a = true -> Parent.assign a x = Ok x' ->
  Parent.id x' = Parent.id x.
Proof.
  destruct x. destruct a as [v|v|v|v|v|v|v|v|v|v|v|v|v|v|v|v|v|v|v|v|];
    simpl; intros Hk Ha; try discriminate; try destruct v;
    simpl in Ha; inversion Ha; reflexivity.
Qed.

(** A successful [update_user], by role. *)
Lemma update_user_returns (s s' : DB) (id : Z) (role : string)
    (kwargs : list assignment) :
  update_user s id role kwargs = Ok s' ->
  (role = "player" /\
   exists t, update_each Player.clash "PLAYER" Player.prepare Player.assign id
                         kwargs (PLAYER s) = Ok t /\ s' = with_PLAYER s t) \/
  (role = "coach" /\
   exists t, update_each Coach.clash "COACH" Coach.prepare Coach.assign id
                         kwargs (COACH s) = Ok t /\ s' = with_COACH s t) \/
  (role = "parent" /\
   exists t, update_each Parent.clash "PARENT" Parent.prepare Parent.assign id
                         kwargs (PARENT s) = Ok t /\ s' = with_PARENT s t).
Proof.
  unfold update_user. intros Hrun.
  destruct (String.eqb_spec role "player") as [->|_];
    [left|destruct (String.eqb_spec role "coach") as [->|_];
      [right; left|destruct (String.eqb_spec role "parent") as [->|_];
        [right; right|discriminate]]];
    (split; [reflexivity|]);
    destruct (update_each _ _ _ _ _ _ _) as [t|]; try discriminate;
    inversion Hrun; eauto.
Qed.

(** X18.  Round trip, for pairs whose keys are identifiers: when
    [update_user] returns and no key resolves to the id column (as [ID]
    or [rowid] would), [get_user] with the same id and role reads back the
    row that was there with the pairs applied in order. *)
Theorem update_user_then_get_user (s s' : DB) (id : Z) (role : string)
    (kwargs : list assignment) :
  forallb keeps_id kwargs = true ->
  update_user s id role kwargs = Ok s' ->
  (forall r, get_user s id role = Ok (Some (player_row r)) ->
             exists r', apply_all Player.assign kwargs r = Ok r' /\
                        get_user s' id role = Ok (Some (player_row r'))) /\
  (forall r, get_user s id role = Ok (Some (coach_row r)) ->
             exists r', apply_all Coach.assign kwargs r = Ok r' /\
                        get_user s' id role = Ok (Some (coach_row r'))) /\
  (forall r, get_user s id role = Ok (Some (parent_row r)) ->
             exists r', apply_all Parent.assign kwargs r = Ok r' /\
                        get_user s' id role = Ok (Some (parent_row r'))).
Proof.
  intros Hall Hrun. apply update_user_returns in Hrun.
  destruct Hrun as [(-> & t & Ht & ->)|[(-> & t & Ht & ->)|(-> & t & Ht & ->)]];
    unfold get_user; cbn [String.eqb Ascii.eqb Bool.eqb];
    cbn [PLAYER COACH PARENT with_PLAYER with_COACH with_PARENT];
    (split; [|split]); intros r Hget;
    match type of Hget with
    | Ok (option_map _ (find ?p ?l)) = _ =>
        destruct (find p l) as [x|] eqn:Hx;
        [|discriminate]; inversion Hget; subst
    end.
  - destruct (@update_each_first Player.row Player_Row Player.clash "PLAYER"
                Player.prepare Player.assign id kwargs (PLAYER s) t r
                player_assign_keeps_id Hall Hx Ht)
      as (r' & Hr' & Hf).
    exists r'. split; [exact Hr'|].
    change (find (fun r0 => Player.id r0 =? id) (rows t)) with
      (find (fun r0 => rowid r0 =? id) (rows t)).
    now rewrite Hf.
  - destruct (@update_each_first Coach.row Coach_Row Coach.clash "COACH"
                Coach.prepare Coach.assign id kwargs (COACH s) t r
                coach_assign_keeps_id Hall Hx Ht)
      as (r' & Hr' & Hf).
    exists r'. split; [exact Hr'|].
    change (find (fun r0 => Coach.id r0 =? id) (rows t)) with
      (find (fun r0 => rowid r0 =? id) (rows t)).
    now rewrite Hf.
  - destruct (@update_each_first Parent.row Parent_Row Parent.clash "PARENT"
                Parent.prepare Parent.assign id kwargs (PARENT s) t r
                parent_assign_keeps_id Hall Hx Ht)
      as (r' & Hr' & Hf).
    exists r'. split; [exact Hr'|].
    change (find (fun r0 => Parent.id r0 =? id) (rows t)) with
      (find (fun r0 => rowid r0 =? id) (rows t)).
    now rewrite Hf.
Qed.

(** What [update_user] leaves alone, row by row. *)
Lemma update_user_rows (s s' : DB) (id : Z) (role : string)
    (kwargs : list assignment) :
  update_user s id role kwargs = Ok s' ->
  valid_role role /\
  Forall2 (fun r r' => Player.id r <> id -> r' = r)
          (rows (PLAYER s)) (rows (PLAYER s')) /\
  Forall2 (fun r r' => Coach.id r <> id -> r' = r)
          (rows (COACH s)) (rows (COACH s')) /\
  Forall2 (fun r r' => Parent.id r <> id -> r' = r)
          (rows (PARENT s)) (rows (PARENT s')) /\
  seq (PLAYER s') = seq (PLAYER s) /\ seq (COACH s') = seq (COACH s) /\
  seq (PARENT s') = seq (PARENT s) /\
  (role <> "player" -> PLAYER s' = PLAYER s) /\
  (role <> "coach" -> COACH s' = COACH s) /\
  (role <> "parent" -> PARENT s' = PARENT s) /\
  TEAM s' = TEAM s /\ CATEGORY s' = CATEGORY s /\
  PARENT_PLAYER s' = PARENT_PLAYER s /\ EXERCISE s' = EXERCISE s /\
  PLAYER_EXERCISE s' = PLAYER_EXERCISE s.
Proof.
  intros Hrun. apply update_user_returns in Hrun.
  assert (Hsame : forall {R} (l : list R) (P : R -> Prop),
             Forall2 (fun r r' => P r -> r' = r) l l)
    by (intros R l P; apply Forall2_same; auto).
  destruct Hrun as [(-> & t & Ht & ->)|[(-> & t & Ht & ->)|(-> & t & Ht & ->)]];
    apply update_each_others in Ht; destruct Ht as [Hseq Hrows];
    unfold valid_role;
    cbn [PLAYER COACH PARENT TEAM CATEGORY PARENT_PLAYER EXERCISE
         PLAYER_EXERCISE with_PLAYER with_COACH with_PARENT];
    repeat (split; [first [tauto|reflexivity|exact Hrows|exact Hseq
                          |apply Hsame|congruence]|]);
    reflexivity.
Qed.

Lemma Forall2_kept {A} (P : A -> Prop) (l l' : list A) :
  Forall2 (fun r r' => P r -> r' = r) l l' ->
  List.length l' = List.length l /\
  forall r, In r l -> P r -> In r l'.
Proof.
  induction 1 as [|a a' l l' Ha _ [IHlen IHin]]; [split; [reflexivity|]|].
  - intros r [].
  - split; [simpl; congruence|].
    intros r [->|Hin] Hr; [left; exact (Ha Hr)|right; now apply IHin].
Qed.

(** X19.  For pairs whose keys are identifiers (the pairs of the model; a
    key that is SQL text is outside it): when [update_user] returns, the
    role was valid, each person table has as many rows as before and
    still holds every row that had another id, unchanged; no counter has
    moved; the person tables of the other two roles and the five other
    tables are as they were. *)
Theorem update_user_frame (s s' : DB) (id : Z) (role : string)
    (kwargs : list assignment) :
  update_user s id role kwargs = Ok s' ->
  valid_role role /\
  (List.length (rows (PLAYER s')) = List.length (rows (PLAYER s)) /\
   forall r, In r (rows (PLAYER s)) -> Player.id r <> id ->
             In r (rows (PLAYER s'))) /\
  (List.length (rows (COACH s')) = List.length (rows (COACH s)) /\
   forall r, In r (rows (COACH s)) -> Coach.id r <> id ->
             In r (rows (COACH s'))) /\
  (List.length (rows (PARENT s')) = List.length (rows (PARENT s)) /\
   forall r, In r (rows (PARENT s)) -> Parent.id r <> id ->
             In r (rows (PARENT s'))) /\
  seq (PLAYER s') = seq (PLAYER s) /\ seq (COACH s') = seq (COACH s) /\
  seq (PARENT s') = seq (PARENT s) /\
  (role <> "player" -> PLAYER s' = PLAYER s) /\
  (role <> "coach" -> COACH s' = COACH s) /\
  (role <> "parent" -> PARENT s' = PARENT s) /\
  TEAM s' = TEAM s /\ CATEGORY s' = CATEGORY s /\
  PARENT_PLAYER s' = PARENT_PLAYER s /\ EXERCISE s' = EXERCISE s /\
  PLAYER_EXERCISE s' = PLAYER_EXERCISE s.
Proof.
  intros Hrun.
  destruct (update_user_rows s s' id role kwargs Hrun)
    as (Hvalid & HP & HC & HPa & Hrest).
  split; [exact Hvalid|].
  split; [exact (Forall2_kept (fun r => Player.id r <> id) _ _ HP)|].
  split; [exact (Forall2_kept (fun r => Coach.id r <> id) _ _ HC)|].
  split; [exact (Forall2_kept (fun r => Parent.id r <> id) _ _ HPa)|].
  exact Hrest.
Qed.

Lemma mapM_Err {A B} (f : A -> result B) (l : list A) (e : error) :
  mapM f l = Err e -> exists a, In a l /\ f a = Err e.
Proof.
  induction l as [|a l IH]; simpl; [discriminate|].
  destruct (f a) as [b|e'] eqn:Ha; cbn [bind].
  - destruct (mapM f l) as [bs|e'] eqn:Hl; cbn [bind]; [discriminate|].
    intros H. inversion H; subst e'. destruct (IH eq_refl) as (x & Hx & Hfx).
    eauto.
  - intros H. inversion H; subst e'. eauto.
Qed.

(** Inside the loop only the engine complains. *)
Lemma update_each_errors {R} `{Row R} (clash : R -> R -> bool)
    (table_name : string) (prepare : assignment -> result unit)
    (assign : assignment -> R -> result R) (id : Z)
    (kwargs : list assignment) (t : table R) (e : error) :
  (forall a e, prepare a = Err e -> kind e = StoreError) ->
  (forall a x e, assign a x = Err e -> kind e = StoreError) ->
  update_each clash table_name prepare assign id kwargs t = Err e ->
  kind e = StoreError \/ kind e = UniquenessViolation.
Proof.
  intros Hprepare Hassign. unfold update_each. revert t.
  induction kwargs as [|a kwargs IH]; intros t Hrun; [discriminate|].
  simpl in Hrun.
  destruct (update_by_id clash table_name id (prepare a) (offered a)
                           (assign a) (rows t))
    as [l|e'] eqn:Hl; cbn [bind] in Hrun.
  - exact (IH _ Hrun).
  - rewrite (fold_left_Err
               (fun t a =>
                  l <- update_by_id clash table_name id (prepare a)
                         (offered a) (assign a) (rows t) ;;
                  Ok {| rows := l; seq := seq t |})) in Hrun.
    inversion Hrun; subst e'. unfold update_by_id in Hl.
    destruct (prepare a) as [[]|e'] eqn:Hp; cbn [bind] in Hl;
      [|inversion Hl; subst e'; left; exact (Hprepare a e Hp)].
    destruct (bind_parameters [offered a]) as [[]|e'] eqn:Hb;
      cbn [bind] in Hl.
    2: { unfold bind_parameters in Hb.
         destruct (forallb bindable [offered a]); [discriminate|].
         inversion Hb; subst e'. inversion Hl; subst e. now left. }
    unfold rewrite_by_id in Hl.
    apply mapM_Err in Hl. destruct Hl as (x & _ & Hx).
    destruct (rowid x =? id); [|discriminate].
    destruct (assign a x) as [x'|e'] eqn:Ha; cbn [bind] in Hx.
    + destruct (violates clash x' _); inversion Hx. now right.
    + inversion Hx; subst e'. left. exact (Hassign a x e Ha).
Qed.

Lemma player_prepare_errors (a : assignment) (e : error) :
  Player.prepare a = Err e -> kind e = StoreError.
Proof.
  destruct a; simpl; intros Ha; inversion Ha; reflexivity.
Qed.

Lemma player_assign_errors (a : assignment) (x : Player.row) (e : error) :
  Player.assign a x = Err e -> kind e = StoreError.
Proof.
  destruct a as [v|v|v|v|v|v|v|v|v|v|v|v|v|v|v|v|v|v|v|v|];
    simpl; try destruct v; simpl; intros Ha; inversion Ha; reflexivity.
Qed.

Lemma coach_prepare_errors (a : assignment) (e : error) :
  Coach.prepare a = Err e -> kind e = StoreError.
Proof.
  destruct a; simpl; intros Ha; inversion Ha; reflexivity.
Qed.

Lemma coach_assign_errors (a : assignment) (x : Coach.row) (e : error) :
  Coach.assign a x = Err e -> kind e = StoreError.
Proof.
  destruct a as [v|v|v|v|v|v|v|v|v|v|v|v|v|v|v|v|v|v|v|v|];
    simpl; try destruct v; simpl; intros Ha; inversion Ha; reflexivity.
Qed.

Lemma parent_prepare_errors (a : assignment) (e : error) :
  Parent.prepare a = Err e -> kind e = StoreError.
Proof.
  destruct a; simpl; intros Ha; inversion Ha; reflexivity.
Qed.

Lemma parent_assign_errors (a : assignment) (x : Parent.row) (e : error) :
  Parent.assign a x = Err e -> kind e = StoreError.
Proof.
  destruct a as [v|v|v|v|v|v|v|v|v|v|v|v|v|v|v|v|v|v|v|v|];
    simpl; try destruct v; simpl; intros Ha; inversion Ha; reflexivity.
Qed.

(** X20.  [update_user] fails with InvalidInput exactly when the role is none
    of "player", "coach", "parent", before any statement runs and whatever
    the pairs; with a valid role and no pair it returns and changes
    nothing. *)
Theorem update_user_role_check (s : DB) (id : Z) (role : string)
    (kwargs : list assignment) :
  ((exists e, update_user s id role kwargs = Err e /\ kind e = InvalidInput)
   <-> ~ valid_role role) /\
  (valid_role role -> update_user s id role [] = Ok s).
Proof.
  unfold valid_role. split; [split|].
  - intros (e & Hrun & Hkind) Hvalid. unfold update_user in Hrun.
    destruct Hvalid as [->|[->| ->]];
      cbn [String.eqb Ascii.eqb Bool.eqb] in Hrun;
      destruct (update_each _ _ _ _ _ _ _) as [t|e'] eqn:Ht;
      cbn [bind] in Hrun; try discriminate; inversion Hrun; subst e'.
    + destruct (update_each_errors _ _ _ _ _ _ _ _ player_prepare_errors
                  player_assign_errors Ht);
        congruence.
    + destruct (update_each_errors _ _ _ _ _ _ _ _ coach_prepare_errors
                  coach_assign_errors Ht);
        congruence.
    + destruct (update_each_errors _ _ _ _ _ _ _ _ parent_prepare_errors
                  parent_assign_errors Ht);
        congruence.
  - intros Hnot. unfold update_user.
    destruct (String.eqb_spec role "player"); [tauto|].
    destruct (String.eqb_spec role "coach"); [tauto|].
    destruct (String.eqb_spec role "parent"); [tauto|].
    eexists. split; reflexivity.
  - intros [->|[->| ->]]; unfold update_user, update_each;
      cbn [String.eqb Ascii.eqb Bool.eqb fold_left bind].
    + destruct s as [[] ? ? ? ? ? ? ?]. reflexivity.
    + destruct s as [? [] ? ? ? ? ? ?]. reflexivity.
    + destruct s as [? ? ? [] ? ? ? ?]. reflexivity.
Qed.

(** ** The progress report, continued *)












Lemma reachable_category_exists (s : DB) (e : Exercise.row) :
  reachable s -> In e (rows (EXERCISE s)) ->
  exists c, In c (rows (CATEGORY s)) /\ Category.id c = Exercise.category_id e.
Proof.
  intros Hreach Hin. destruct (reachable_reference_rows s Hreach) as [Hc He].
  rewrite Hc. rewrite He in Hin.
  assert (Hall : forallb
                   (fun e => existsb (fun c => Category.id c
                                               =? Exercise.category_id e)
                                     (rows (CATEGORY booted)))
                   (rows (EXERCISE booted)) = true)
    by (vm_compute; reflexivity).
  rewrite forallb_forall in Hall. specialize (Hall e Hin).
  apply existsb_exists in Hall. destruct Hall as (c & Hcin & Hid).
  exists c. split; [exact Hcin|now apply Z.eqb_eq].
Qed.

Lemma NoDup_map_eq {A B} (f : A -> B) (l : list A) (a b : A) :
  NoDup (map f l) -> In a l -> In b l -> f a = f b -> a = b.
Proof.
  induction l as [|x l IH]; intros Hnd Ha Hb Hf; [destruct Ha|].
  inversion Hnd as [|? ? Hnot Hnd']; subst.
  destruct Ha as [->|Ha], Hb as [->|Hb]; [reflexivity| | |now apply IH].
  - exfalso. apply Hnot. rewrite Hf. now apply in_map.
  - exfalso. apply Hnot. rewrite <- Hf. now apply in_map.
Qed.

(** X23.  Round trip: in a reachable store, after [update_exercise] has
    returned its success message for player p and exercise n, the store
    held exactly one PLAYER_EXERCISE row of p for the exercise row that n
    resolved to, and the report of p lists n under that exercise's
    category with the supplied rating when one was supplied (else the
    rating of that row) and with the supplied result when one was supplied
    (else the result of that row), falsy values shown as None. *)
Theorem update_exercise_then_report (s s' : DB) (data : Data.t)
    (player_id : Z) (name : string) :
  reachable s ->
  Data.playerId data = Some player_id ->
  Data.exercise data = Some name ->
  update_exercise s data = Ok (s', message "Exercise updated successfully.") ->
  exists e c old,
    find (fun e => (Exercise.name e =? name)%string) (rows (EXERCISE s))
      = Some e /\
    In c (rows (CATEGORY s)) /\ Category.id c = Exercise.category_id e /\
    In old (rows (PLAYER_EXERCISE s)) /\
    PlayerExercise.player_id old = player_id /\
    PlayerExercise.exercise_id old = Exercise.id e /\
    (forall other,
       In other (rows (PLAYER_EXERCISE s)) ->
       PlayerExercise.player_id other = player_id ->
       PlayerExercise.exercise_id other = Exercise.id e ->
       other = old) /\
    listed (Category.name c)
      (Progress.Entry name
         (text_or_None (if no_result (Data.result data)
                        then PlayerExercise.result old
                        else Data.result data))
         (if no_rating (Data.rating data)
          then int_or_None (PlayerExercise.rating old)
          else Data.rating data))
      (get_categories_and_exercises_with_ratings s' player_id).
Proof.
  intros Hreach Hpid Hname Hrun.
  destruct (update_exercise_returns s s' data _ Hrun)
    as (name' & e & Hname' & _ & _ & Hfind & _ & Hs' & Hout).
  rewrite Hname in Hname'. inversion Hname'; subst name'. clear Hname'.
  destruct (0 <? rowcount s (Data.playerId data) (Exercise.id e)) eqn:Hcount;
    [clear Hout|discriminate].
  apply Z.ltb_lt in Hcount. unfold rowcount in Hcount.
  destruct (filter (targets (Data.playerId data) (Exercise.id e))
                   (rows (PLAYER_EXERCISE s))) as [|old l] eqn:Hhits;
    [simpl in Hcount; lia|].
  assert (Hold : In old (filter (targets (Data.playerId data) (Exercise.id e))
                                (rows (PLAYER_EXERCISE s))))
    by (rewrite Hhits; now left).
  apply filter_In in Hold. destruct Hold as [Hold Hhit].
  pose proof Hhit as Hkeys. rewrite Hpid in Hkeys. simpl in Hkeys.
  apply andb_prop in Hkeys. destruct Hkeys as [Hp He].
  apply Z.eqb_eq in Hp, He.
  pose proof Hfind as Hfound.
  apply find_some in Hfind. destruct Hfind as [Hein Hen].
  apply String.eqb_eq in Hen.
  destruct (reachable_category_exists s e Hreach Hein) as (c & Hcin & Hce).
  exists e, c, old. split; [exact Hfound|]. split; [exact Hcin|].
  split; [exact Hce|]. split; [exact Hold|]. split; [exact Hp|].
  split; [exact He|]. split.
  { intros other Hin Hop Hoe.
    apply (NoDup_map_eq pair (rows (PLAYER_EXERCISE s)));
      [exact (pairs_unique s (reachable_consistent s Hreach))
      |exact Hin|exact Hold|].
    unfold pair. congruence. }
  set (new := set_fields
                (fields_to_update (Data.result data) (Data.rating data)) old).
  destruct (set_fields_keys
              (fields_to_update (Data.result data) (Data.rating data)) old)
    as (_ & Hnp & Hne).
  assert (Hnew : In new (rows (PLAYER_EXERCISE s'))).
  { rewrite Hs'. cbn [PLAYER_EXERCISE with_PLAYER_EXERCISE rows].
    unfold updated_rows. apply in_map_iff. exists old.
    split; [now rewrite Hhit|exact Hold]. }
  assert (Hrow : In (Category.name c, Exercise.name e,
                     PlayerExercise.result new, PlayerExercise.rating new)
                    (select_progress s' player_id)).
  { apply (select_progress_fetches s' player_id c e new).
    - rewrite Hs'. exact Hcin.
    - rewrite Hs'. exact Hein.
    - exact Hnew.
    - exact Hce.
    - unfold new. congruence.
    - unfold new. congruence. }
  apply group_by_category_lists in Hrow.
  unfold get_categories_and_exercises_with_ratings.
  unfold new in Hrow. rewrite set_fields_result, set_fields_rating in Hrow.
  rewrite Hen in Hrow.
  destruct (no_rating (Data.rating data)) eqn:Hg; [exact Hrow|].
  destruct (Data.rating data) as [g|]; [|discriminate]. simpl in Hg.
  destruct g; try discriminate; exact Hrow.
Qed.

(** ** Uniqueness in the person tables *)

Section Distinct.
Context {R : Type} `{Row R}.
Variable clash : R -> R -> bool.
Hypothesis clash_sym : forall a b, clash a b = clash b a.
Hypothesis clash_key : forall a b, rowid a = rowid b -> clash a b = true.

Lemma distinct_snoc (l : list R) (new : R) :
  distinct clash l -> violates clash new l = false ->
  distinct clash (l ++ [new]).
Proof.
  unfold distinct, violates. intros Hl Hnew.
  induction Hl as [|a l Ha _ IH]; simpl.
  - constructor; constructor.
  - simpl in Hnew. apply orb_false_iff in Hnew. destruct Hnew as [Hna Hnew].
    constructor; [|now apply IH].
    apply Forall_app. split; [exact Ha|].
    constructor; [|constructor]. now rewrite clash_sym.
Qed.

Lemma distinct_filter (p : R -> bool) (l : list R) :
  distinct clash l -> distinct clash (filter p l).
Proof.
  unfold distinct. induction 1 as [|a l Ha _ IH]; simpl; [constructor|].
  destruct (p a); [|exact IH]. constructor; [|exact IH].
  apply Forall_forall. intros b Hb. apply filter_In in Hb.
  rewrite Forall_forall in Ha. now apply Ha.
Qed.

Lemma distinct_map (g : R -> R) (l : list R) :
  (forall a b, clash (g a) (g b) = clash a b) ->
  distinct clash l -> distinct clash (map g l).
Proof.
  unfold distinct. intros Hg. induction 1 as [|a l Ha _ IH]; simpl;
    constructor; [|exact IH].
  apply Forall_forall. intros b' Hb'. apply in_map_iff in Hb'.
  destruct Hb' as (b & <- & Hb). rewrite Hg.
  rewrite Forall_forall in Ha. now apply Ha.
Qed.

Lemma distinct_NoDup {K} (f : R -> K) (l : list R) :
  (forall a b, f a = f b -> clash a b = true) ->
  distinct clash l -> NoDup (map f l).
Proof.
  unfold distinct. intros Hf. induction 1 as [|a l Ha _ IH]; simpl;
    constructor; [|exact IH].
  intros Hin. apply in_map_iff in Hin. destruct Hin as (b & Hb & Hin).
  rewrite Forall_forall in Ha. specialize (Ha b Hin).
  rewrite (Hf a b (eq_sym Hb)) in Ha. discriminate.
Qed.

Lemma Forall2_In_r {A B} (P : A -> B -> Prop) (l : list A) (l' : list B)
    (b : B) :
  Forall2 P l l' -> In b l' -> exists a, In a l /\ P a b.
Proof.
  induction 1 as [|x y l l' Hxy _ IH]; intros Hin; [destruct Hin|].
  destruct Hin as [->|Hin]; [exists x; split; [now left|exact Hxy]|].
  destruct (IH Hin) as (a & Ha & Hab). exists a. split; [now right|exact Hab].
Qed.

(** One UPDATE by key keeps the rows free of clashes. *)
Lemma rewrite_by_id_distinct (table_name : string) (id : Z)
    (f : R -> result R) (l l' : list R) :
  distinct clash l ->
  rewrite_by_id clash table_name id f l = Ok l' ->
  distinct clash l'.
Proof.
  unfold rewrite_by_id. intros Hl Hrun. apply mapM_Forall2 in Hrun.
  set (others := filter (fun r => negb (rowid r =? id)) l) in *.
  assert (Hothers : forall r, In r l -> rowid r <> id -> In r others).
  { intros r Hin Hne. apply filter_In. split; [exact Hin|].
    apply negb_true_iff. now apply Z.eqb_neq. }
  clearbody others. unfold distinct in *.
  induction Hrun as [|a a' k k' Ha Hrest IH]; [constructor|].
  inversion Hl as [|? ? Hak Hk]; subst.
  constructor.
  - apply Forall_forall. intros b' Hb'.
    destruct (Forall2_In_r _ _ _ _ Hrest Hb') as (b & Hb & Hbb').
    rewrite Forall_forall in Hak. pose proof (Hak b Hb) as Hab.
    destruct (rowid a =? id) eqn:Ea.
    + assert (Eb : (rowid b =? id) = false).
      { apply Z.eqb_neq. intros Hbid. apply Z.eqb_eq in Ea.
        assert (Hkey : rowid a = rowid b) by congruence.
        rewrite (clash_key a b Hkey) in Hab. discriminate. }
      rewrite Eb in Hbb'. inversion Hbb'; subst b'.
      destruct (f a) as [x|]; [|discriminate]. cbn [bind] in Ha.
      destruct (violates clash x others) eqn:Hv; [discriminate|].
      inversion Ha; subst a'. unfold violates in Hv.
      destruct (clash x b) eqn:Hxb; [|reflexivity].
      assert (Hex : existsb (clash x) others = true).
      { apply existsb_exists. exists b. split; [|exact Hxb].
        apply Hothers; [now right|]. now apply Z.eqb_neq. }
      congruence.
    + inversion Ha; subst a'. destruct (rowid b =? id) eqn:Eb.
      * destruct (f b) as [x|]; [|discriminate]. cbn [bind] in Hbb'.
        destruct (violates clash x others) eqn:Hv; [discriminate|].
        inversion Hbb'; subst b'. unfold violates in Hv.
        rewrite clash_sym. destruct (clash x a) eqn:Hxa; [|reflexivity].
        assert (Hex : existsb (clash x) others = true).
        { apply existsb_exists. exists a. split; [|exact Hxa].
          apply Hothers; [now left|]. now apply Z.eqb_neq. }
        congruence.
      * inversion Hbb'; subst b'. exact Hab.
  - apply IH; [exact Hk|]. intros r Hin. apply Hothers. now right.
Qed.

Lemma update_each_distinct (table_name : string)
    (prepare : assignment -> result unit)
    (assign : assignment -> R -> result R) (id : Z)
    (kwargs : list assignment) (t t' : table R) :
  distinct clash (rows t) ->
  update_each clash table_name prepare assign id kwargs t = Ok t' ->
  distinct clash (rows t').
Proof.
  unfold update_each. revert t.
  induction kwargs as [|a kwargs IH]; intros t Ht Hrun.
  - now inversion Hrun; subst.
  - simpl in Hrun.
    destruct (update_by_id clash table_name id (prepare a) (offered a)
                           (assign a) (rows t))
      as [l|e] eqn:Hl; cbn [bind] in Hrun.
    + apply (IH {| rows := l; seq := seq t |}); [|exact Hrun].
      apply update_by_id_runs in Hl. destruct Hl as (_ & _ & Hl).
      exact (rewrite_by_id_distinct table_name id (assign a) (rows t) l
               Ht Hl).
    + rewrite (fold_left_Err
                 (fun t a =>
                    l <- update_by_id clash table_name id (prepare a)
                           (offered a) (assign a) (rows t) ;;
                    Ok {| rows := l; seq := seq t |})) in Hrun.
      discriminate.
Qed.
End Distinct.

Lemma player_clash_sym (a b : Player.row) :
  Player.clash a b = Player.clash b a.
Proof.
  unfold Player.clash.
  now rewrite (Z.eqb_sym (Player.id a)),
    (String.eqb_sym (Player.username a)), (String.eqb_sym (Player.email a)).
Qed.

Lemma coach_clash_sym (a b : Coach.row) : Coach.clash a b = Coach.clash b a.
Proof.
  unfold Coach.clash.
  now rewrite (Z.eqb_sym (Coach.id a)),
    (String.eqb_sym (Coach.username a)), (String.eqb_sym (Coach.email a)).
Qed.

Lemma parent_clash_sym (a b : Parent.row) :
  Parent.clash a b = Parent.clash b a.
Proof.
  unfold Parent.clash.
  now rewrite (Z.eqb_sym (Parent.id a)),
    (String.eqb_sym (Parent.username a)), (String.eqb_sym (Parent.email a)).
Qed.

Lemma player_clash_keys (a b : Player.row) :
  Player.id a = Player.id b \/ Player.username a = Player.username b \/
  Player.email a = Player.email b ->
  Player.clash a b = true.
Proof.
  unfold Player.clash. intros [E|[E|E]]; rewrite E.
  - now rewrite Z.eqb_refl.
  - now rewrite String.eqb_refl, orb_true_r.
  - now rewrite String.eqb_refl, orb_true_r.
Qed.

Lemma coach_clash_keys (a b : Coach.row) :
  Coach.id a = Coach.id b \/ Coach.username a = Coach.username b \/
  Coach.email a = Coach.email b ->
  Coach.clash a b = true.
Proof.
  unfold Coach.clash. intros [E|[E|E]]; rewrite E.
  - now rewrite Z.eqb_refl.
  - now rewrite String.eqb_refl, orb_true_r.
  - now rewrite String.eqb_refl, orb_true_r.
Qed.

Lemma parent_clash_keys (a b : Parent.row) :
  Parent.id a = Parent.id b \/ Parent.username a = Parent.username b \/
  Parent.email a = Parent.email b ->
  Parent.clash a b = true.
Proof.
  unfold Parent.clash. intros [E|[E|E]]; rewrite E.
  - now rewrite Z.eqb_refl.
  - now rewrite String.eqb_refl, orb_true_r.
  - now rewrite String.eqb_refl, orb_true_r.
Qed.

Lemma add_user_persons_unique (s s' : DB)
    (username password email name : option string) (birthYear : option Z)
    (country : option string) (role : string)
    (number team_id : option Z) (user_id : Z) :
  persons_unique s ->
  add_user s username password email name birthYear country role number
           team_id = Ok (s', user_id) ->
  persons_unique s'.
Proof.
  intros (HP & HC & HPa) Hrun.
  pose proof (add_user_returns _ _ _ _ _ _ _ _ _ _ _ _ Hrun) as Hrole.
  pose proof (add_user_returns_bound _ _ _ _ _ _ _ _ _ _ _ _ Hrun)
    as Hbinds.
  destruct username as [u|], password as [p|], email as [e|], name as [n|],
    birthYear as [b|], country as [c|];
    try (exfalso;
         destruct Hrole as [[-> _]|[[-> _]|[-> _]]];
         unfold add_user in Hrun;
         cbn [String.eqb Ascii.eqb Bool.eqb] in Hrun;
         destruct (bind_parameters _) as [[]|];
         cbn [bind not_null] in Hrun; discriminate).
  destruct Hrole as [[-> _]|[[-> _]|[-> _]]].
  - rewrite add_user_player_statement in Hrun by exact Hbinds.
    destruct (violates Player.clash _ _) eqn:Hv; [discriminate|].
    destruct (insert_player_exercises _ _ _) as [pe|]; [|discriminate].
    cbn [bind] in Hrun. inversion Hrun; subst s' user_id.
    unfold persons_unique. cbn.
    split; [|split; assumption].
    exact (@distinct_snoc Player.row Player.clash player_clash_sym
             _ _ HP Hv).
  - rewrite add_user_coach_statement in Hrun by exact Hbinds.
    destruct (violates Coach.clash _ _) eqn:Hv; [discriminate|].
    inversion Hrun; subst s' user_id.
    unfold persons_unique. cbn.
    split; [assumption|]. split; [|assumption].
    exact (@distinct_snoc Coach.row Coach.clash coach_clash_sym
             _ _ HC Hv).
  - rewrite add_user_parent_statement in Hrun by exact Hbinds.
    destruct (violates Parent.clash _ _) eqn:Hv; [discriminate|].
    inversion Hrun; subst s' user_id.
    unfold persons_unique. cbn.
    split; [assumption|]. split; [assumption|].
    exact (@distinct_snoc Parent.row Parent.clash parent_clash_sym
             _ _ HPa Hv).
Qed.

Lemma player_update_keeps_clash (p : Player.row -> bool)
    (f : Player.row -> Player.row) (l : list Player.row) :
  (forall r, Player.id (f r) = Player.id r /\
             Player.username (f r) = Player.username r /\
             Player.email (f r) = Player.email r) ->
  distinct Player.clash l ->
  distinct Player.clash (fst (update_where p f l)).
Proof.
  intros Hf. unfold update_where. cbn [fst]. apply distinct_map.
  intros a b. unfold Player.clash.
  destruct (p a), (p b);
    repeat match goal with
           | |- context [f ?r] =>
               destruct (Hf r) as (-> & -> & ->)
           end; reflexivity.
Qed.

Lemma parent_update_keeps_clash (p : Parent.row -> bool)
    (f : Parent.row -> Parent.row) (l : list Parent.row) :
  (forall r, Parent.id (f r) = Parent.id r /\
             Parent.username (f r) = Parent.username r /\
             Parent.email (f r) = Parent.email r) ->
  distinct Parent.clash l ->
  distinct Parent.clash (fst (update_where p f l)).
Proof.
  intros Hf. unfold update_where. cbn [fst]. apply distinct_map.
  intros a b. unfold Parent.clash.
  destruct (p a), (p b);
    repeat match goal with
           | |- context [f ?r] =>
               destruct (Hf r) as (-> & -> & ->)
           end; reflexivity.
Qed.

Lemma run_persons_unique (s s' : DB) (c : call) :
  persons_unique s -> run s c = Ok s' -> persons_unique s'.
Proof.
  intros Hs Hrun.
  destruct c; [rewrite run_initialize in Hrun|cbn [run] in Hrun..].
  - destruct (initialize_returns s) as (s1 & H1 & HP & HC & _ & HPa & _).
    rewrite Hrun in H1. inversion H1; subst s1.
    unfold persons_unique. rewrite HP, HC, HPa. exact Hs.
  - destruct (add_user _ _ _ _ _ _ _ _ _ _) as [[s1 u]|] eqn:E;
      [|discriminate].
    inversion Hrun; subst s1.
    exact (add_user_persons_unique _ _ _ _ _ _ _ _ _ _ _ _ Hs E).
  - destruct Hs as (HP & HC & HPa). unfold update_user in Hrun.
    destruct (role =? "player")%string;
      [|destruct (role =? "coach")%string;
        [|destruct (role =? "parent")%string; [|discriminate]]];
      destruct (update_each _ _ _ _ _ _ _) as [t|] eqn:E; try discriminate;
      inversion Hrun; subst s'; unfold persons_unique; cbn.
    + split; [|split; assumption].
      exact (@update_each_distinct Player.row Player_Row Player.clash
               player_clash_sym
               (fun a b E => player_clash_keys a b (or_introl E))
               _ _ _ _ _ _ _ HP E).
    + split; [assumption|]. split; [|assumption].
      exact (@update_each_distinct Coach.row Coach_Row Coach.clash
               coach_clash_sym
               (fun a b E => coach_clash_keys a b (or_introl E))
               _ _ _ _ _ _ _ HC E).
    + split; [assumption|]. split; [assumption|].
      exact (@update_each_distinct Parent.row Parent_Row Parent.clash
               parent_clash_sym
               (fun a b E => parent_clash_keys a b (or_introl E))
               _ _ _ _ _ _ _ HPa E).
  - destruct Hs as (HP & HC & HPa). inversion Hrun; subst s'.
    unfold persons_unique, delete_user. cbn.
    split; [|split; assumption]. now apply distinct_filter.
  - apply create_team_returns in Hrun. destruct Hrun as [_ ->]. exact Hs.
  - destruct (update_exercise s data) as [[s1 out]|] eqn:E; [|discriminate].
    inversion Hrun; subst s1. apply update_exercise_returns in E.
    destruct E as (name & e & _ & _ & _ & _ & _ & -> & _). exact Hs.
  - destruct Hs as (HP & HC & HPa). unfold join_team in Hrun.
    destruct (find _ _) as [team|]; [|discriminate].
    destruct (find _ _) as [coach|]; [|discriminate].
    inversion Hrun; subst s'. unfold persons_unique. cbn.
    split; [|split; assumption].
    apply (player_update_keeps_clash
             (fun p => Player.id p =? player_id)); [|exact HP].
    intros []; repeat split.
  - destruct Hs as (HP & HC & HPa). unfold link_child in Hrun.
    destruct (find _ _) as [child|]; [|discriminate].
    destruct (find _ _) as [parent|]; [|discriminate].
    inversion Hrun; subst s'. unfold persons_unique. cbn.
    split; [|split; [assumption|]].
    + apply (player_update_keeps_clash
               (fun p => Player.id p =? Player.id child)); [|exact HP].
      intros []; repeat split.
    + apply (parent_update_keeps_clash
               (fun p => Parent.id p =? parent_id)); [|exact HPa].
      intros []; repeat split.
Qed.

Lemma reachable_persons_unique (s : DB) : reachable s -> persons_unique s.
Proof.
  induction 1 as [s Hboot|s c s' _ IH Hrun].
  - rewrite boot_empty in Hboot. inversion Hboot.
    repeat split; constructor.
  - exact (run_persons_unique s s' c IH Hrun).
Qed.

Lemma persons_unique_keys (s : DB) :
  persons_unique s ->
  (NoDup (map Player.id (rows (PLAYER s))) /\
   NoDup (map Player.username (rows (PLAYER s))) /\
   NoDup (map Player.email (rows (PLAYER s)))) /\
  (NoDup (map Coach.id (rows (COACH s))) /\
   NoDup (map Coach.username (rows (COACH s))) /\
   NoDup (map Coach.email (rows (COACH s)))) /\
  (NoDup (map Parent.id (rows (PARENT s))) /\
   NoDup (map Parent.username (rows (PARENT s))) /\
   NoDup (map Parent.email (rows (PARENT s)))).
Proof.
  intros (HP & HC & HPa). split; [|split].
  - split; [|split];
      (apply (distinct_NoDup Player.clash); [|exact HP]);
      intros a b E; apply player_clash_keys; auto.
  - split; [|split];
      (apply (distinct_NoDup Coach.clash); [|exact HC]);
      intros a b E; apply coach_clash_keys; auto.
  - split; [|split];
      (apply (distinct_NoDup Parent.clash); [|exact HPa]);
      intros a b E; apply parent_clash_keys; auto.
Qed.

(** X24.  In every reachable store, within each person table no two rows
    share an id, a username or an email. *)
Theorem person_keys_unique (s : DB) :
  reachable s ->
  (NoDup (map Player.id (rows (PLAYER s))) /\
   NoDup (map Player.username (rows (PLAYER s))) /\
   NoDup (map Player.email (rows (PLAYER s)))) /\
  (NoDup (map Coach.id (rows (COACH s))) /\
   NoDup (map Coach.username (rows (COACH s))) /\
   NoDup (map Coach.email (rows (COACH s)))) /\
  (NoDup (map Parent.id (rows (PARENT s))) /\
   NoDup (map Parent.username (rows (PARENT s))) /\
   NoDup (map Parent.email (rows (PARENT s)))).
Proof.
  intros Hreach.
  exact (persons_unique_keys s (reachable_persons_unique s Hreach)).
Qed.

Lemma find_unique {A K} (f : A -> K) (p : A -> bool) (l : list A) (r : A) :
  NoDup (map f l) -> In r l -> p r = true ->
  (forall a, p a = true -> f a = f r) ->
  find p l = Some r.
Proof.
  intros Hnd Hin Hr Hp. induction l as [|a l IH]; [destruct Hin|].
  inversion Hnd as [|? ? Hnot Hnd']; subst. simpl.
  destruct (p a) eqn:Ha.
  - destruct Hin as [->|Hin]; [reflexivity|].
    exfalso. apply Hnot. rewrite (Hp a Ha). now apply in_map.
  - destruct Hin as [->|Hin]; [congruence|]. now apply IH.
Qed.

(** X25.  In every reachable store each stored person is found: [get_user]
    with a row's id and its role returns that very row, and
    [get_user_by_email] with a row's email returns it with its role unless
    a table probed earlier holds the same email. *)
Theorem stored_rows_are_found (s : DB) :
  reachable s ->
  (forall r, In r (rows (PLAYER s)) ->
     get_user s (Player.id r) "player" = Ok (Some (player_row r)) /\
     get_user_by_email s (Player.email r)
     = (Some (player_row r), Some "player")) /\
  (forall r, In r (rows (COACH s)) ->
     get_user s (Coach.id r) "coach" = Ok (Some (coach_row r)) /\
     ((forall p, In p (rows (PLAYER s)) -> Player.email p <> Coach.email r) ->
      get_user_by_email s (Coach.email r)
      = (Some (coach_row r), Some "coach"))) /\
  (forall r, In r (rows (PARENT s)) ->
     get_user s (Parent.id r) "parent" = Ok (Some (parent_row r)) /\
     ((forall p, In p (rows (PLAYER s)) -> Player.email p <> Parent.email r) ->
      (forall c, In c (rows (COACH s)) -> Coach.email c <> Parent.email r) ->
      get_user_by_email s (Parent.email r)
      = (Some (parent_row r), Some "parent"))).
Proof.
  intros Hreach.
  destruct (persons_unique_keys s (reachable_persons_unique s Hreach))
    as ((HPi & _ & HPe) & (HCi & _ & HCe) & (HPai & _ & HPae)).
  assert (Hpi : forall r, In r (rows (PLAYER s)) ->
                  find (fun x => Player.id x =? Player.id r)
                       (rows (PLAYER s)) = Some r).
  { intros r Hin. apply (find_unique Player.id); auto using Z.eqb_refl.
    intros a Ha. now apply Z.eqb_eq. }
  assert (Hpe : forall r, In r (rows (PLAYER s)) ->
                  find (fun x => (Player.email x =? Player.email r)%string)
                       (rows (PLAYER s)) = Some r).
  { intros r Hin. apply (find_unique Player.email);
      auto using String.eqb_refl.
    intros a Ha. now apply String.eqb_eq. }
  assert (Hci : forall r, In r (rows (COACH s)) ->
                  find (fun x => Coach.id x =? Coach.id r)
                       (rows (COACH s)) = Some r).
  { intros r Hin. apply (find_unique Coach.id); auto using Z.eqb_refl.
    intros a Ha. now apply Z.eqb_eq. }
  assert (Hce : forall r, In r (rows (COACH s)) ->
                  find (fun x => (Coach.email x =? Coach.email r)%string)
                       (rows (COACH s)) = Some r).
  { intros r Hin. apply (find_unique Coach.email);
      auto using String.eqb_refl.
    intros a Ha. now apply String.eqb_eq. }
  assert (Hpai : forall r, In r (rows (PARENT s)) ->
                   find (fun x => Parent.id x =? Parent.id r)
                        (rows (PARENT s)) = Some r).
  { intros r Hin. apply (find_unique Parent.id); auto using Z.eqb_refl.
    intros a Ha. now apply Z.eqb_eq. }
  assert (Hpae : forall r, In r (rows (PARENT s)) ->
                   find (fun x => (Parent.email x =? Parent.email r)%string)
                        (rows (PARENT s)) = Some r).
  { intros r Hin. apply (find_unique Parent.email);
      auto using String.eqb_refl.
    intros a Ha. now apply String.eqb_eq. }
  split; [|split]; intros r Hin; (split; [unfold get_user; cbn|]).
  - now rewrite (Hpi r Hin).
  - unfold get_user_by_email. now rewrite (Hpe r Hin).
  - now rewrite (Hci r Hin).
  - intros Hfree. unfold get_user_by_email.
    rewrite (find_absent (fun x => (Player.email x =? Coach.email r)%string)).
    + now rewrite (Hce r Hin).
    + intros a Ha. apply String.eqb_neq. now apply Hfree.
  - now rewrite (Hpai r Hin).
  - intros Hfree Hfree'. unfold get_user_by_email.
    rewrite (find_absent (fun x => (Player.email x =? Parent.email r)%string)).
    + rewrite (find_absent
                 (fun x => (Coach.email x =? Parent.email r)%string)).
      * now rewrite (Hpae r Hin).
      * intros a Ha. apply String.eqb_neq. now apply Hfree'.
    + intros a Ha. apply String.eqb_neq. now apply Hfree.
Qed.

(** ** Example stores are reachable *)

Lemma replay_reachable (cs : list call) (s s' : DB) :
  reachable s -> replay cs s = Ok s' -> reachable s'.
Proof.
  revert s. induction cs as [|c cs IH]; intros s Hs Hrun; simpl in Hrun.
  - now inversion Hrun; subst.
  - destruct (run s c) as [s1|] eqn:E; [|discriminate]. cbn [bind] in Hrun.
    apply (IH s1); [|exact Hrun]. exact (reachable_call s c s1 Hs E).
Qed.

Lemma family_reachable : reachable family.
Proof.
  apply (replay_reachable
           [addUser (Some "pat") (Some "pw") (Some "pat@x.com") (Some "Pat")
                    (Some 1980) (Some "ES") "parent" None None;
            addUser (Some "kid") (Some "pw") (Some "kid@x.com") (Some "Kid")
                    (Some 2012) (Some "ES") "player" None None]
           booted); [exact booted_reachable|].
  vm_compute. reflexivity.
Qed.

Lemma club_reachable : reachable club.
Proof.
  apply (replay_reachable
           [addUser (Some "cleo") (Some "pw") (Some "cleo@x.com")
                    (Some "Cleo") (Some 1985) (Some "ES") "coach" None None;
            createTeam "Lions" 1]
           booted); [exact booted_reachable|].
  vm_compute. reflexivity.
Qed.

(** ** Examples *)

(** Starting again on a store that holds a player keeps that player and
    the PAC exercises. *)
Lemma initialize_never_fails_witness :
  exists s',
    _initialize_database one_player = Ok s' /\
    rows (PLAYER s') = rows (PLAYER one_player) /\
    stored s' "PAC" ["Sprint Speed"; "Acceleration"].
Proof.
  destruct (initialize_never_fails one_player)
    as (s' & Hrun & HP & _ & _ & _ & _ & _ & _ & _ & Hseed).
  exists s'. split; [exact Hrun|]. split; [exact HP|].
  apply Hseed. left. reflexivity.
Defined.

(** The second start after the first start on a fresh file. *)
Lemma initialize_twice_same_rows_witness :
  _initialize_database empty = Ok booted /\
  exists s2, _initialize_database booted = Ok s2 /\ same_rows s2 booted.
Proof.
  split; [exact boot_empty|].
  exact (initialize_twice_same_rows empty booted boot_empty).
Defined.

(** The role "admin" is refused; a coach born in year 2^63 is refused at
    binding. *)
Lemma add_user_role_check_witness :
  ~ valid_role "admin" /\
  add_user booted (Some "ana") (Some "pw") (Some "ana@x.com") (Some "Ana")
           (Some 2012) (Some "ES") "admin" None None
  = Err (ValueError Invalid_role) /\
  valid_role "coach" /\
  registration_binds "coach" (Some 9223372036854775808) None None = false /\
  add_user booted (Some "cleo") (Some "pw") (Some "cleo@x.com")
           (Some "Cleo") (Some 9223372036854775808) (Some "ES") "coach"
           None None
  = Err OverflowError.
Proof.
  assert (H : ~ valid_role "admin").
  { intros [H|[H|H]]; discriminate. }
  assert (Hc : valid_role "coach") by (right; left; reflexivity).
  split; [exact H|]. split.
  { exact (proj2 (proj1 (add_user_role_check booted (Some "ana") (Some "pw")
                           (Some "ana@x.com") (Some "Ana") (Some 2012)
                           (Some "ES") "admin" None None)) H). }
  split; [exact Hc|]. split; [reflexivity|].
  exact (proj2 (proj2 (add_user_role_check booted (Some "cleo") (Some "pw")
                         (Some "cleo@x.com") (Some "Cleo")
                         (Some 9223372036854775808) (Some "ES") "coach"
                         None None) Hc) eq_refl).
Defined.

(** A coach without a username. *)
Lemma add_user_required_fields_witness :
  registration_room booted "coach" /\
  exists column,
    add_user booted None (Some "pw") (Some "cleo@x.com") (Some "Cleo")
             (Some 1985) (Some "ES") "coach" None None
    = Err (IntegrityError (NOT_NULL column)).
Proof.
  assert (Hroom : registration_room booted "coach").
  { split; [discriminate|]. split; [|discriminate].
    intros _. vm_compute. discriminate. }
  split; [exact Hroom|].
  apply add_user_required_fields.
  - right. left. reflexivity.
  - reflexivity.
  - exact Hroom.
  - left. reflexivity.
Defined.

(** With "ana" registered as a player, a second player "ana" is refused
    and a coach "ana" is accepted. *)
Lemma add_user_succeeds_iff_free_witness :
  registration_room one_player "player" /\
  registration_room one_player "coach" /\
  taken one_player "player" "ana" "other@x.com" /\
  (exists table_name,
     add_user one_player (Some "ana") (Some "pw") (Some "other@x.com")
              (Some "Ana") (Some 2012) (Some "ES") "player" None None
     = Err (IntegrityError (UNIQUE table_name))) /\
  ~ taken one_player "coach" "ana" "ana@x.com" /\
  (exists s' user_id,
     add_user one_player (Some "ana") (Some "pw") (Some "ana@x.com")
              (Some "Ana") (Some 2012) (Some "ES") "coach" None None
     = Ok (s', user_id)).
Proof.
  assert (Hp : registration_room one_player "player").
  { split; [|split; discriminate].
    intros _. vm_compute. split; discriminate. }
  assert (Hc : registration_room one_player "coach").
  { split; [discriminate|]. split; [|discriminate].
    intros _. vm_compute. discriminate. }
  assert (H1 : taken one_player "player" "ana" "other@x.com").
  { left. split; [reflexivity|]. eexists.
    split; [left; reflexivity|left; reflexivity]. }
  assert (H2 : ~ taken one_player "coach" "ana" "ana@x.com").
  { intros [[H _]|[[_ (r & [] & _)]|[H _]]]; discriminate. }
  split; [exact Hp|]. split; [exact Hc|]. split; [exact H1|]. split.
  { apply (add_user_succeeds_iff_free one_player "ana" "pw" "other@x.com"
             "Ana" 2012 "ES" "player" None None);
      [left; reflexivity|reflexivity|exact Hp|exact H1]. }
  split; [exact H2|].
  apply (add_user_succeeds_iff_free one_player "ana" "pw" "ana@x.com"
           "Ana" 2012 "ES" "coach" None None);
    [right; left; reflexivity|reflexivity|exact Hc|exact H2].
Defined.

(** The first player registered on a fresh installation is read back. *)
Lemma add_user_then_get_user_witness :
  add_user booted (Some "ana") (Some "pw") (Some "ana@x.com") (Some "Ana")
           (Some 2012) (Some "ES") "player" None None = Ok (one_player, 1) /\
  get_user one_player 1 "player"
  = Ok (Some (player_row
                (new_player 1 "ana" "pw" "ana@x.com" "Ana" 2012 "ES" None
                            None))).
Proof.
  assert (H : add_user booted (Some "ana") (Some "pw") (Some "ana@x.com")
                (Some "Ana") (Some 2012) (Some "ES") "player" None None
              = Ok (one_player, 1)) by reflexivity.
  split; [exact H|].
  exact (add_user_then_get_user booted one_player "ana" "pw" "ana@x.com"
           "Ana" 2012 "ES" "player" None None 1 H).
Defined.

(** And is found by email. *)
Lemma add_user_then_get_user_by_email_witness :
  add_user booted (Some "ana") (Some "pw") (Some "ana@x.com") (Some "Ana")
           (Some 2012) (Some "ES") "player" None None = Ok (one_player, 1) /\
  get_user_by_email one_player "ana@x.com"
  = (Some (player_row
             (new_player 1 "ana" "pw" "ana@x.com" "Ana" 2012 "ES" None
                         None)),
     Some "player").
Proof.
  assert (H : add_user booted (Some "ana") (Some "pw") (Some "ana@x.com")
                (Some "Ana") (Some 2012) (Some "ES") "player" None None
              = Ok (one_player, 1)) by reflexivity.
  split; [exact H|].
  exact (proj1 (add_user_then_get_user_by_email booted one_player "ana" "pw"
                  "ana@x.com" "Ana" 2012 "ES" "player" None None 1 H)
           eq_refl).
Defined.


(** On a fresh installation a team for coach 7, who does not exist, is
    created and cannot be joined. *)
Lemma team_without_coach_cannot_be_joined_witness :
  exists s',
    create_team booted "Ghosts" 7 = Ok s' /\
    join_team s' "Ghosts" 1 = Err (ValueError Coach_not_found).
Proof.
  destruct (create_team booted "Ghosts" 7) as [s'|] eqn:Hrun;
    [|discriminate].
  exists s'. split; [reflexivity|].
  apply (team_without_coach_cannot_be_joined booted s' "Ghosts" 7 1 Hrun).
  intros c [].
Defined.


(** In [squad], player 1 joins "Lions" and then shows team 1 and coach
    Cleo. *)
Lemma join_team_then_get_user_witness :
  exists s' p,
    join_team squad "Lions" 1 = Ok s' /\
    get_user squad 1 "player" = Ok (Some (player_row p)) /\
    get_user s' 1 "player"
    = Ok (Some (player_row (joined 1 "Cleo" "cleo@x.com" p))).
Proof.
  destruct (join_team squad "Lions" 1) as [s'|] eqn:Hrun; [|discriminate].
  destruct (join_team_then_get_user squad s' "Lions" 1 Hrun)
    as (team & coach & Hteam & Hcoach & Hplayer & _).
  inversion Hteam; subst team. inversion Hcoach; subst coach.
  exists s'. eexists. split; [reflexivity|]. split; [reflexivity|].
  apply Hplayer. reflexivity.
Defined.

(** One registered player later, the reference data is as on the first
    start. *)
Lemma reference_data_fixed_witness :
  reachable one_player /\
  map Exercise.name (rows (EXERCISE one_player)) = seed_names /\
  exists s', _initialize_database one_player = Ok s' /\
             same_rows s' one_player.
Proof.
  split; [exact one_player_reachable|].
  destruct (reference_data_fixed one_player one_player_reachable)
    as (_ & _ & Hnames & Hagain).
  split; [exact Hnames|exact Hagain].
Defined.

(** "Juggling" is not a seed exercise. *)
Lemma update_exercise_unknown_name_witness :
  reachable one_player /\
  ~ In "Juggling" seed_names /\
  update_exercise one_player
    (Data.Build (Some "Juggling") (Some 1) None (Some 3))
  = Err (ValueError (Exercise_not_found "Juggling")).
Proof.
  split; [exact one_player_reachable|].
  assert (H : ~ In "Juggling" seed_names).
  { intros H. cbv in H.
    repeat (destruct H as [H|H]; [discriminate|]). exact H. }
  split; [exact H|].
  assert (Hname : "Juggling" <> EmptyString) by discriminate.
  exact (proj2 (update_exercise_unknown_name one_player
                  (Data.Build (Some "Juggling") (Some 1) None (Some 3))
                  "Juggling" one_player_reachable eq_refl Hname eq_refl) H).
Defined.

(** In [club] the only team is the one its coach is answered with. *)
Lemma one_team_per_coach_witness :
  reachable club /\
  NoDup (map Team.coach_id (rows (TEAM club))) /\
  get_team_by_coach club 1 = Some "Lions".
Proof.
  split; [exact club_reachable|].
  destruct (one_team_per_coach club club_reachable) as (_ & Hcoach & Hget).
  split; [exact Hcoach|].
  apply (Hget (Team.Row 1 "Lions" 1)). left. reflexivity.
Defined.


(** In [family], linking "kid" to parent 1 shows on both and adds the
    link (1, 1). *)
Lemma link_child_then_get_user_witness :
  exists s' parent,
    link_child family "kid" 1 = Ok s' /\
    get_user family 1 "parent" = Ok (Some (parent_row parent)) /\
    get_user s' 1 "parent"
    = Ok (Some (parent_row (with_child "Kid" "kid@x.com" parent))) /\
    exists i, rows (PARENT_PLAYER s') = [ParentPlayer.Row i 1 1].
Proof.
  destruct (link_child family "kid" 1) as [s'|] eqn:Hrun; [|discriminate].
  destruct (link_child_then_get_user family s' "kid" 1 Hrun)
    as (child & parent & Hchild & Hparent & Hparent' & _ & i & _ & Hlink).
  inversion Hchild; subst child.
  exists s', parent. split; [reflexivity|]. split; [exact Hparent|].
  split; [exact Hparent'|]. exists i. exact Hlink.
Defined.


(** Player 1 changes name and shirt number. *)
Lemma update_user_then_get_user_witness :
  exists s' r r',
    update_user one_player 1 "player"
      [assign_name (Some "Anna"); assign_shirtNumber (Some 9)] = Ok s' /\
    get_user one_player 1 "player" = Ok (Some (player_row r)) /\
    get_user s' 1 "player" = Ok (Some (player_row r')) /\
    Player.name r' = "Anna" /\ Player.shirtNumber r' = Some 9 /\
    Player.email r' = Player.email r.
Proof.
  destruct (update_user one_player 1 "player"
              [assign_name (Some "Anna"); assign_shirtNumber (Some 9)])
    as [s'|] eqn:Hrun; [|discriminate].
  destruct (update_user_then_get_user one_player s' 1 "player"
              [assign_name (Some "Anna"); assign_shirtNumber (Some 9)]
              eq_refl Hrun) as (Hplayer & _).
  destruct (get_user one_player 1 "player") as [[[r| |]|]|] eqn:Hget;
    try discriminate.
  destruct (Hplayer r eq_refl) as (r' & Happly & Hget').
  exists s', r, r'. split; [reflexivity|]. split; [reflexivity|].
  split; [exact Hget'|].
  inversion Hget; subst r. inversion Happly; subst r'.
  repeat split.
Defined.

(** The same update leaves the other tables, the counters and the number
    of players alone. *)
Lemma update_user_frame_witness :
  exists s',
    update_user one_player 1 "player" [assign_name (Some "Anna")] = Ok s' /\
    List.length (rows (PLAYER s')) = 1%nat /\
    COACH s' = COACH one_player /\
    PLAYER_EXERCISE s' = PLAYER_EXERCISE one_player /\
    seq (PLAYER s') = seq (PLAYER one_player).
Proof.
  destruct (update_user one_player 1 "player" [assign_name (Some "Anna")])
    as [s'|] eqn:Hrun; [|discriminate].
  destruct (update_user_frame one_player s' 1 "player"
              [assign_name (Some "Anna")] Hrun)
    as (_ & [Hlen _] & _ & _ & Hseq & _ & _ & _ & Hcoach & _ & _ & _ & _ & _
        & Hpe).
  exists s'. split; [reflexivity|]. split; [exact Hlen|]. split.
  - apply Hcoach. discriminate.
  - split; [exact Hpe|exact Hseq].
Defined.

(** The role "admin" is refused; an update without pairs returns. *)
Lemma update_user_role_check_witness :
  ~ valid_role "admin" /\
  (exists e, update_user one_player 1 "admin" [assign_name (Some "Anna")]
             = Err e /\ kind e = InvalidInput) /\
  update_user one_player 1 "coach" [] = Ok one_player.
Proof.
  assert (H : ~ valid_role "admin").
  { intros [H|[H|H]]; discriminate. }
  split; [exact H|]. split.
  - exact (proj2 (proj1 (update_user_role_check one_player 1 "admin"
                           [assign_name (Some "Anna")])) H).
  - apply (proj2 (update_user_role_check one_player 1 "coach" [])).
    right. left. reflexivity.
Defined.



(** Player 1 rates Stepovers 4 and then sees that rating under DRI. *)
Lemma update_exercise_then_report_witness :
  reachable one_player /\
  exists s',
    update_exercise one_player (rate_stepovers 4)
    = Ok (s', message "Exercise updated successfully.") /\
    listed "DRI" (Progress.Entry "Stepovers" None (Some 4))
           (get_categories_and_exercises_with_ratings s' 1).
Proof.
  split; [exact one_player_reachable|].
  destruct (update_exercise one_player (rate_stepovers 4))
    as [[s' out]|] eqn:Hrun; [|discriminate].
  assert (Hout : out = message "Exercise updated successfully.").
  { vm_compute in Hrun. inversion Hrun. reflexivity. }
  subst out.
  destruct (update_exercise_then_report one_player s' (rate_stepovers 4) 1
              "Stepovers" one_player_reachable eq_refl eq_refl Hrun)
    as (e & c & old & Hfind & Hc & Hce & Hold & _ & _ & _ & Hlisted).
  exists s'. split; [reflexivity|].
  inversion Hfind; subst e.
  assert (Hname : Category.name c = "DRI").
  { cbv in Hc.
    repeat (destruct Hc as [Hc|Hc];
            [subst c; first [reflexivity|discriminate Hce]|]).
    destruct Hc. }
  assert (Hresult : PlayerExercise.result old = None).
  { cbv in Hold.
    repeat (destruct Hold as [Hold|Hold]; [subst old; reflexivity|]).
    destruct Hold. }
  cbn [no_result no_rating rate_stepovers Data.result Data.rating] in Hlisted.
  rewrite Hresult, Hname in Hlisted. exact Hlisted.
Defined.

(** In [family] ids, usernames and emails are unique. *)
Lemma person_keys_unique_witness :
  reachable family /\
  NoDup (map Player.email (rows (PLAYER family))) /\
  NoDup (map Parent.username (rows (PARENT family))).
Proof.
  split; [exact family_reachable|].
  destruct (person_keys_unique family family_reachable)
    as ((_ & _ & Hemail) & _ & (_ & Huser & _)).
  split; [exact Hemail|exact Huser].
Defined.

(** In [family] the player "kid" is found by id and by email. *)
Lemma stored_rows_are_found_witness :
  reachable family /\
  exists r,
    In r (rows (PLAYER family)) /\ Player.username r = "kid" /\
    get_user family (Player.id r) "player" = Ok (Some (player_row r)) /\
    get_user_by_email family "kid@x.com"
    = (Some (player_row r), Some "player").
Proof.
  split; [exact family_reachable|].
  destruct (rows (PLAYER family)) as [|r l] eqn:Hrows; [discriminate|].
  assert (Hin : In r (rows (PLAYER family))).
  { rewrite Hrows. left. reflexivity. }
  destruct (proj1 (stored_rows_are_found family family_reachable) r Hin)
    as [Hid Hemail].
  inversion Hrows; subst r.
  exists (new_player 1 "kid" "pw" "kid@x.com" "Kid" 2012 "ES" None None).
  split; [exact Hin|]. split; [reflexivity|].
  split; [exact Hid|exact Hemail].
Defined.
